(** * The UI-configuration cache and the admin asset editor

  A shallow embedding of two cooperating browser scripts:

  - [static/js/ui-config.js]: the loader that reads the whole key/value
    configuration from session storage or from [/api/ui-config] and
    writes it into every element tagged with [data-ui-key];
  - [admin.js]: the part of the admin panel that lists the assets grouped
    by section and saves one or all of them, dropping the cached
    configuration afterwards.

  The scripts are effectful: they read the clock, talk to session storage
  and to the network, mutate the document and raise and catch exceptions.
  They are embedded in a small state-and-exception monad over an explicit
  [World]; every call to the platform is recorded in a chronological
  trace, so that statements about what was called, how often and in
  which order are statements about that trace.

  Conventions of the model:

  - a snapshot value is a string or [null], as the store keeps them; what
    is kept in session storage is held in parsed form, the JSON text of an
    entry and the entry being taken as one;
  - a plain object is its own properties: the snapshot is a finite map,
    and [grouped], whose enumeration order is observed, is the sequence of
    its properties in creation order, listed by [Object.entries] in the
    order the language fixes (array indices first, ascending, then the
    other keys as created); names inherited from [Object.prototype] are
    not part of the model of these objects, and where the code reads an
    object under such a name this is treated apart: [grouped] in
    [AdminView.group_assets], the snapshot in [Page.assigned];
  - the document is the flat sequence of its elements, each with the
    properties the scripts touch; where a statement is about what the
    page shows in and around a target, the page is the tree of its nodes
    ([Page]);
  - session storage is either accessible or not (the [sessionStorage]
    getter raises), and an accessible one may have no room left, in which
    case [setItem] raises;
  - [await] is sequencing: one call runs from start to end, a request
    taking the time its exchange says. *)

From Stdlib Require Import ZArith Lia Ascii.
From stdpp Require Import gmap strings list pretty sorting.

(* ===================================================================== *)
(** * JavaScript values, errors, strings and objects                      *)
(* ===================================================================== *)

Module Js.

(** A value held by the snapshot under a key: the store keeps
    [value: string?], so a present key holds a string or [null].  A key
    that is missing reads as [undefined], which is [None] of a lookup. *)
Inductive Value : Type :=
| Null
| Str (s : string).

#[global] Instance Value_eq_dec : EqDecision Value.
Proof. solve_decision. Defined.

(** An exception object; scripts only ever read [e.message]. *)
Record Error : Type := mkError { name : string; message : string }.

#[global] Instance Error_eq_dec : EqDecision Error.
Proof. solve_decision. Defined.

Definition SecurityError : Error :=
  mkError "SecurityError" "The operation is insecure.".
Definition QuotaExceededError : Error :=
  mkError "QuotaExceededError" "The quota has been exceeded.".

(** [s.includes(needle)] *)
Fixpoint includes (needle s : string) : bool :=
  String.prefix needle s ||
  match s with
  | EmptyString => false
  | String _ rest => includes needle rest
  end.

(** [s.substring(n)]: what is left after the first [n] characters. *)
Fixpoint drop_chars (n : nat) (s : string) : string :=
  match n, s with
  | O, _ => s
  | S _, EmptyString => EmptyString
  | S m, String _ rest => drop_chars m rest
  end.

(** [s.replace(pat, rep)] with a string pattern: only the first
    occurrence is replaced. *)
Fixpoint replace (pat rep s : string) : string :=
  if String.prefix pat s then rep +:+ drop_chars (String.length pat) s
  else match s with
       | EmptyString => EmptyString
       | String c rest => String c (replace pat rep rest)
       end.

(** [a || b] on an optional string: [undefined] and the empty string
    are falsy. *)
Definition or_else (a : option string) (b : string) : string :=
  match a with
  | Some (String c s) => String c s
  | _ => b
  end.

End Js.

(* ===================================================================== *)
(** * The document                                                        *)
(* ===================================================================== *)

Module Dom.

(** What an element shows.  Assigning [textContent] leaves one text node
    holding the string verbatim; assigning [innerHTML] leaves the nodes
    obtained by parsing the string as markup. *)
Inductive Content : Type :=
| TextContent (s : string)
| InnerHTML (markup : string).

#[global] Instance Content_eq_dec : EqDecision Content.
Proof. solve_decision. Defined.

(** The properties of an element that the two scripts read or write. *)
Record Element : Type := mkElement {
  id : option string;            (* el.id *)
  tagName : string;              (* el.tagName, upper case *)
  type : string;                 (* el.type of an INPUT *)
  uiKey : option string;         (* el.dataset.uiKey, data-ui-key *)
  uiTarget : option string;      (* el.dataset.uiTarget, data-ui-target *)
  src : option string;           (* the src attribute *)
  loading : option string;       (* the loading attribute *)
  placeholder : option string;   (* the placeholder attribute *)
  content : Content;             (* the rendered children *)
  value : option string          (* el.value; undefined off form controls *)
}.

#[global] Instance Element_eq_dec : EqDecision Element.
Proof. solve_decision. Defined.

Definition set_src (v : string) (el : Element) : Element :=
  mkElement (id el) (tagName el) (type el) (uiKey el) (uiTarget el)
            (Some v) (loading el) (placeholder el) (content el) (value el).

Definition setAttribute_loading (v : string) (el : Element) : Element :=
  mkElement (id el) (tagName el) (type el) (uiKey el) (uiTarget el)
            (src el) (Some v) (placeholder el) (content el) (value el).

Definition set_placeholder (v : string) (el : Element) : Element :=
  mkElement (id el) (tagName el) (type el) (uiKey el) (uiTarget el)
            (src el) (loading el) (Some v) (content el) (value el).

Definition set_innerHTML (v : string) (el : Element) : Element :=
  mkElement (id el) (tagName el) (type el) (uiKey el) (uiTarget el)
            (src el) (loading el) (placeholder el) (InnerHTML v) (value el).

Definition set_textContent (v : string) (el : Element) : Element :=
  mkElement (id el) (tagName el) (type el) (uiKey el) (uiTarget el)
            (src el) (loading el) (placeholder el) (TextContent v) (value el).

(** The document is the sequence of its elements in document order. *)
Abbreviation Document := (list Element).

(** [document.getElementById(i)] *)
Definition getElementById (i : string) (doc : Document) : option Element :=
  List.find (fun el => bool_decide (id el = Some i)) doc.

(** [document.querySelectorAll('[id^="p"]')] *)
Definition has_id_prefix (p : string) (el : Element) : bool :=
  match id el with
  | Some i => String.prefix p i
  | None => false
  end.

End Dom.

(* ===================================================================== *)
(** * The platform: clock, session storage, network, trace                *)
(* ===================================================================== *)

Module Runtime.

(** The full configuration as served by [/api/ui-config]: a JSON object
    used as a map from key to value, read through its own properties. *)
Abbreviation Snapshot := (gmap string Js.Value).

(** What [ui-config.js] keeps in session storage: the JSON text of
    [{ ts, data }], kept here in parsed form. *)
Record CacheEntry : Type := mkEntry { ts : Z; data : Snapshot }.

#[global] Instance CacheEntry_eq_dec : EqDecision CacheEntry.
Proof. solve_decision. Defined.

(** [sessionStorage].  Reading the [sessionStorage] property raises a
    [SecurityError] when storage is disabled, so then every operation
    fails; [setItem] alone also fails when the quota is used up. *)
Record SessionStorage : Type := mkStorage {
  accessible : bool;
  quota_exceeded : bool;
  items : gmap string CacheEntry
}.

(** An asset as listed by [/admin/ui-assets]. *)
Record Asset : Type := mkAsset {
  key : string;
  section : string;
  label : string;
  description : option string;
  asset_type : string;
  asset_value : option string
}.

#[global] Instance Asset_eq_dec : EqDecision Asset.
Proof. solve_decision. Defined.

(** One entry of the batch built by [saveAllUIAssets]. *)
Record Update : Type := mkUpdate { u_key : string; u_value : option string }.

#[global] Instance Update_eq_dec : EqDecision Update.
Proof. solve_decision. Defined.

(** The body of a request of the admin panel. *)
Inductive Body : Type :=
| NoBody
| ValueBody (v : option string)          (* { value } *)
| UpdatesBody (us : list Update).         (* { updates } *)

(** What the network does with one request: [fetch] rejects, or a
    response arrives whose [ok] flag is given and whose body parses as
    JSON or makes [res.json()] reject. *)
Inductive Reply (B : Type) : Type :=
| NetworkError (e : Js.Error)
| Response (ok : bool) (body : Js.Error + B).
Arguments NetworkError {B} e.
Arguments Response {B} ok body.

(** A request takes [latency] milliseconds and ends in [reply]. *)
Record Exchange (B : Type) : Type :=
  mkExchange { latency : Z; reply : Reply B }.
Arguments mkExchange {B} latency reply.
Arguments latency {B} e.
Arguments reply {B} e.

(** The JSON body of an answer of the admin API. *)
Record AdminData : Type := mkAdminData {
  d_message : option string;     (* data.message *)
  d_assets : list Asset          (* data.assets *)
}.

(** The calls to the platform, in the order they are made.  A call is
    recorded when it is made, whether or not it then raises. *)
Inductive Event : Type :=
| EvGetItem (k : string)
| EvSetItem (k : string) (e : CacheEntry)
| EvRemoveItem (k : string)
| EvFetch (method url : string) (body : Body)
| EvApply (config : Snapshot)
| EvDispatch (type : string) (detail : Snapshot)
| EvWarn (text : string)
| EvToast (text : string) (isError : bool).

#[global] Instance Body_eq_dec : EqDecision Body.
Proof. solve_decision. Defined.

#[global] Instance Event_eq_dec : EqDecision Event.
Proof. solve_decision. Defined.

Record World : Type := mkWorld {
  clock : Z;                        (* what Date.now() returns *)
  storage : SessionStorage;
  document : Dom.Document;
  uiConfig : option Snapshot;       (* window.__uiConfig *)
  trace : list Event
}.

(** ** Computations *)

Inductive Result (A : Type) : Type :=
| Ok (a : A)
| Throw (e : Js.Error).
Arguments Ok {A} a.
Arguments Throw {A} e.

Definition M (A : Type) : Type := World -> Result A * World.

Definition ret {A} (a : A) : M A := fun w => (Ok a, w).

Definition bind {A B} (m : M A) (k : A -> M B) : M B :=
  fun w => match m w with
           | (Ok a, w') => k a w'
           | (Throw e, w') => (Throw e, w')
           end.

Definition throw {A} (e : Js.Error) : M A := fun w => (Throw e, w).

(** [try { body } catch (e) { handler }] *)
Definition try_catch {A} (body : M A) (handler : Js.Error -> M A) : M A :=
  fun w => match body w with
           | (Ok a, w') => (Ok a, w')
           | (Throw e, w') => handler e w'
           end.

Declare Scope js_scope.
Delimit Scope js_scope with js.
Notation "'do' x <- m ; k" := (bind m (fun x => k))
  (at level 10, x pattern, m at level 100, k at level 200) : js_scope.
Open Scope js_scope.

(** ** Primitive calls *)

Definition emit (ev : Event) : M unit :=
  fun w => (Ok tt, mkWorld (clock w) (storage w) (document w) (uiConfig w)
                           (trace w ++ [ev])).

Definition Date_now : M Z := fun w => (Ok (clock w), w).

Definition with_storage (s : SessionStorage) (w : World) : World :=
  mkWorld (clock w) s (document w) (uiConfig w) (trace w).

(** The getter [window.sessionStorage]. *)
Definition sessionStorage : M SessionStorage :=
  fun w => if accessible (storage w) then (Ok (storage w), w)
           else (Throw Js.SecurityError, w).

Definition getItem (k : string) : M (option CacheEntry) :=
  do _ <- emit (EvGetItem k);
  do s <- sessionStorage;
  ret (items s !! k).

Definition setItem (k : string) (e : CacheEntry) : M unit :=
  do _ <- emit (EvSetItem k e);
  do s <- sessionStorage;
  if quota_exceeded s then throw Js.QuotaExceededError
  else fun w => (Ok tt, with_storage
                   (mkStorage (accessible s) (quota_exceeded s)
                              (<[k := e]> (items s))) w).

Definition removeItem (k : string) : M unit :=
  do _ <- emit (EvRemoveItem k);
  do s <- sessionStorage;
  fun w => (Ok tt, with_storage
              (mkStorage (accessible s) (quota_exceeded s)
                         (delete k (items s))) w).

Definition advance (ms : Z) : M unit :=
  fun w => (Ok tt, mkWorld (clock w + ms) (storage w) (document w)
                           (uiConfig w) (trace w)).

(** [await fetch(url, opts)]: resolves with the response (its [ok] flag
    and its unparsed body) or rejects. *)
Definition fetch {B} (method url : string) (body : Body) (x : Exchange B)
  : M (bool * (Js.Error + B)) :=
  do _ <- emit (EvFetch method url body);
  do _ <- advance (latency x);
  match reply x with
  | NetworkError e => throw e
  | Response ok b => ret (ok, b)
  end.

(** [await res.json()] *)
Definition json {B} (b : Js.Error + B) : M B :=
  match b with
  | inl e => throw e
  | inr v => ret v
  end.

Definition set_document (d : Dom.Document) : M unit :=
  fun w => (Ok tt, mkWorld (clock w) (storage w) d (uiConfig w) (trace w)).

Definition get_document : M Dom.Document := fun w => (Ok (document w), w).

Definition set_uiConfig (c : Snapshot) : M unit :=
  fun w => (Ok tt, mkWorld (clock w) (storage w) (document w) (Some c)
                           (trace w)).

End Runtime.

(* ===================================================================== *)
(** * static/js/ui-config.js                                              *)
(* ===================================================================== *)

Module UiConfig.
Import Runtime.

Definition CACHE_KEY : string := "em_ui_config".
Definition CACHE_TTL : Z := 60 * 1000.

(** The body of the [forEach] of [applyConfig], for one element of the
    document; [querySelectorAll('[data-ui-key]')] selects the elements
    that carry the attribute, the others are passed over.  The value is
    read among the snapshot's own properties; [Page.callback] reads it
    as [config[key]] does, through [Object.prototype], and on the tree
    of the page. *)
Definition apply_element (config : Snapshot) (el : Dom.Element) : Dom.Element :=
  match Dom.uiKey el with
  | None => el
  | Some key =>
      match config !! key with
      | None => el
      | Some Js.Null => el
      | Some (Js.Str value) =>
          if String.eqb (Dom.tagName el) "IMG" then
            Dom.setAttribute_loading "lazy" (Dom.set_src value el)
          else if String.eqb (Dom.tagName el) "INPUT"
                  && negb (String.eqb (Dom.type el) "submit") then
            Dom.set_placeholder value el
          else if bool_decide (Dom.uiTarget el = Some "html") then
            Dom.set_innerHTML value el
          else
            Dom.set_textContent value el
      end
  end.

Definition applyConfig (config : Snapshot) : M unit :=
  do _ <- emit (EvApply config);
  do doc <- get_document;
  do _ <- set_document (apply_element config <$> doc);
  do _ <- emit (EvDispatch "uiConfigLoaded" config);
  set_uiConfig config.

(** Lines 26-43: fetch the configuration, cache it, apply it. *)
Definition fetch_and_apply (x : Exchange Snapshot) : M unit :=
  try_catch
    (do res <- fetch "GET" "/api/ui-config" NoBody x;
     if negb (fst res) then ret tt
     else
       do config <- json (snd res);
       do _ <- try_catch
                 (do now <- Date_now;
                  setItem CACHE_KEY (mkEntry now config))
                 (fun _ => ret tt);
       applyConfig config)
    (fun e => emit (EvWarn ("[UI Config] Could not load dynamic config: "
                              +:+ Js.message e))).

(** [loadUIConfig]; the first block yields [true] where the source
    returns from inside it. *)
Definition loadUIConfig (x : Exchange Snapshot) : M unit :=
  do served <- try_catch
                 (do cached <- getItem CACHE_KEY;
                  match cached with
                  | Some e =>
                      do now <- Date_now;
                      if (now - ts e <? CACHE_TTL)%Z then
                        do _ <- applyConfig (data e);
                        ret true
                      else ret false
                  | None => ret false
                  end)
                 (fun _ => ret false);
  if served then ret tt else fetch_and_apply x.

(** [window.refreshUIConfig] *)
Definition refreshUIConfig (x : Exchange Snapshot) : M unit :=
  do _ <- removeItem CACHE_KEY;
  loadUIConfig x.

End UiConfig.

(* ===================================================================== *)
(** * The contract of the Config Cache, in the words of the specification *)
(* ===================================================================== *)

Module Spec.
Import Runtime.

Definition TTL : Z := 60000.

(** [get() -> Snapshot?]: the cached snapshot if an entry is present and
    [now - fetched_at < TTL], absent otherwise; storage that cannot be
    read counts as holding no entry. *)
Definition get (s : SessionStorage) (now : Z) : option Snapshot :=
  if accessible s then
    match items s !! UiConfig.CACHE_KEY with
    | Some e => if (now - ts e <? TTL)%Z then Some (data e) else None
    | None => None
    end
  else None.

(** On a hit the loader applies the snapshot and returns. *)
Definition on_hit (s : Snapshot) : M unit :=
  do _ <- emit (EvGetItem UiConfig.CACHE_KEY);
  UiConfig.applyConfig s.

(** On a miss it issues one fetch; on success it caches and applies. *)
Definition on_miss (x : Exchange Snapshot) : M unit :=
  do _ <- emit (EvGetItem UiConfig.CACHE_KEY);
  UiConfig.fetch_and_apply x.

(** [load()]: consult [get()], then follow the hit or the miss path. *)
Definition load (x : Exchange Snapshot) : M unit :=
  fun w => match get (storage w) (clock w) with
           | Some s => on_hit s w
           | None => on_miss x w
           end.

End Spec.

(* ===================================================================== *)
(** * Plain objects whose property order is observed                      *)
(* ===================================================================== *)

Module JsObject.

(** The own properties of an object created by [{}], in the order they
    were created.  Keys are unique. *)
Abbreviation Obj V := (list (string * V)).

Definition empty {V} : Obj V := [].

(** [o[k]] *)
Fixpoint get {V} (k : string) (o : Obj V) : option V :=
  match o with
  | [] => None
  | (k', v) :: rest => if String.eqb k' k then Some v else get k rest
  end.

(** [o[k] = v]: an existing property keeps its place, a new one is
    created last. *)
Fixpoint set {V} (k : string) (v : V) (o : Obj V) : Obj V :=
  match o with
  | [] => [(k, v)]
  | (k', v') :: rest =>
      if String.eqb k' k then (k', v) :: rest else (k', v') :: set k v rest
  end.

Definition digit (c : Ascii.ascii) : option N :=
  let n := Ascii.N_of_ascii c in
  if ((48 <=? n) && (n <=? 57))%N then Some (n - 48)%N else None.

Fixpoint digits (acc : N) (s : string) : option N :=
  match s with
  | EmptyString => Some acc
  | String c rest =>
      match digit c with
      | Some d => digits (10 * acc + d)%N rest
      | None => None
      end
  end.

(** The number a property key denotes when the key is an array index:
    a canonical decimal numeral (no sign, no leading zero) of an integer
    from 0 to 2^32 - 2. *)
Definition array_index (s : string) : option N :=
  match s with
  | EmptyString => None
  | String c rest =>
      if Ascii.eqb c "0"%char && negb (String.eqb rest EmptyString) then None
      else match digits 0 s with
           | Some n => if (n <? 2 ^ 32 - 1)%N then Some n else None
           | None => None
           end
  end.

Definition is_array_index (s : string) : bool :=
  match array_index s with Some _ => true | None => false end.

Definition index_value (s : string) : N := default 0%N (array_index s).

Definition index_le (a b : string) : Prop := (index_value a <= index_value b)%N.

#[global] Instance index_le_dec : RelDecision index_le.
Proof. intros a b. unfold index_le. apply _. Defined.

#[global] Instance index_le_total : Total index_le.
Proof. intros a b. unfold index_le. lia. Qed.

(** The order in which the own string keys of an ordinary object are
    listed: first the keys that are array indices, in ascending numeric
    order, then every other key in order of creation. *)
Definition ownKeys {V} (o : Obj V) : list string :=
  merge_sort index_le (List.filter is_array_index (map fst o))
  ++ List.filter (fun k => negb (is_array_index k)) (map fst o).

(** [Object.entries(o)] *)
Definition entries {V} (o : Obj V) : list (string * V) :=
  omap (fun k => match get k o with
                 | Some v => Some (k, v)
                 | None => None
                 end) (ownKeys o).

End JsObject.

(* ===================================================================== *)
(** * admin.js: the UI Assets editor                                      *)
(* ===================================================================== *)

Module Admin.
Import Runtime.

(** [adminApi.request(method, url, body)].  The CSRF token that is
    copied into the body when one was obtained is not part of the
    model. *)
Definition adminApi_request (method url : string) (body : Body)
           (x : Exchange AdminData) : M AdminData :=
  do res <- fetch method url body x;
  do data <- json (snd res);
  if negb (fst res) then
    throw (Js.mkError "Error" (Js.or_else (d_message data) "Request failed"))
  else ret data.

Definition adminApi_get (url : string) := adminApi_request "GET" url NoBody.
Definition adminApi_put (url : string) (body : Body) :=
  adminApi_request "PUT" url body.

(** [showAdminToast(message, isError = false)]: [window.showToast] with
    kind ['error'] or ['success'], or [alert] in its absence. *)
Definition showAdminToast (message : string) (isError : bool) : M unit :=
  emit (EvToast message isError).

(** The callback of [data.assets.forEach] in [loadAdminUIAssets]. *)
Definition group_asset (grouped : JsObject.Obj (list Asset)) (a : Asset)
  : JsObject.Obj (list Asset) :=
  let grouped1 :=
    match JsObject.get (section a) grouped with
    | None => JsObject.set (section a) [] grouped
    | Some _ => grouped
    end in
  match JsObject.get (section a) grouped1 with
  | Some arr => JsObject.set (section a) (arr ++ [a]) grouped1
  | None => grouped1
  end.

(** [grouped] once the [forEach] is over. *)
Definition group_by_section (assets : list Asset) : JsObject.Obj (list Asset) :=
  fold_left group_asset assets JsObject.empty.

(** The pairs [[section, assets]] that the rendering loop of
    [loadAdminUIAssets] walks through, one block of markup each. *)
Definition rendered_sections (assets : list Asset) : list (string * list Asset) :=
  JsObject.entries (group_by_section assets).

(** [window.saveUIAsset] *)
Definition saveUIAsset (key : string) (x : Exchange AdminData) : M unit :=
  do doc <- get_document;
  match Dom.getElementById ("uia-" +:+ key) doc with
  | None => ret tt
  | Some input =>
      try_catch
        (do _ <- adminApi_put ("/admin/ui-assets/" +:+ key)
                              (ValueBody (Dom.value input)) x;
         do _ <- showAdminToast "Saved! Refresh page to see changes." false;
         removeItem "em_ui_config")
        (fun e => showAdminToast (Js.message e) true)
  end.

(** The callback of [inputs.forEach] in [saveAllUIAssets]. *)
Definition collect_update (updates : list Update) (input : Dom.Element)
  : list Update :=
  let key := Js.replace "uia-" "" (default "" (Dom.id input)) in
  if negb (Js.includes "preview" key)
  then updates ++ [mkUpdate key (Dom.value input)]
  else updates.

Definition collect_updates (doc : Dom.Document) : list Update :=
  fold_left collect_update (List.filter (Dom.has_id_prefix "uia-") doc) [].

(** [window.saveAllUIAssets] *)
Definition saveAllUIAssets (x : Exchange AdminData) : M unit :=
  do doc <- get_document;
  let updates := collect_updates doc in
  try_catch
    (do _ <- adminApi_put "/admin/ui-assets" (UpdatesBody updates) x;
     do _ <- showAdminToast
               ("Saved " +:+ pretty (length updates)
                         +:+ " UI assets! Refresh page to see changes.")
               false;
     removeItem "em_ui_config")
    (fun e => showAdminToast (Js.message e) true).

End Admin.

(* ===================================================================== *)
(** * Vocabulary for the statements                                       *)
(* ===================================================================== *)

Module Obs.
Import Runtime.

(** The platform calls made by running [m] from [w], in order. *)
Definition events {A} (m : M A) (w : World) : list Event :=
  drop (length (trace w)) (trace (snd (m w))).

(** The read of the store failed: [fetch] rejected, or the response did
    not carry a success status. *)
Definition fetch_failed {B} (x : Exchange B) : bool :=
  match reply x with
  | NetworkError _ => true
  | Response ok _ => negb ok
  end.

(** The error with which [adminApi.request] rejects on this exchange,
    if it does. *)
Definition request_error (x : Exchange AdminData) : option Js.Error :=
  match reply x with
  | NetworkError e => Some e
  | Response _ (inl e) => Some e
  | Response false (inr d) =>
      Some (Js.mkError "Error" (Js.or_else (d_message d) "Request failed"))
  | Response true (inr _) => None
  end.

(** The application mode of a display target, as [applyConfig] infers
    it from the element. *)
Inductive Mode : Type := Image | Placeholder | RawHtml | Text.

Definition application_mode (el : Dom.Element) : Mode :=
  if String.eqb (Dom.tagName el) "IMG" then Image
  else if String.eqb (Dom.tagName el) "INPUT"
          && negb (String.eqb (Dom.type el) "submit") then Placeholder
  else if bool_decide (Dom.uiTarget el = Some "html") then RawHtml
  else Text.

(** The distinct members of a list, each at its first occurrence. *)
Fixpoint first_occurrences (l : list string) : list string :=
  match l with
  | [] => []
  | x :: rest =>
      x :: List.filter (fun y => negb (String.eqb x y)) (first_occurrences rest)
  end.

(** The assets of one section, in the order of the list. *)
Definition in_section (s : string) (assets : list Asset) : list Asset :=
  List.filter (fun a => String.eqb (section a) s) assets.

(** The read of the whole configuration by the loader. *)
Definition GET_CONFIG : Event := EvFetch "GET" "/api/ui-config" NoBody.

(** The calls of one load come in one of four shapes. *)
Inductive LoadShape : list Event -> Prop :=
| ShapeHit (s : Snapshot) :
    LoadShape [EvGetItem UiConfig.CACHE_KEY; EvApply s; EvDispatch "uiConfigLoaded" s]
| ShapeRefused :
    LoadShape [EvGetItem UiConfig.CACHE_KEY; GET_CONFIG]
| ShapeWarned (text : string) :
    LoadShape [EvGetItem UiConfig.CACHE_KEY; GET_CONFIG; EvWarn text]
| ShapeFetched (t : Z) (s : Snapshot) :
    LoadShape [EvGetItem UiConfig.CACHE_KEY; GET_CONFIG;
               EvSetItem UiConfig.CACHE_KEY (mkEntry t s);
               EvApply s; EvDispatch "uiConfigLoaded" s].

(** What a save owes the cache and the user, for a save [m] run from
    [w] on the exchange [x]: after a write that succeeded the cache entry
    has been removed by exactly one call, a success notification was
    shown, and every later load, whenever it runs, misses the cache and
    fetches; after a write that failed a failure notification carrying
    the error was shown, no success notification was, and storage was
    not touched. *)
Definition SaveContract (m : M unit) (x : Exchange AdminData) (w : World) : Prop :=
  (request_error x = None ->
   count_occ Event_eq_dec (events m w) (EvRemoveItem "em_ui_config") = 1 /\
   (exists text, EvToast text false ∈ events m w) /\
   (forall now, Spec.get (storage (snd (m w))) now = None) /\
   (forall x' w', storage w' = storage (snd (m w)) ->
                  UiConfig.loadUIConfig x' w' = Spec.on_miss x' w')) /\
  (forall e, request_error x = Some e ->
             EvToast (Js.message e) true ∈ events m w /\
             (forall text, EvToast text false ∉ events m w) /\
             (forall k, EvRemoveItem k ∉ events m w) /\
             storage (snd (m w)) = storage w).

(** The key [saveAllUIAssets] derives from an element id. *)
Definition derived_key (el : Dom.Element) : string :=
  Js.drop_chars 4 (default "" (Dom.id el)).

End Obs.

(* ===================================================================== *)
(** * Sample pages, snapshots and exchanges                               *)
(* ===================================================================== *)

Module Samples.
Import Runtime.

Definition target (tag type key : string) (mode : option string)
           (shown : string) : Dom.Element :=
  Dom.mkElement None tag type (Some key) mode None None None
                (Dom.TextContent shown) None.

Definition greeting : Dom.Element := target "SPAN" "" "greeting" None "Hello".
Definition promo : Dom.Element := target "DIV" "" "promo" (Some "html") "".
Definition logo : Dom.Element := target "IMG" "" "logo" None "".
Definition search : Dom.Element := target "INPUT" "text" "search" None "".
Definition banner : Dom.Element := target "H1" "" "banner_title" None "Welcome".

Definition page : Dom.Document := [greeting; promo; logo; search; banner].

Definition snapshot : Snapshot :=
  <["greeting" := Js.Str "Hi"]>
    (<["promo" := Js.Str "<b>Hi</b>"]>
       (<["logo" := Js.Str "/img/logo.png"]>
          (<["search" := Js.Str "Search the shop"]> ∅))).

Definition world (now : Z) (s : SessionStorage) : World :=
  mkWorld now s page None [].

Definition empty_storage : SessionStorage := mkStorage true false ∅.
Definition disabled_storage : SessionStorage := mkStorage false false ∅.
Definition full_storage : SessionStorage := mkStorage true true ∅.

(** The snapshot was cached at time 1000. *)
Definition cached_storage : SessionStorage :=
  mkStorage true false (<[UiConfig.CACHE_KEY := mkEntry 1000 snapshot]> ∅).

Definition served : Exchange Snapshot :=
  mkExchange 40 (Response true (inr snapshot)).
Definition refused : Exchange Snapshot :=
  mkExchange 40 (Response false (inr ∅)).
Definition offline : Exchange Snapshot :=
  mkExchange 40 (NetworkError (Js.mkError "TypeError" "Failed to fetch")).

(** The admin page as [loadAdminUIAssets] renders it for one text asset
    and one image asset: a row, an input and, for the image, a preview. *)
Definition editor_element (i : string) (tag : string) (v : option string)
  : Dom.Element :=
  Dom.mkElement (Some i) tag "text" None None None None None
                (Dom.TextContent "") v.

Definition editor : Dom.Document :=
  [ editor_element "admin-ui-assets-container" "DIV" None;
    editor_element "uia-row-footer_text" "DIV" None;
    editor_element "uia-footer_text" "INPUT" (Some "(c) 2024");
    editor_element "uia-row-logo_url" "DIV" None;
    editor_element "uia-preview-logo_url" "IMG" None;
    editor_element "uia-logo_url" "INPUT" (Some "https://x/img.png") ].

Definition admin_world : World :=
  mkWorld 5000 cached_storage editor None [].

Definition accepted : Exchange AdminData :=
  mkExchange 25 (Response true (inr (mkAdminData None []))).
Definition rejected : Exchange AdminData :=
  mkExchange 25 (Response false (inr (mkAdminData (Some "Unknown key") []))).

Definition asset (k s : string) : Asset := mkAsset k s k None "text" None.

Definition named_sections : list Asset :=
  [asset "hero_title" "hero"; asset "footer_text" "footer";
   asset "hero_subtitle" "hero"].

Definition numbered_sections : list Asset :=
  [asset "second" "2"; asset "first" "1"].

End Samples.

(* ===================================================================== *)
(** * admin.js: escaping                                                  *)
(* ===================================================================== *)

Module Html.

(** The double quote, as a character and as a one-character string. *)
Definition dquote_char : Ascii.ascii := "034"%char.
Definition dquote : string := String dquote_char EmptyString.

(** [s.replace(/c/g, rep)] for a pattern that is one literal character:
    every occurrence is replaced, left to right. *)
Fixpoint replace_all (c : Ascii.ascii) (rep : string) (s : string) : string :=
  match s with
  | EmptyString => EmptyString
  | String a rest =>
      (if Ascii.eqb a c then rep else String a EmptyString)
        +:+ replace_all c rep rest
  end.

(** [escHtml(str)]: four passes, in the order of the source. *)
Definition escHtml (str : string) : string :=
  replace_all dquote_char "&quot;"
    (replace_all ">"%char "&gt;"
       (replace_all "<"%char "&lt;"
          (replace_all "&"%char "&amp;" str))).

(** What the four passes together make of one character. *)
Definition esc_char (a : Ascii.ascii) : string :=
  if Ascii.eqb a "&"%char then "&amp;"
  else if Ascii.eqb a "<"%char then "&lt;"
  else if Ascii.eqb a ">"%char then "&gt;"
  else if Ascii.eqb a dquote_char then "&quot;"
  else String a EmptyString.

(** The character [c] occurs in [s]. *)
Fixpoint occurs (c : Ascii.ascii) (s : string) : bool :=
  match s with
  | EmptyString => false
  | String a rest => Ascii.eqb a c || occurs c rest
  end.

(** None of the four characters that [escHtml] rewrites occurs in [s]. *)
Definition plain (s : string) : bool :=
  negb (occurs "&"%char s) && negb (occurs "<"%char s)
  && negb (occurs ">"%char s) && negb (occurs dquote_char s).

End Html.

(* ===================================================================== *)
(** * More vocabulary                                                     *)
(* ===================================================================== *)

Module ObsExtra.
Import Runtime.

(** [el'] has the id, tag, type, key and target of [el]: what decides
    whether and how a snapshot value is applied to it. *)
Definition same_identity (el el' : Dom.Element) : Prop :=
  Dom.id el' = Dom.id el /\
  Dom.tagName el' = Dom.tagName el /\
  Dom.type el' = Dom.type el /\
  Dom.uiKey el' = Dom.uiKey el /\
  Dom.uiTarget el' = Dom.uiTarget el.

End ObsExtra.

(* ===================================================================== *)
(** * admin.js: the CSRF token and the rendering of the editor            *)
(* ===================================================================== *)

Module AdminView.
Import Runtime Admin.

(** What [/auth/csrf-token] answers, as far as [fetchCsrfToken] looks at
    it: JSON [null], or a value whose [csrf_token] member is a string or
    is missing. *)
Inductive CsrfData : Type :=
| CsrfNull
| CsrfObject (csrf_token : option string).

(** [fetchCsrfToken()].  The module variable [csrfToken] is passed in and
    its value after the call is returned. *)
Definition fetchCsrfToken (csrfToken : option string) (x : Exchange CsrfData)
  : M (option string) :=
  try_catch
    (do res <- fetch "GET" "/auth/csrf-token" NoBody x;
     do data <- json (snd res);
     match data with
     | CsrfNull =>
         throw (Js.mkError "TypeError"
                  "Cannot read properties of null (reading 'csrf_token')")
     | CsrfObject token => ret token
     end)
    (fun _ =>
       do _ <- emit (EvWarn "[Admin] Could not fetch CSRF token");
       ret csrfToken).

(** Template text is written with [^] in place of the double quote. *)
Definition markup (s : string) : string :=
  Html.replace_all "^"%char Html.dquote s.

Fixpoint spaces (n : nat) : string :=
  match n with
  | O => EmptyString
  | S m => String " "%char (spaces m)
  end.

(** A line break of the template followed by [n] spaces of indentation. *)
Definition nl (n : nat) : string := String "010"%char (spaces n).

(** [a.description ? `<small>${a.description}</small>` : ''] *)
Definition description_markup (a : Asset) : string :=
  match description a with
  | Some (String c d) => "<small>" +:+ String c d +:+ "</small>"
  | _ => EmptyString
  end.

(** The branch of the row template taken for an image asset. *)
Definition image_input (a : Asset) : string :=
  markup "<div style=^display:flex;gap:8px;align-items:center;^>" +:+
  nl 41 +:+ markup "<img id=^uia-preview-" +:+ key a +:+ markup "^ src=^" +:+
  Js.or_else (asset_value a) "" +:+
  markup "^ width=^48^ height=^48^ style=^border-radius:8px;object-fit:cover;border:1px solid #E5E7EB;^ onerror=^this.src='https://via.placeholder.com/48'^>" +:+
  nl 41 +:+ markup "<input type=^text^ class=^admin-input^ id=^uia-" +:+
  key a +:+ markup "^ value=^" +:+
  Html.escHtml (Js.or_else (asset_value a) "") +:+
  markup "^ style=^flex:1;^ placeholder=^Image URL^ oninput=^document.getElementById('uia-preview-" +:+
  key a +:+ markup "').src=this.value^>" +:+ nl 39 +:+ "</div>".

(** The branch taken for any other asset. *)
Definition text_input (a : Asset) : string :=
  markup "<input type=^text^ class=^admin-input^ id=^uia-" +:+ key a +:+
  markup "^ value=^" +:+ Html.escHtml (Js.or_else (asset_value a) "") +:+
  markup "^ style=^width:100%;^>".

Definition input_markup (a : Asset) : string :=
  if String.eqb (asset_type a) "image" then image_input a else text_input a.

(** The template of one row, lines 322-339. *)
Definition asset_row (a : Asset) : string :=
  nl 24 +:+ markup "<div class=^ui-asset-row^ id=^uia-row-" +:+ key a +:+
  markup "^>" +:+ nl 28 +:+ markup "<div class=^ui-asset-label^>" +:+
  nl 32 +:+ "<span>" +:+ label a +:+ "</span>" +:+ nl 32 +:+
  description_markup a +:+ nl 28 +:+ "</div>" +:+ nl 28 +:+
  markup "<div class=^ui-asset-input-wrap^>" +:+ nl 32 +:+ input_markup a +:+
  nl 28 +:+ "</div>" +:+ nl 28 +:+
  markup "<button class=^admin-btn admin-btn-sm^ onclick=^saveUIAsset('" +:+
  key a +:+ markup "')^>Save</button>" +:+ nl 24 +:+ "</div>" +:+ nl 20.

Definition CONTAINER : string := "admin-ui-assets-container".

Definition LOADING : string :=
  markup "<p style=^color:#6B7280;padding:20px;^>Loading UI assets...</p>".

(** [container.innerHTML = v], the container being the first element with
    the id. *)
Fixpoint set_innerHTML_of (i v : string) (doc : Dom.Document) : Dom.Document :=
  match doc with
  | [] => []
  | el :: rest =>
      if bool_decide (Dom.id el = Some i) then Dom.set_innerHTML v el :: rest
      else el :: set_innerHTML_of i v rest
  end.

Definition set_container (v : string) : M unit :=
  do doc <- get_document;
  set_document (set_innerHTML_of CONTAINER v doc).

(** The names that a plain object such as [grouped] inherits from
    [Object.prototype].  Read on [grouped], each gives a function, or for
    [__proto__] the prototype itself: a value that is truthy and has no
    [push]. *)
Definition inherited : list string :=
  ["constructor"; "hasOwnProperty"; "isPrototypeOf"; "propertyIsEnumerable";
   "toLocaleString"; "toString"; "valueOf"; "__defineGetter__";
   "__defineSetter__"; "__lookupGetter__"; "__lookupSetter__"; "__proto__"].

Definition is_inherited (s : string) : bool := bool_decide (s ∈ inherited).

Section Rendering.

(** [String.prototype.toUpperCase], left uninterpreted. *)
Variable toUpperCase : string -> string.

(** The [TypeError] of calling [push] on a value that has none; its
    message is the engine's. *)
Variable push_error : Js.Error.

(** The [forEach] of lines 312-315.  Under an inherited name
    [grouped[a.section]] is truthy, so no array is created, and the call
    of [push] raises; the name never becomes a property of [grouped]. *)
Fixpoint group_assets (grouped : JsObject.Obj (list Asset)) (assets : list Asset)
  : Js.Error + JsObject.Obj (list Asset) :=
  match assets with
  | [] => inr grouped
  | a :: rest =>
      if is_inherited (section a) then inl push_error
      else group_assets (group_asset grouped a) rest
  end.

(** The template of one section, lines 320-340, for one entry of
    [Object.entries(grouped)]. *)
Definition section_block (entry : string * list Asset) : string :=
  markup "<div class=^ui-asset-section^>" +:+ nl 20 +:+
  markup "<div class=^ui-asset-section-title^>" +:+
  toUpperCase (Html.replace_all "_"%char " " (fst entry)) +:+ "</div>" +:+
  nl 20 +:+ String.concat "" (map asset_row (snd entry)) +:+ nl 16 +:+
  "</div>".

(** [html] after the rendering loop over [entries]. *)
Definition render_entries (entries : list (string * list Asset)) : string :=
  fold_left (fun html entry => html +:+ section_block entry)
            entries EmptyString.

(** [html] for a list of assets with no section under an inherited name. *)
Definition render (assets : list Asset) : string :=
  render_entries (rendered_sections assets).

(** [window.loadAdminUIAssets] *)
Definition loadAdminUIAssets (x : Exchange AdminData) : M unit :=
  do doc <- get_document;
  match Dom.getElementById CONTAINER doc with
  | None => ret tt
  | Some _ =>
      do _ <- set_container LOADING;
      try_catch
        (do data <- adminApi_get "/admin/ui-assets" x;
         match group_assets JsObject.empty (d_assets data) with
         | inl e => throw e
         | inr grouped => set_container (render_entries (JsObject.entries grouped))
         end)
        (fun e =>
           set_container (markup "<p style=^color:red;padding:20px;^>"
                            +:+ Js.message e +:+ "</p>"))
  end.

End Rendering.

(** The start of the input that either branch of the row template writes
    for an asset: its id and its value attribute. *)
Definition input_start (a : Asset) : string :=
  markup "<input type=^text^ class=^admin-input^ id=^uia-" +:+ key a +:+
  markup "^ value=^" +:+ Html.escHtml (Js.or_else (asset_value a) "") +:+
  Html.dquote.

(** A page with the container only, and an answer of the store. *)
Definition container_page : Dom.Document :=
  [Samples.editor_element CONTAINER "DIV" None].

Definition listing : Exchange AdminData :=
  mkExchange 30 (Response true (inr (mkAdminData None Samples.named_sections))).

(** What one engine raises for [grouped[a.section].push(a)] under an
    inherited name. *)
Definition not_a_function : Js.Error :=
  Js.mkError "TypeError" "grouped[a.section].push is not a function".

Definition token_granted : Exchange CsrfData :=
  mkExchange 10 (Response true (inr (CsrfObject (Some "t0k3n")))).

End AdminView.

(* ===================================================================== *)
(** * ui-config.js: [applyConfig] on the page as a tree                   *)
(* ===================================================================== *)

(** Where a statement is about what the page shows around a target, the
    page is the tree of its nodes and [config[key]] is read as the
    language reads it, through [Object.prototype]. *)
Module Page.
Import Runtime.

(** The attributes of an element that [applyConfig] reads or writes. *)
Record Element : Type := mkElement {
  id : option string;            (* el.id *)
  tagName : string;              (* el.tagName, upper case *)
  type : string;                 (* el.type of an INPUT *)
  uiKey : option string;         (* el.dataset.uiKey, data-ui-key *)
  uiTarget : option string;      (* el.dataset.uiTarget, data-ui-target *)
  src : option string;           (* the src attribute *)
  loading : option string;       (* the loading attribute *)
  placeholder : option string    (* the placeholder attribute *)
}.

#[global] Instance Element_eq_dec : EqDecision Element.
Proof. solve_decision. Defined.

Definition set_src (v : string) (el : Element) : Element :=
  mkElement (id el) (tagName el) (type el) (uiKey el) (uiTarget el)
            (Some v) (loading el) (placeholder el).

Definition setAttribute_loading (v : string) (el : Element) : Element :=
  mkElement (id el) (tagName el) (type el) (uiKey el) (uiTarget el)
            (src el) (Some v) (placeholder el).

Definition set_placeholder (v : string) (el : Element) : Element :=
  mkElement (id el) (tagName el) (type el) (uiKey el) (uiTarget el)
            (src el) (loading el) (Some v).

(** A node of the page: a text node, or an element with its child
    nodes. *)
#[warnings="-register-all"]
Inductive Node : Type :=
| TextNode (s : string)
| ElementNode (el : Element) (childNodes : list Node).

(** Induction over a node and all the nodes below it. *)
Fixpoint Node_nested_ind (P : Node -> Prop)
         (HText : forall s, P (TextNode s))
         (HElement : forall el children,
             Forall P children -> P (ElementNode el children))
         (n : Node) : P n :=
  match n with
  | TextNode s => HText s
  | ElementNode el children =>
      HElement el children
        ((fix all (l : list Node) : Forall P l :=
            match l with
            | [] => List.Forall_nil P
            | x :: rest =>
                @List.Forall_cons Node P x rest
                  (Node_nested_ind P HText HElement x) (all rest)
            end) children)
  end.

(** The loop refers to an element by the place it had in the page when
    the list was made: the index of a node of the page, then child
    indices. *)
Abbreviation Path := (list nat).

Section Paths.
Context {A : Type}.
Variable paths_of : A -> list Path.

(** The paths of the [i]-th, [i+1]-th, ... item, each below its index. *)
Fixpoint indexed_paths (i : nat) (l : list A) : list Path :=
  match l with
  | [] => []
  | x :: rest => map (cons i) (paths_of x) ++ indexed_paths (S i) rest
  end.

End Paths.

(** The elements with [data-ui-key] in a node, in document order: the
    node itself (the empty path) before the elements inside it. *)
Fixpoint selected (n : Node) : list Path :=
  match n with
  | TextNode _ => []
  | ElementNode el children =>
      match uiKey el with
      | Some _ => [[]]
      | None => []
      end ++ indexed_paths selected 0 children
  end.

(** [document.querySelectorAll('[data-ui-key]')]: a static list, in
    document order. *)
Definition querySelectorAll (page : list Node) : list Path :=
  indexed_paths selected 0 page.

(** The node reached from a list of nodes by a path of child indices. *)
Fixpoint at_path (p : Path) (nodes : list Node) : option Node :=
  match p with
  | [] => None
  | i :: rest =>
      match nodes !! i with
      | None => None
      | Some n =>
          match rest, n with
          | [], _ => Some n
          | _ :: _, ElementNode _ children => at_path rest children
          | _ :: _, _ => None
          end
      end
  end.

(** Runs [f] on the element at the path. *)
Fixpoint update (f : Element -> list Node -> Node) (p : Path) (n : Node) : Node :=
  match p, n with
  | [], ElementNode el children => f el children
  | i :: rest, ElementNode el children =>
      ElementNode el (alter (update f rest) i children)
  | _, _ => n
  end.

Definition update_page (f : Element -> list Node -> Node) (p : Path)
           (page : list Node) : list Node :=
  match p with
  | [] => page
  | i :: rest => alter (update f rest) i page
  end.

(** [p] lies strictly below [q]. *)
Fixpoint below (q p : Path) : bool :=
  match q, p with
  | [], _ :: _ => true
  | i :: q', j :: p' => Nat.eqb i j && below q' p'
  | _, _ => false
  end.

(** The element listed at [p] has left the page: it was inside a target
    whose content has been replaced. *)
Definition detached (gone : list Path) (p : Path) : bool :=
  existsb (fun q => below q p) gone.

(** [el'] has the id, tag, type, key and target of [el]. *)
Definition same_identity (el el' : Element) : Prop :=
  id el' = id el /\
  tagName el' = tagName el /\
  type el' = type el /\
  uiKey el' = uiKey el /\
  uiTarget el' = uiTarget el.

(** [el.textContent = value]: one text node, or none for the empty
    string. *)
Definition text_nodes (value : string) : list Node :=
  match value with
  | EmptyString => []
  | _ => [TextNode value]
  end.

Section Apply.

(** The string that an assignment makes of the member of
    [Object.prototype] with the given name; the text is the engine's. *)
Variable member_text : string -> string.

(** The nodes that the HTML parser makes of a string assigned to
    [innerHTML], left uninterpreted. *)
Variable parse : string -> list Node.

(** [const value = config[key]; if (value === undefined || value ===
    null) return;]: the string that goes on to be assigned, if any.  An
    own property of the snapshot comes first; a name the snapshot does
    not have is looked up in [Object.prototype], where every member is a
    function or an object, so neither [undefined] nor [null]. *)
Definition assigned (config : Snapshot) (key : string) : option string :=
  match config !! key with
  | Some (Js.Str value) => Some value
  | Some Js.Null => None
  | None =>
      if AdminView.is_inherited key then Some (member_text key) else None
  end.

(** The callback of the [forEach], lines 48-61, on an element and its
    child nodes.  Assigning [innerHTML] or [textContent] replaces the
    children. *)
Definition callback (config : Snapshot) (el : Element) (children : list Node)
  : Node :=
  match uiKey el with
  | None => ElementNode el children
  | Some key =>
      match assigned config key with
      | None => ElementNode el children
      | Some value =>
          if String.eqb (tagName el) "IMG" then
            ElementNode (setAttribute_loading "lazy" (set_src value el)) children
          else if String.eqb (tagName el) "INPUT"
                  && negb (String.eqb (type el) "submit") then
            ElementNode (set_placeholder value el) children
          else if bool_decide (uiTarget el = Some "html") then
            ElementNode el (parse value)
          else
            ElementNode el (text_nodes value)
      end
  end.

(** The callback assigns to the element. *)
Definition written (config : Snapshot) (el : Element) : bool :=
  match uiKey el with
  | Some key => bool_decide (is_Some (assigned config key))
  | None => false
  end.

(** The callback replaces the children of the element: it assigns to
    [innerHTML] or to [textContent]. *)
Definition replaced (config : Snapshot) (el : Element) : bool :=
  written config el
  && negb (String.eqb (tagName el) "IMG")
  && negb (String.eqb (tagName el) "INPUT"
           && negb (String.eqb (type el) "submit")).

(** One round of the [forEach]: the callback on the element listed at
    [p].  The state is the page and the paths of the targets whose
    content has been replaced so far.  An element that is still on the
    page is where it was, since nothing is inserted or removed beside
    it.  An element that was inside a replaced target is visited all
    the same, but it has left the page and what is assigned to it does
    not show there; the elements that the parser made are not in the
    list. *)
Definition visit (config : Snapshot) (st : list Node * list Path) (p : Path)
  : list Node * list Path :=
  if detached (snd st) p then st
  else
    match at_path p (fst st) with
    | Some (ElementNode el _) =>
        (update_page (callback config) p (fst st),
         if replaced config el then p :: snd st else snd st)
    | _ => st
    end.

(** Lines 47-62 of [applyConfig], on the nodes of the page: the callback
    runs on every listed element, in the order of the list.  The part of
    [applyConfig] after the loop does not touch the page. *)
Definition applyConfig (config : Snapshot) (page : list Node) : list Node :=
  fst (fold_left (visit config) (querySelectorAll page) (page, [])).

(** The same, node by node: what the loop leaves of a node and of the
    nodes below it ([PageProps.applyConfig_nodes]). *)
Fixpoint apply_node (config : Snapshot) (n : Node) : Node :=
  match n with
  | TextNode s => TextNode s
  | ElementNode el children =>
      let inside := map (apply_node config) children in
      match uiKey el with
      | None => ElementNode el inside
      | Some key =>
          match assigned config key with
          | None => ElementNode el inside
          | Some value =>
              if String.eqb (tagName el) "IMG" then
                ElementNode (setAttribute_loading "lazy" (set_src value el)) inside
              else if String.eqb (tagName el) "INPUT"
                      && negb (String.eqb (type el) "submit") then
                ElementNode (set_placeholder value el) inside
              else if bool_decide (uiTarget el = Some "html") then
                ElementNode el (parse value)
              else
                ElementNode el (text_nodes value)
          end
      end
  end.

(** Some element of the node, itself included, is assigned to. *)
Fixpoint touched_node (config : Snapshot) (n : Node) : bool :=
  match n with
  | TextNode _ => false
  | ElementNode el children =>
      written config el || existsb (touched_node config) children
  end.

Definition touched (config : Snapshot) (nodes : list Node) : bool :=
  existsb (touched_node config) nodes.

(** Some element strictly above the end of the path has its children
    replaced. *)
Fixpoint replaced_above (config : Snapshot) (p : Path) (nodes : list Node)
  : bool :=
  match p with
  | [] => false
  | i :: rest =>
      match rest, nodes !! i with
      | _ :: _, Some (ElementNode el children) =>
          replaced config el || replaced_above config rest children
      | _, _ => false
      end
  end.

(** What [applyConfig] leaves of a node that it does not remove. *)
Definition kept (n n' : Node) : Prop :=
  match n with
  | TextNode _ => n' = n
  | ElementNode el _ =>
      exists el' children',
        n' = ElementNode el' children' /\
        same_identity el el' /\
        (uiKey el = None -> el' = el)
  end.

End Apply.

(** A heading bound to a key the sample snapshot lacks, with a greeting
    inside it that the snapshot has. *)
Definition target (tag key : string) (mode : option string) : Element :=
  mkElement None tag "" (Some key) mode None None None.

Definition greeting : Node :=
  ElementNode (target "SPAN" "greeting" None) [TextNode "Hello"].

Definition banner : Node :=
  ElementNode (target "H1" "banner_title" None) [TextNode "Welcome. "; greeting].

(** A promotion written as markup, with a note inside it that is bound
    to a key the snapshot lacks. *)
Definition note : Node :=
  ElementNode (target "SMALL" "promo_note" None) [TextNode "Until Friday"].

Definition promo : Node :=
  ElementNode (target "DIV" "promo" (Some "html")) [note].


Definition footer : Node :=
  ElementNode (mkElement (Some "foot") "P" "" None None None None None)
              [TextNode "Contact us"].

Definition page : list Node := [banner; promo; footer].

(** A parser that knows one string. *)
Definition sample_parse (markup : string) : list Node :=
  if String.eqb markup "<b>Hi</b>" then
    [ElementNode (mkElement None "B" "" None None None None None) [TextNode "Hi"]]
  else [].

End Page.

(* ===================================================================== *)
(** * Properties of the loader                                            *)
(* ===================================================================== *)

Module LoaderProps.
Import Runtime UiConfig Obs.

(** Unfolds the monad down to functions on worlds. *)
Ltac run_js :=
  unfold Spec.load, Spec.on_hit, Spec.on_miss, Spec.get,
         loadUIConfig, refreshUIConfig, fetch_and_apply, applyConfig,
         getItem, setItem, removeItem, sessionStorage, fetch, json,
         Date_now, advance, emit, set_document, get_document, set_uiConfig,
         with_storage, try_catch, throw, bind, ret;
  cbn [fst snd clock storage document uiConfig trace accessible
       quota_exceeded items ts data latency reply negb].

Lemma TTL_agree : Spec.TTL = CACHE_TTL.
Proof. reflexivity. Qed.

(** The loader is the specified algorithm: it follows the hit path
    exactly when [get()] yields a snapshot. *)
Lemma loadUIConfig_refines (x : Exchange Snapshot) (w : World) :
  loadUIConfig x w = Spec.load x w.
Proof.
  destruct w as [now [acc quota its] doc cfg tr].
  run_js.
  destruct acc; [|reflexivity]. run_js.
  destruct (its !! CACHE_KEY) as [[T S]|]; [|reflexivity]. run_js.
  change Spec.TTL with CACHE_TTL.
  destruct (now - T <? CACHE_TTL)%Z; reflexivity.
Qed.

Lemma get_fresh (s : SessionStorage) (now T : Z) (S : Snapshot) :
  accessible s = true ->
  items s !! CACHE_KEY = Some (mkEntry T S) ->
  (now < T + 60000)%Z ->
  Spec.get s now = Some S.
Proof.
  intros Hacc Hit Hlt. unfold Spec.get. rewrite Hacc, Hit. cbn [ts data].
  destruct (Z.ltb_spec (now - T) Spec.TTL) as [_|Hge]; [reflexivity|].
  unfold Spec.TTL in Hge. lia.
Qed.

Lemma get_stale (s : SessionStorage) (now T : Z) (S : Snapshot) :
  items s !! CACHE_KEY = Some (mkEntry T S) ->
  (T + 60000 <= now)%Z ->
  Spec.get s now = None.
Proof.
  intros Hit Hge. unfold Spec.get. rewrite Hit. cbn [ts data].
  destruct (accessible s); [|reflexivity].
  destruct (Z.ltb_spec (now - T) Spec.TTL) as [Hlt|_]; [|reflexivity].
  unfold Spec.TTL in Hlt. lia.
Qed.

Lemma get_absent (s : SessionStorage) (now : Z) :
  items s !! CACHE_KEY = None -> Spec.get s now = None.
Proof.
  intros Hit. unfold Spec.get. rewrite Hit. destruct (accessible s); reflexivity.
Qed.

Lemma get_inaccessible (s : SessionStorage) (now : Z) :
  accessible s = false -> Spec.get s now = None.
Proof. intros Hacc. unfold Spec.get. rewrite Hacc. reflexivity. Qed.

(** A successful fetch on working storage leaves the snapshot cached
    under the time at which it was stored. *)
Lemma fetched_snapshot_cached (x : Exchange Snapshot) (w : World) (S : Snapshot) :
  accessible (storage w) = true ->
  quota_exceeded (storage w) = false ->
  Spec.get (storage w) (clock w) = None ->
  reply x = Response true (inr S) ->
  items (storage (snd (loadUIConfig x w))) !! CACHE_KEY
  = Some (mkEntry (clock w + latency x) S).
Proof.
  intros Hacc Hq Hmiss Hr. rewrite loadUIConfig_refines.
  unfold Spec.load. rewrite Hmiss.
  destruct w as [now [acc quota its] doc cfg tr]. cbn in Hacc, Hq. subst.
  destruct x as [lat rep]. cbn in Hr. subst rep.
  run_js. cbn. apply lookup_insert_eq.
Qed.

(** C1. Cache freshness.  The loader reads the cache as [get()] is
    specified, with a time to live of 60 000 ms: an entry stored at
    time [T] with snapshot [S] is served (applied with no fetch) by every
    load strictly before [T + 60000] and is passed over (the loader goes
    to the network) by every load at or after [T + 60000]; with no entry
    the load is a miss as well. *)
Theorem cache_freshness (x : Exchange Snapshot) (w : World) :
  CACHE_TTL = 60000%Z /\
  loadUIConfig x w = Spec.load x w /\
  (forall T S,
      accessible (storage w) = true ->
      items (storage w) !! CACHE_KEY = Some (mkEntry T S) ->
      ((clock w < T + 60000)%Z ->
       Spec.get (storage w) (clock w) = Some S /\
       loadUIConfig x w = Spec.on_hit S w) /\
      ((T + 60000 <= clock w)%Z ->
       Spec.get (storage w) (clock w) = None /\
       loadUIConfig x w = Spec.on_miss x w)) /\
  (items (storage w) !! CACHE_KEY = None ->
   Spec.get (storage w) (clock w) = None /\
   loadUIConfig x w = Spec.on_miss x w).
Proof.
  split; [reflexivity|].
  split; [apply loadUIConfig_refines|].
  split.
  - intros T S Hacc Hit. split; intros Ht.
    + pose proof (get_fresh _ _ _ _ Hacc Hit Ht) as Hg.
      split; [exact Hg|].
      rewrite loadUIConfig_refines. unfold Spec.load. rewrite Hg. reflexivity.
    + pose proof (get_stale _ _ _ _ Hit Ht) as Hg.
      split; [exact Hg|].
      rewrite loadUIConfig_refines. unfold Spec.load. rewrite Hg. reflexivity.
  - intros Hit. pose proof (get_absent _ (clock w) Hit) as Hg.
    split; [exact Hg|].
    rewrite loadUIConfig_refines. unfold Spec.load. rewrite Hg. reflexivity.
Qed.

(** ** The two paths, run *)

Lemma events_intro {A} (m : M A) (w : World) (evs : list Event) :
  trace (snd (m w)) = trace w ++ evs -> events m w = evs.
Proof. intros H. unfold events. rewrite H. apply drop_app_length. Qed.

Lemma on_hit_run (s : Snapshot) (w : World) :
  Spec.on_hit s w
  = (Ok tt,
     mkWorld (clock w) (storage w) ((apply_element s <$> document w))
             (Some s)
             (trace w ++ [EvGetItem CACHE_KEY; EvApply s;
                          EvDispatch "uiConfigLoaded" s])).
Proof. run_js. rewrite <- !app_assoc. reflexivity. Qed.

Lemma on_miss_failed (x : Exchange Snapshot) (w : World) :
  fetch_failed x = true ->
  Spec.on_miss x w
  = (Ok tt,
     mkWorld (clock w + latency x) (storage w) (document w) (uiConfig w)
             (trace w ++ [EvGetItem CACHE_KEY; GET_CONFIG]
                      ++ match reply x with
                         | NetworkError e =>
                             [EvWarn ("[UI Config] Could not load dynamic config: "
                                        +:+ Js.message e)]
                         | Response _ _ => []
                         end)).
Proof.
  unfold fetch_failed. intros Hf. run_js.
  destruct (reply x) as [e|ok body]; run_js.
  - rewrite <- !app_assoc. reflexivity.
  - destruct ok; [discriminate|]. run_js. rewrite <- !app_assoc. reflexivity.
Qed.

(** What a load does once the response is a success with body [S]: the
    write to the cache is attempted, and whatever becomes of it the
    snapshot is applied. *)
Lemma on_miss_fetched (x : Exchange Snapshot) (w : World) (S : Snapshot) :
  reply x = Response true (inr S) ->
  Spec.on_miss x w
  = (Ok tt,
     mkWorld (clock w + latency x)
             (if accessible (storage w) && negb (quota_exceeded (storage w))
              then mkStorage true false
                     (<[CACHE_KEY := mkEntry (clock w + latency x) S]>
                        (items (storage w)))
              else storage w)
             ((apply_element S <$> document w))
             (Some S)
             (trace w ++ [EvGetItem CACHE_KEY; GET_CONFIG;
                          EvSetItem CACHE_KEY (mkEntry (clock w + latency x) S);
                          EvApply S; EvDispatch "uiConfigLoaded" S])).
Proof.
  intros Hr. destruct w as [now [acc quota its] doc cfg tr].
  run_js. rewrite Hr. run_js.
  destruct acc; run_js; [destruct quota; run_js|];
    rewrite <- !app_assoc; reflexivity.
Qed.

(** A response whose body is not JSON ends in the handler. *)
Lemma on_miss_bad_body (x : Exchange Snapshot) (w : World) (e : Js.Error) :
  reply x = Response true (inl e) ->
  Spec.on_miss x w
  = (Ok tt,
     mkWorld (clock w + latency x) (storage w) (document w) (uiConfig w)
             (trace w ++ [EvGetItem CACHE_KEY; GET_CONFIG;
                          EvWarn ("[UI Config] Could not load dynamic config: "
                                    +:+ Js.message e)])).
Proof.
  intros Hr. run_js. rewrite Hr. run_js. rewrite <- !app_assoc. reflexivity.
Qed.

Lemma load_shape (x : Exchange Snapshot) (w : World) :
  LoadShape (events (loadUIConfig x) w).
Proof.
  unfold events. rewrite loadUIConfig_refines. unfold Spec.load.
  destruct (Spec.get (storage w) (clock w)) as [s|].
  - rewrite on_hit_run. cbn [snd trace]. rewrite drop_app_length. constructor.
  - destruct (reply x) as [e|ok [e|S]] eqn:Hr.
    + rewrite on_miss_failed by (unfold fetch_failed; rewrite Hr; reflexivity).
      rewrite Hr. cbn [snd trace]. rewrite drop_app_length. constructor.
    + destruct ok.
      * rewrite (on_miss_bad_body _ _ _ Hr). cbn [snd trace].
        rewrite drop_app_length. constructor.
      * rewrite on_miss_failed by (unfold fetch_failed; rewrite Hr; reflexivity).
        rewrite Hr. cbn [snd trace]. rewrite drop_app_length. constructor.
    + destruct ok.
      * rewrite (on_miss_fetched _ _ _ Hr). cbn [snd trace].
        rewrite drop_app_length. constructor.
      * rewrite on_miss_failed by (unfold fetch_failed; rewrite Hr; reflexivity).
        rewrite Hr. cbn [snd trace]. rewrite drop_app_length. constructor.
Qed.

Lemma on_miss_ok (x : Exchange Snapshot) (w : World) :
  fst (Spec.on_miss x w) = Ok tt.
Proof.
  destruct (reply x) as [e|ok [e|S]] eqn:Hr; [|destruct ok|destruct ok].
  - rewrite on_miss_failed; [reflexivity|]. unfold fetch_failed. rewrite Hr. reflexivity.
  - rewrite (on_miss_bad_body _ _ _ Hr). reflexivity.
  - rewrite on_miss_failed; [reflexivity|]. unfold fetch_failed. rewrite Hr. reflexivity.
  - rewrite (on_miss_fetched _ _ _ Hr). reflexivity.
  - rewrite on_miss_failed; [reflexivity|]. unfold fetch_failed. rewrite Hr. reflexivity.
Qed.

Lemma load_never_raises (x : Exchange Snapshot) (w : World) :
  fst (loadUIConfig x w) = Ok tt.
Proof.
  rewrite loadUIConfig_refines. unfold Spec.load.
  destruct (Spec.get (storage w) (clock w)).
  - rewrite on_hit_run. reflexivity.
  - apply on_miss_ok.
Qed.

(** A load fetches exactly when the cache yields nothing. *)
Lemma fetch_only_on_miss (x : Exchange Snapshot) (w : World) :
  GET_CONFIG ∈ events (loadUIConfig x) w ->
  Spec.get (storage w) (clock w) = None.
Proof.
  unfold events. rewrite loadUIConfig_refines. unfold Spec.load.
  destruct (Spec.get (storage w) (clock w)) as [s|]; [|reflexivity].
  rewrite on_hit_run. cbn [snd trace]. rewrite drop_app_length.
  rewrite !elem_of_cons, elem_of_nil. unfold GET_CONFIG.
  intros [H|[H|[H|[]]]]; discriminate H.
Qed.

(** C3. Silent read degradation.  In every load that goes to the store
    and whose fetch fails (the request is rejected or the status is not a
    success) no snapshot is applied, nothing is written to the cache, the
    load returns normally, and the document with all its display targets
    is as it was. *)
Theorem silent_read_degradation (x : Exchange Snapshot) (w : World) :
  GET_CONFIG ∈ events (loadUIConfig x) w ->
  fetch_failed x = true ->
  fst (loadUIConfig x w) = Ok tt /\
  document (snd (loadUIConfig x w)) = document w /\
  storage (snd (loadUIConfig x w)) = storage w /\
  uiConfig (snd (loadUIConfig x w)) = uiConfig w /\
  (forall c, EvApply c ∉ events (loadUIConfig x) w) /\
  (forall k e, EvSetItem k e ∉ events (loadUIConfig x) w).
Proof.
  intros Hfetch Hfail.
  pose proof (fetch_only_on_miss _ _ Hfetch) as Hmiss.
  unfold events. rewrite loadUIConfig_refines. unfold Spec.load.
  rewrite Hmiss, (on_miss_failed _ _ Hfail). cbn [fst snd document storage uiConfig trace].
  rewrite drop_app_length.
  repeat split.
  - intros c. destruct (reply x); cbn [app];
      rewrite !elem_of_cons, elem_of_nil; unfold GET_CONFIG; intuition discriminate.
  - intros k e. destruct (reply x); cbn [app];
      rewrite !elem_of_cons, elem_of_nil; unfold GET_CONFIG; intuition discriminate.
Qed.

(** C5. Storage-failure absorption.  Whatever the state of session
    storage, a load returns without raising.  When storage cannot be
    accessed the read counts as a miss: the load goes to the network,
    leaves storage alone and applies what it fetched.  When the quota is
    used up the write is a no-op: storage is left as it was and a
    fetched snapshot is applied all the same. *)
Theorem storage_failure_absorbed (x : Exchange Snapshot) (w : World) :
  fst (loadUIConfig x w) = Ok tt /\
  (accessible (storage w) = false ->
   loadUIConfig x w = Spec.on_miss x w /\
   GET_CONFIG ∈ events (loadUIConfig x) w /\
   storage (snd (loadUIConfig x w)) = storage w /\
   forall S, reply x = Response true (inr S) ->
             document (snd (loadUIConfig x w))
             = (apply_element S <$> document w)) /\
  (quota_exceeded (storage w) = true ->
   storage (snd (loadUIConfig x w)) = storage w /\
   forall S, Spec.get (storage w) (clock w) = None ->
             reply x = Response true (inr S) ->
             document (snd (loadUIConfig x w))
             = (apply_element S <$> document w)).
Proof.
  split; [apply load_never_raises|]. split.
  - intros Hacc.
    assert (Hload : loadUIConfig x w = Spec.on_miss x w).
    { rewrite loadUIConfig_refines. unfold Spec.load.
      rewrite (get_inaccessible _ _ Hacc). reflexivity. }
    split; [exact Hload|]. unfold events. rewrite Hload.
    destruct (reply x) as [e|ok [e|S]] eqn:Hr; [|destruct ok|destruct ok].
    + rewrite on_miss_failed by (unfold fetch_failed; rewrite Hr; reflexivity).
      cbn [snd trace storage document]. rewrite drop_app_length.
      repeat split; [set_solver|discriminate].
    + rewrite (on_miss_bad_body _ _ _ Hr).
      cbn [snd trace storage document]. rewrite drop_app_length.
      repeat split; [set_solver|discriminate].
    + rewrite on_miss_failed by (unfold fetch_failed; rewrite Hr; reflexivity).
      cbn [snd trace storage document]. rewrite drop_app_length.
      repeat split; [set_solver|discriminate].
    + rewrite (on_miss_fetched _ _ _ Hr).
      cbn [snd trace storage document]. rewrite drop_app_length, Hacc.
      repeat split; [set_solver|]. intros S' HS'. congruence.
    + rewrite on_miss_failed by (unfold fetch_failed; rewrite Hr; reflexivity).
      cbn [snd trace storage document]. rewrite drop_app_length.
      repeat split; [set_solver|discriminate].
  - intros Hq. rewrite loadUIConfig_refines. unfold Spec.load.
    destruct (Spec.get (storage w) (clock w)) as [s|].
    + rewrite on_hit_run. split; [reflexivity|discriminate].
    + destruct (reply x) as [e|ok [e|S]] eqn:Hr; [|destruct ok|destruct ok].
      * rewrite on_miss_failed by (unfold fetch_failed; rewrite Hr; reflexivity).
        split; [reflexivity|discriminate].
      * rewrite (on_miss_bad_body _ _ _ Hr). split; [reflexivity|discriminate].
      * rewrite on_miss_failed by (unfold fetch_failed; rewrite Hr; reflexivity).
        split; [reflexivity|discriminate].
      * rewrite (on_miss_fetched _ _ _ Hr). cbn [snd storage document].
        rewrite Hq, andb_false_r. split; [reflexivity|].
        intros S' _ HS'. congruence.
      * rewrite on_miss_failed by (unfold fetch_failed; rewrite Hr; reflexivity).
        split; [reflexivity|discriminate].
Qed.

(** Splits an equation [known = pre ++ e :: post] over the positions of
    [e] in the known list. *)
Ltac find_position pre :=
  repeat (destruct pre as [|? pre]; simplify_eq/=).

(** Refutes a membership [H : e ∈ [e1; ...; en]] in which [e] has another
    constructor than every [ei]. *)
Ltac absent_from H :=
  exfalso;
  repeat (apply elem_of_cons in H; destruct H as [H|H]; [discriminate H|]);
  apply elem_of_nil in H; exact H.

(** C7. Intra-load ordering.  Among the calls of one load, every network
    fetch comes after the read of the cache, and an application of a
    snapshot that follows the fetch comes after the write of that very
    snapshot to the cache; with storage that takes the write, the cache
    then holds exactly the snapshot that is applied. *)
Theorem intra_load_ordering (x : Exchange Snapshot) (w : World) :
  (forall pre post method url body,
      events (loadUIConfig x) w = pre ++ EvFetch method url body :: post ->
      EvGetItem CACHE_KEY ∈ pre) /\
  (forall pre post c,
      events (loadUIConfig x) w = pre ++ EvApply c :: post ->
      GET_CONFIG ∈ pre ->
      exists pre1 pre2 t,
        pre = pre1 ++ EvSetItem CACHE_KEY (mkEntry t c) :: pre2 /\
        GET_CONFIG ∈ pre1) /\
  (forall c,
      EvApply c ∈ events (loadUIConfig x) w ->
      GET_CONFIG ∈ events (loadUIConfig x) w ->
      accessible (storage w) = true ->
      quota_exceeded (storage w) = false ->
      data <$> items (storage (snd (loadUIConfig x w))) !! CACHE_KEY = Some c).
Proof.
  split; [|split].
  - intros pre post method url body Heq.
    pose proof (load_shape x w) as Hs. rewrite Heq in Hs. clear Heq.
    remember (pre ++ EvFetch method url body :: post) as evs eqn:Hevs.
    destruct Hs; find_position pre; set_solver.
  - intros pre post c Heq Hin.
    pose proof (load_shape x w) as Hs. rewrite Heq in Hs. clear Heq.
    remember (pre ++ EvApply c :: post) as evs eqn:Hevs.
    destruct Hs; find_position pre;
      try (unfold GET_CONFIG in Hin; absent_from Hin).
    exists [EvGetItem CACHE_KEY; GET_CONFIG], []. eexists.
    split; [reflexivity|]. apply list_elem_of_further, list_elem_of_here.
  - intros c Happ Hfetch Hacc Hq.
    pose proof (fetch_only_on_miss _ _ Hfetch) as Hmiss.
    revert Happ. unfold events. rewrite loadUIConfig_refines. unfold Spec.load.
    rewrite Hmiss.
    destruct (reply x) as [e|ok [e|S]] eqn:Hr; [|destruct ok|destruct ok].
    + rewrite on_miss_failed by (unfold fetch_failed; rewrite Hr; reflexivity).
      cbn [snd trace]. rewrite drop_app_length, Hr. cbn [app].
      rewrite !elem_of_cons, elem_of_nil. unfold GET_CONFIG. intuition discriminate.
    + rewrite (on_miss_bad_body _ _ _ Hr).
      cbn [snd trace]. rewrite drop_app_length.
      rewrite !elem_of_cons, elem_of_nil. unfold GET_CONFIG. intuition discriminate.
    + rewrite on_miss_failed by (unfold fetch_failed; rewrite Hr; reflexivity).
      cbn [snd trace]. rewrite drop_app_length, Hr. cbn [app].
      rewrite !elem_of_cons, elem_of_nil. unfold GET_CONFIG. intuition discriminate.
    + rewrite (on_miss_fetched _ _ _ Hr).
      cbn [snd trace storage]. rewrite drop_app_length, Hacc, Hq.
      cbn [andb negb items]. rewrite lookup_insert_eq. cbn.
      rewrite !elem_of_cons, elem_of_nil. unfold GET_CONFIG.
      intros [H|[H|[H|[H|[H|[]]]]]]; try discriminate H. congruence.
    + rewrite on_miss_failed by (unfold fetch_failed; rewrite Hr; reflexivity).
      cbn [snd trace]. rewrite drop_app_length, Hr. cbn [app].
      rewrite !elem_of_cons, elem_of_nil. unfold GET_CONFIG. intuition discriminate.
Qed.

(** ** The loader at the sample page *)

Example first_visit_calls :
  events (loadUIConfig Samples.served) (Samples.world 0 Samples.empty_storage)
  = [EvGetItem CACHE_KEY; GET_CONFIG;
     EvSetItem CACHE_KEY (mkEntry 40 Samples.snapshot);
     EvApply Samples.snapshot; EvDispatch "uiConfigLoaded" Samples.snapshot].
Proof. reflexivity. Qed.

Example cached_visit_calls :
  events (loadUIConfig Samples.served) (Samples.world 2000 Samples.cached_storage)
  = [EvGetItem CACHE_KEY; EvApply Samples.snapshot;
     EvDispatch "uiConfigLoaded" Samples.snapshot].
Proof. reflexivity. Qed.

Example refused_visit_calls :
  events (loadUIConfig Samples.refused) (Samples.world 0 Samples.empty_storage)
  = [EvGetItem CACHE_KEY; GET_CONFIG].
Proof. reflexivity. Qed.

Example offline_visit_calls :
  events (loadUIConfig Samples.offline) (Samples.world 0 Samples.disabled_storage)
  = [EvGetItem CACHE_KEY; GET_CONFIG;
     EvWarn "[UI Config] Could not load dynamic config: Failed to fetch"].
Proof. reflexivity. Qed.

(** An entry cached at time 1000 is served at 60 999 and passed over at
    61 000. *)
Lemma cache_freshness_witness :
  loadUIConfig Samples.served (Samples.world 60999 Samples.cached_storage)
  = Spec.on_hit Samples.snapshot (Samples.world 60999 Samples.cached_storage) /\
  loadUIConfig Samples.served (Samples.world 61000 Samples.cached_storage)
  = Spec.on_miss Samples.served (Samples.world 61000 Samples.cached_storage).
Proof.
  split.
  - destruct (cache_freshness Samples.served
                (Samples.world 60999 Samples.cached_storage)) as (_ & _ & H & _).
    refine (proj2 (proj1 (H 1000%Z Samples.snapshot _ _) _)).
    + reflexivity.
    + apply lookup_insert_eq.
    + cbn. lia.
  - destruct (cache_freshness Samples.served
                (Samples.world 61000 Samples.cached_storage)) as (_ & _ & H & _).
    refine (proj2 (proj2 (H 1000%Z Samples.snapshot _ _) _)).
    + reflexivity.
    + apply lookup_insert_eq.
    + cbn. lia.
Defined.

(** Offline, with nothing cached: the page stays as it is. *)
Lemma silent_read_degradation_witness :
  fst (loadUIConfig Samples.offline (Samples.world 0 Samples.empty_storage)) = Ok tt /\
  document (snd (loadUIConfig Samples.offline (Samples.world 0 Samples.empty_storage)))
  = Samples.page /\
  storage (snd (loadUIConfig Samples.offline (Samples.world 0 Samples.empty_storage)))
  = Samples.empty_storage.
Proof.
  destruct (silent_read_degradation Samples.offline
              (Samples.world 0 Samples.empty_storage))
    as (Hok & Hdoc & Hst & _).
  - apply (bool_decide_unpack _). vm_compute. exact I.
  - reflexivity.
  - exact (conj Hok (conj Hdoc Hst)).
Defined.

(** With storage disabled the load still fetches and applies. *)
Lemma storage_failure_absorbed_witness :
  fst (loadUIConfig Samples.served (Samples.world 0 Samples.disabled_storage)) = Ok tt /\
  document (snd (loadUIConfig Samples.served (Samples.world 0 Samples.disabled_storage)))
  = apply_element Samples.snapshot <$> Samples.page /\
  storage (snd (loadUIConfig Samples.served (Samples.world 0 Samples.full_storage)))
  = Samples.full_storage.
Proof.
  destruct (storage_failure_absorbed Samples.served
              (Samples.world 0 Samples.disabled_storage)) as (Hok & Hoff & _).
  destruct (Hoff eq_refl) as (_ & _ & _ & Hdoc).
  destruct (storage_failure_absorbed Samples.served
              (Samples.world 0 Samples.full_storage)) as (_ & _ & Hfull).
  destruct (Hfull eq_refl) as (Hst & _).
  exact (conj Hok (conj (Hdoc Samples.snapshot eq_refl) Hst)).
Defined.

(** On the fetching path the write to the cache sits between the fetch
    and the application. *)
Lemma intra_load_ordering_witness :
  exists pre1 pre2 t,
    [EvGetItem CACHE_KEY; GET_CONFIG;
     EvSetItem CACHE_KEY (mkEntry 40 Samples.snapshot)]
    = pre1 ++ EvSetItem CACHE_KEY (mkEntry t Samples.snapshot) :: pre2 /\
    GET_CONFIG ∈ pre1.
Proof.
  destruct (intra_load_ordering Samples.served
              (Samples.world 0 Samples.empty_storage)) as (_ & Hput & _).
  apply (Hput [EvGetItem CACHE_KEY; GET_CONFIG;
               EvSetItem CACHE_KEY (mkEntry 40 Samples.snapshot)]
              [EvDispatch "uiConfigLoaded" Samples.snapshot]
              Samples.snapshot).
  - reflexivity.
  - apply list_elem_of_further, list_elem_of_here.
Defined.

End LoaderProps.

(* ===================================================================== *)
(** * Properties of the applier                                           *)
(* ===================================================================== *)

Module ApplierProps.
Import Runtime UiConfig Obs.

Lemma applyConfig_run (config : Snapshot) (w : World) :
  applyConfig config w
  = (Ok tt,
     mkWorld (clock w) (storage w) ((apply_element config <$> document w))
             (Some config)
             (trace w ++ [EvApply config; EvDispatch "uiConfigLoaded" config])).
Proof. LoaderProps.run_js. rewrite <- !app_assoc. reflexivity. Qed.

(** Every element of the document is visited, in place. *)
Lemma applyConfig_lookup (config : Snapshot) (w : World) (i : nat) (el : Dom.Element) :
  document w !! i = Some el ->
  document (snd (applyConfig config w)) !! i = Some (apply_element config el).
Proof.
  intros Hel. rewrite applyConfig_run. cbn [snd document].
  rewrite list_lookup_fmap, Hel. reflexivity.
Qed.

(** The dispatch of [applyConfig], by mode. *)
Lemma apply_element_present (config : Snapshot) (el : Dom.Element) (k v : string) :
  Dom.uiKey el = Some k ->
  config !! k = Some (Js.Str v) ->
  apply_element config el
  = match application_mode el with
    | Image => Dom.setAttribute_loading "lazy" (Dom.set_src v el)
    | Placeholder => Dom.set_placeholder v el
    | RawHtml => Dom.set_innerHTML v el
    | Text => Dom.set_textContent v el
    end.
Proof.
  intros Hk Hv. unfold apply_element, application_mode. rewrite Hk, Hv.
  destruct (String.eqb (Dom.tagName el) "IMG"); [reflexivity|].
  destruct (String.eqb (Dom.tagName el) "INPUT"
            && negb (String.eqb (Dom.type el) "submit")); [reflexivity|].
  destruct (bool_decide (Dom.uiTarget el = Some "html")); reflexivity.
Qed.

(** C4. Type-aware application.  For every display target of the
    document whose key holds a string in the snapshot, [applyConfig]
    writes that string where the target's mode says: an image target
    gets it as its image source, a placeholder target as its placeholder
    attribute, a raw-html target as its content parsed as markup, and a
    text target as its text content, verbatim and with no other property
    of the element changed. *)
Theorem type_aware_application
        (config : Snapshot) (w : World) (i : nat) (el : Dom.Element) (k v : string) :
  document w !! i = Some el ->
  Dom.uiKey el = Some k ->
  config !! k = Some (Js.Str v) ->
  exists el',
    document (snd (applyConfig config w)) !! i = Some el' /\
    match application_mode el with
    | Image => Dom.src el' = Some v
    | Placeholder => Dom.placeholder el' = Some v
    | RawHtml => Dom.content el' = Dom.InnerHTML v
    | Text =>
        Dom.content el' = Dom.TextContent v /\
        Dom.src el' = Dom.src el /\
        Dom.loading el' = Dom.loading el /\
        Dom.placeholder el' = Dom.placeholder el /\
        Dom.value el' = Dom.value el
    end.
Proof.
  intros Hel Hk Hv. exists (apply_element config el).
  split; [apply applyConfig_lookup, Hel|].
  rewrite (apply_element_present _ _ _ _ Hk Hv).
  destruct (application_mode el); cbn; auto.
Qed.

(** C9. The extra effect of the image mode.  An [IMG] target whose key
    holds a string in the snapshot comes out of [applyConfig] with two
    attributes written, [src] with the value and [loading] with
    ["lazy"], and nothing else changed; an element that is not an [IMG]
    keeps its [loading] attribute whatever the snapshot holds. *)
Theorem image_mode_sets_loading
        (config : Snapshot) (w : World) (i : nat) (el : Dom.Element) :
  document w !! i = Some el ->
  exists el',
    document (snd (applyConfig config w)) !! i = Some el' /\
    (forall k v,
        Dom.tagName el = "IMG" ->
        Dom.uiKey el = Some k ->
        config !! k = Some (Js.Str v) ->
        Dom.src el' = Some v /\
        Dom.loading el' = Some "lazy" /\
        Dom.placeholder el' = Dom.placeholder el /\
        Dom.content el' = Dom.content el /\
        Dom.value el' = Dom.value el) /\
    (Dom.tagName el <> "IMG" -> Dom.loading el' = Dom.loading el).
Proof.
  intros Hel. exists (apply_element config el).
  split; [apply applyConfig_lookup, Hel|]. split.
  - intros k v Himg Hk Hv. rewrite (apply_element_present _ _ _ _ Hk Hv).
    unfold application_mode. rewrite Himg. cbn. auto.
  - intros Hnot. unfold apply_element.
    destruct (Dom.uiKey el) as [k|]; [|reflexivity].
    destruct (config !! k) as [[|v]|]; try reflexivity.
    destruct (String.eqb_spec (Dom.tagName el) "IMG") as [Heq|_]; [contradiction|].
    destruct (String.eqb (Dom.tagName el) "INPUT"
              && negb (String.eqb (Dom.type el) "submit")); [reflexivity|].
    destruct (bool_decide (Dom.uiTarget el = Some "html")); reflexivity.
Qed.

(** ** The theorems at the sample page *)

(** The snapshot [{greeting: "Hi", ...}] on the text target bound to
    [greeting]: its text becomes exactly ["Hi"]. *)
Lemma type_aware_application_witness :
  exists el',
    document (snd (applyConfig Samples.snapshot
                     (Samples.world 0 Samples.empty_storage))) !! 0%nat
    = Some el' /\
    Dom.content el' = Dom.TextContent "Hi" /\
    Dom.src el' = None /\
    Dom.loading el' = None /\
    Dom.placeholder el' = None /\
    Dom.value el' = None.
Proof.
  apply (type_aware_application Samples.snapshot
           (Samples.world 0 Samples.empty_storage) 0 Samples.greeting
           "greeting" "Hi"); reflexivity.
Defined.

(** The raw-html target bound to [promo] renders exactly the markup. *)
Example raw_html_renders_markup :
  Dom.content <$>
    document (snd (applyConfig Samples.snapshot
                     (Samples.world 0 Samples.empty_storage))) !! 1%nat
  = Some (Dom.InnerHTML "<b>Hi</b>").
Proof. reflexivity. Qed.

(** The logo comes out with its source and with [loading="lazy"]. *)
Lemma image_mode_sets_loading_witness :
  exists el',
    document (snd (applyConfig Samples.snapshot
                     (Samples.world 0 Samples.empty_storage))) !! 2%nat
    = Some el' /\
    Dom.src el' = Some "/img/logo.png" /\
    Dom.loading el' = Some "lazy".
Proof.
  destruct (image_mode_sets_loading Samples.snapshot
              (Samples.world 0 Samples.empty_storage) 2 Samples.logo eq_refl)
    as (el' & Hel & Himg & _).
  exists el'. split; [exact Hel|].
  destruct (Himg "logo" "/img/logo.png" eq_refl eq_refl eq_refl)
    as (Hsrc & Hload & _).
  exact (conj Hsrc Hload).
Defined.

End ApplierProps.

(* ===================================================================== *)
(** * Properties of the admin editor                                      *)
(* ===================================================================== *)

Module AdminProps.
Import Runtime Admin Obs.

Ltac run_admin :=
  unfold saveUIAsset, saveAllUIAssets, adminApi_put, adminApi_get,
         adminApi_request, showAdminToast;
  LoaderProps.run_js.

(** ** Requests *)

Lemma request_rejected (method url : string) (body : Body)
      (x : Exchange AdminData) (w : World) (e : Js.Error) :
  request_error x = Some e ->
  adminApi_request method url body x w
  = (Throw e,
     mkWorld (clock w + latency x) (storage w) (document w) (uiConfig w)
             (trace w ++ [EvFetch method url body])).
Proof.
  unfold request_error. intros He. run_admin.
  destruct (reply x) as [e'|ok [e'|d]]; run_admin.
  - injection He as ->. reflexivity.
  - destruct ok; injection He as ->; reflexivity.
  - destruct ok; [discriminate|]. injection He as <-. reflexivity.
Qed.

Lemma request_resolved (method url : string) (body : Body)
      (x : Exchange AdminData) (w : World) :
  request_error x = None ->
  exists d,
    adminApi_request method url body x w
    = (Ok d,
       mkWorld (clock w + latency x) (storage w) (document w) (uiConfig w)
               (trace w ++ [EvFetch method url body])).
Proof.
  unfold request_error. intros He. run_admin.
  destruct (reply x) as [e'|[] [e'|d]]; try discriminate.
  exists d. reflexivity.
Qed.

(** The block shared by the two saves: write, notify, invalidate; any
    exception ends in a failure notification. *)
Lemma save_block_failed (url text : string) (body : Body)
      (x : Exchange AdminData) (w : World) (e : Js.Error) :
  request_error x = Some e ->
  try_catch
    (do _ <- adminApi_put url body x;
     do _ <- showAdminToast text false;
     removeItem "em_ui_config")
    (fun e => showAdminToast (Js.message e) true) w
  = (Ok tt,
     mkWorld (clock w + latency x) (storage w) (document w) (uiConfig w)
             (trace w ++ [EvFetch "PUT" url body; EvToast (Js.message e) true])).
Proof.
  intros He. unfold try_catch at 1, bind at 1, adminApi_put.
  rewrite (request_rejected _ _ _ _ _ _ He).
  unfold showAdminToast. LoaderProps.run_js.
  rewrite <- !app_assoc. reflexivity.
Qed.

Lemma save_block_saved (url text : string) (body : Body)
      (x : Exchange AdminData) (w : World) :
  request_error x = None ->
  try_catch
    (do _ <- adminApi_put url body x;
     do _ <- showAdminToast text false;
     removeItem "em_ui_config")
    (fun e => showAdminToast (Js.message e) true) w
  = (Ok tt,
     mkWorld (clock w + latency x)
             (if accessible (storage w)
              then mkStorage true (quota_exceeded (storage w))
                             (delete "em_ui_config" (items (storage w)))
              else storage w)
             (document w) (uiConfig w)
             (trace w ++ [EvFetch "PUT" url body; EvToast text false;
                          EvRemoveItem "em_ui_config"]
                      ++ if accessible (storage w) then []
                         else [EvToast (Js.message Js.SecurityError) true])).
Proof.
  intros He. unfold try_catch at 1, bind at 1, adminApi_put.
  destruct (request_resolved "PUT" url body x w He) as [d ->].
  destruct w as [now [acc quota its] doc cfg tr].
  unfold showAdminToast. LoaderProps.run_js.
  destruct acc; LoaderProps.run_js; rewrite <- !app_assoc; reflexivity.
Qed.

Lemma save_block_contract (m : M unit) (url text : string) (body : Body)
      (x : Exchange AdminData) (w : World) :
  m w = try_catch
          (do _ <- adminApi_put url body x;
           do _ <- showAdminToast text false;
           removeItem "em_ui_config")
          (fun e => showAdminToast (Js.message e) true) w ->
  SaveContract m x w.
Proof.
  intros Hm. split.
  - intros He. unfold events. rewrite Hm, (save_block_saved _ _ _ _ _ He).
    cbn [snd trace storage]. rewrite drop_app_length.
    assert (Hget : forall now,
               Spec.get (if accessible (storage w)
                         then mkStorage true (quota_exceeded (storage w))
                                (delete "em_ui_config" (items (storage w)))
                         else storage w) now = None).
    { intros now. destruct (accessible (storage w)) eqn:Hacc.
      - apply LoaderProps.get_absent. cbn [items]. apply lookup_delete_eq.
      - apply LoaderProps.get_inaccessible, Hacc. }
    split; [|split; [|split]].
    + destruct (accessible (storage w)); cbn [app];
        rewrite !count_occ_cons_neq by discriminate;
        rewrite count_occ_cons_eq by reflexivity;
        rewrite ?count_occ_cons_neq by discriminate; reflexivity.
    + exists text. apply list_elem_of_further, list_elem_of_here.
    + exact Hget.
    + intros x' w' Hst. rewrite LoaderProps.loadUIConfig_refines.
      unfold Spec.load. rewrite Hst, Hget. reflexivity.
  - intros e He. unfold events. rewrite Hm, (save_block_failed _ _ _ _ _ _ He).
    cbn [snd trace storage]. rewrite drop_app_length.
    split; [|split; [|split]].
    + apply list_elem_of_further, list_elem_of_here.
    + intros t Hin. LoaderProps.absent_from Hin.
    + intros k Hin. LoaderProps.absent_from Hin.
    + reflexivity.
Qed.

(** C2. The save and invalidate contract.  [saveUIAsset], whenever it
    finds the input and so issues its write, and [saveAllUIAssets] both
    keep the contract of a save: a write that succeeds is followed by
    one removal of the cache entry and a success notification, after
    which no load can be served from the cache; a write that fails is
    followed by a failure notification and leaves storage as it was. *)
Theorem save_invalidates_cache (x : Exchange AdminData) (w : World) :
  (forall key input,
      Dom.getElementById ("uia-" +:+ key) (document w) = Some input ->
      SaveContract (saveUIAsset key x) x w) /\
  SaveContract (saveAllUIAssets x) x w.
Proof.
  split.
  - intros key input Hin.
    apply (save_block_contract _ ("/admin/ui-assets/" +:+ key)
                               "Saved! Refresh page to see changes."
                               (ValueBody (Dom.value input))).
    unfold saveUIAsset, bind at 1, get_document. rewrite Hin. reflexivity.
  - apply (save_block_contract _ "/admin/ui-assets"
             ("Saved " +:+ pretty (length (collect_updates (document w)))
                       +:+ " UI assets! Refresh page to see changes.")
             (UpdatesBody (collect_updates (document w)))).
    reflexivity.
Qed.

(** ** The batch of [saveAllUIAssets] *)

Lemma replace_prefix (pat s : string) :
  String.prefix pat s = true ->
  Js.replace pat "" s = Js.drop_chars (String.length pat) s.
Proof.
  intros Hp. destruct s; cbn [Js.replace]; rewrite Hp; reflexivity.
Qed.

Lemma derived_key_replace (el : Dom.Element) :
  Dom.has_id_prefix "uia-" el = true ->
  Js.replace "uia-" "" (default "" (Dom.id el)) = derived_key el.
Proof.
  unfold Dom.has_id_prefix, derived_key.
  destruct (Dom.id el) as [i|]; [|discriminate].
  intros Hp. cbn [default]. apply (replace_prefix "uia-" i Hp).
Qed.

Lemma collect_fold (els : list Dom.Element) (acc : list Update) :
  Forall (fun el => Dom.has_id_prefix "uia-" el = true) els ->
  fold_left collect_update els acc
  = acc ++ List.map (fun el => mkUpdate (derived_key el) (Dom.value el))
                    (List.filter
                       (fun el => negb (Js.includes "preview" (derived_key el)))
                       els).
Proof.
  intros Hall. revert acc.
  induction Hall as [|el els Hel _ IH]; intros acc; cbn [fold_left List.filter List.map].
  - rewrite app_nil_r. reflexivity.
  - rewrite IH. unfold collect_update at 1. rewrite (derived_key_replace _ Hel).
    destruct (Js.includes "preview" (derived_key el)); cbn [negb List.map].
    + reflexivity.
    + rewrite <- app_assoc. reflexivity.
Qed.

Lemma filter_filter {A} (f g : A -> bool) (l : list A) :
  List.filter f (List.filter g l) = List.filter (fun a => g a && f a) l.
Proof.
  induction l as [|a l IH]; [reflexivity|]. cbn [List.filter].
  destruct (g a); cbn [andb List.filter]; [destruct (f a)|]; congruence.
Qed.

Lemma collect_updates_spec (doc : Dom.Document) :
  collect_updates doc
  = List.map (fun el => mkUpdate (derived_key el) (Dom.value el))
             (List.filter
                (fun el => Dom.has_id_prefix "uia-" el
                           && negb (Js.includes "preview" (derived_key el)))
                doc).
Proof.
  unfold collect_updates. rewrite collect_fold.
  - rewrite filter_filter. reflexivity.
  - apply List.Forall_forall. intros el Hin.
    apply List.filter_In in Hin. apply Hin.
Qed.

(** C10. Key filtering of the batch save.  The batch holds one update,
    under the id less its [uia-] prefix and with the element's value, for
    every element of the document whose id starts with [uia-], except
    those whose derived key contains [preview], which are dropped without
    notice: no update in the batch has such a key.  That batch is what is
    sent, and on success the notification reports its length. *)
Theorem batch_save_key_filtering (x : Exchange AdminData) (w : World) :
  collect_updates (document w)
  = List.map (fun el => mkUpdate (derived_key el) (Dom.value el))
             (List.filter
                (fun el => Dom.has_id_prefix "uia-" el
                           && negb (Js.includes "preview" (derived_key el)))
                (document w)) /\
  (forall u, In u (collect_updates (document w)) ->
             Js.includes "preview" (u_key u) = false) /\
  (forall key, Js.includes "preview" key = true ->
               forall v, ~ In (mkUpdate key v) (collect_updates (document w))) /\
  (exists rest,
      events (saveAllUIAssets x) w
      = EvFetch "PUT" "/admin/ui-assets"
                (UpdatesBody (collect_updates (document w))) :: rest) /\
  (request_error x = None ->
   EvToast ("Saved " +:+ pretty (length (collect_updates (document w)))
                     +:+ " UI assets! Refresh page to see changes.") false
   ∈ events (saveAllUIAssets x) w).
Proof.
  assert (Hdrop : forall u, In u (collect_updates (document w)) ->
                            Js.includes "preview" (u_key u) = false).
  { intros u. rewrite collect_updates_spec. intros Hin.
    apply List.in_map_iff in Hin. destruct Hin as (el & <- & Hel).
    apply List.filter_In in Hel. destruct Hel as [_ Hkeep].
    apply andb_prop in Hkeep. destruct Hkeep as [_ Hkeep].
    cbn [u_key]. destruct (Js.includes "preview" (derived_key el));
      [discriminate|reflexivity]. }
  assert (Hrun : saveAllUIAssets x w
                 = try_catch
                     (do _ <- adminApi_put "/admin/ui-assets"
                                (UpdatesBody (collect_updates (document w))) x;
                      do _ <- showAdminToast
                                ("Saved " +:+ pretty (length (collect_updates (document w)))
                                          +:+ " UI assets! Refresh page to see changes.")
                                false;
                      removeItem "em_ui_config")
                     (fun e => showAdminToast (Js.message e) true) w)
    by reflexivity.
  split; [apply collect_updates_spec|].
  split; [exact Hdrop|].
  split.
  { intros key Hkey v Hin. apply Hdrop in Hin. cbn [u_key] in Hin. congruence. }
  unfold events. rewrite Hrun.
  destruct (request_error x) as [e|] eqn:He.
  - rewrite (save_block_failed _ _ _ _ _ _ He). cbn [snd trace].
    rewrite drop_app_length. split; [eexists; reflexivity|discriminate].
  - rewrite (save_block_saved _ _ _ _ _ He). cbn [snd trace].
    rewrite drop_app_length. split; [eexists; reflexivity|].
    intros _. apply list_elem_of_further, list_elem_of_here.
Qed.

(** ** Grouping by section *)

Example array_index_examples :
  JsObject.array_index "0" = Some 0%N /\
  JsObject.array_index "10" = Some 10%N /\
  JsObject.array_index "01" = None /\
  JsObject.array_index "hero" = None /\
  JsObject.array_index "4294967294" = Some 4294967294%N /\
  JsObject.array_index "4294967295" = None.
Proof. repeat split; reflexivity. Qed.

Lemma keys_set {V} (k : string) (v : V) (o : JsObject.Obj V) :
  map fst (JsObject.set k v o)
  = match JsObject.get k o with
    | Some _ => map fst o
    | None => map fst o ++ [k]
    end.
Proof.
  induction o as [|[k' v'] o IH]; [reflexivity|].
  cbn [JsObject.set JsObject.get].
  destruct (String.eqb k' k); [reflexivity|].
  cbn [map fst]. rewrite IH. destruct (JsObject.get k o); reflexivity.
Qed.

Lemma get_set_eq {V} (k : string) (v : V) (o : JsObject.Obj V) :
  JsObject.get k (JsObject.set k v o) = Some v.
Proof.
  induction o as [|[k' v'] o IH]; cbn [JsObject.set JsObject.get].
  - rewrite String.eqb_refl. reflexivity.
  - destruct (String.eqb k' k) eqn:Hk; cbn [JsObject.get]; rewrite Hk; auto.
Qed.

Lemma get_set_ne {V} (k k' : string) (v : V) (o : JsObject.Obj V) :
  k <> k' ->
  JsObject.get k' (JsObject.set k v o) = JsObject.get k' o.
Proof.
  intros Hne. induction o as [|[k0 v0] o IH]; cbn [JsObject.set JsObject.get].
  - destruct (String.eqb_spec k k'); [contradiction|reflexivity].
  - destruct (String.eqb_spec k0 k) as [->|_]; cbn [JsObject.get].
    + destruct (String.eqb_spec k k'); [contradiction|reflexivity].
    + rewrite IH. reflexivity.
Qed.

Lemma keys_group_asset (g : JsObject.Obj (list Asset)) (a : Asset) :
  map fst (group_asset g a)
  = match JsObject.get (section a) g with
    | Some _ => map fst g
    | None => map fst g ++ [section a]
    end.
Proof.
  unfold group_asset. destruct (JsObject.get (section a) g) as [arr|] eqn:Hg.
  - rewrite Hg, keys_set, Hg. reflexivity.
  - rewrite get_set_eq, keys_set, get_set_eq, keys_set, Hg. reflexivity.
Qed.

Lemma get_group_asset (g : JsObject.Obj (list Asset)) (a : Asset) (s : string) :
  JsObject.get s (group_asset g a)
  = if String.eqb (section a) s
    then Some (default [] (JsObject.get (section a) g) ++ [a])
    else JsObject.get s g.
Proof.
  unfold group_asset. destruct (String.eqb_spec (section a) s) as [<-|Hne].
  - destruct (JsObject.get (section a) g) as [arr|] eqn:Hg.
    + rewrite Hg, get_set_eq. reflexivity.
    + rewrite !get_set_eq. reflexivity.
  - destruct (JsObject.get (section a) g) as [arr|] eqn:Hg.
    + rewrite Hg, get_set_ne by exact Hne. reflexivity.
    + rewrite get_set_eq, !get_set_ne by exact Hne. reflexivity.
Qed.

Lemma filter_snoc {A} (f : A -> bool) (l : list A) (x : A) :
  List.filter f (l ++ [x]) = List.filter f l ++ (if f x then [x] else []).
Proof. rewrite List.filter_app. reflexivity. Qed.

Lemma first_occurrences_In (l : list string) (x : string) :
  In x (first_occurrences l) <-> In x l.
Proof.
  induction l as [|y l IH]; [reflexivity|]. cbn [first_occurrences In].
  rewrite List.filter_In, IH. split.
  - intros [H|[H _]]; auto.
  - intros [H|H]; [auto|].
    destruct (String.eqb_spec y x); [auto|]. right. split; [exact H|reflexivity].
Qed.

Lemma first_occurrences_snoc (l : list string) (x : string) :
  first_occurrences (l ++ [x])
  = if bool_decide (x ∈ l) then first_occurrences l
    else first_occurrences l ++ [x].
Proof.
  induction l as [|y l IH]; [reflexivity|].
  cbn [app first_occurrences]. rewrite IH.
  destruct (String.eqb_spec y x) as [->|Hne].
  - rewrite (bool_decide_eq_true_2 (x ∈ x :: l)) by apply list_elem_of_here.
    case_bool_decide; [reflexivity|].
    rewrite filter_snoc, String.eqb_refl, app_nil_r. reflexivity.
  - case_bool_decide as Hin.
    + rewrite (bool_decide_eq_true_2 (x ∈ y :: l))
        by (apply list_elem_of_further, Hin).
      reflexivity.
    + rewrite (bool_decide_eq_false_2 (x ∈ y :: l))
        by (rewrite elem_of_cons; intros [H|H]; auto).
      rewrite filter_snoc.
      destruct (String.eqb_spec y x); [contradiction|]. reflexivity.
Qed.

Lemma in_section_snoc (s : string) (l : list Asset) (a : Asset) :
  in_section s (l ++ [a])
  = in_section s l ++ (if String.eqb (section a) s then [a] else []).
Proof. unfold in_section. rewrite filter_snoc. reflexivity. Qed.

Lemma in_section_none (s : string) (l : list Asset) :
  s ∉ map section l -> in_section s l = [].
Proof.
  induction l as [|a l IH]; [reflexivity|]. cbn [map]. rewrite not_elem_of_cons.
  intros [Hne Hnin]. unfold in_section. cbn [List.filter].
  destruct (String.eqb_spec (section a) s) as [Heq|_]; [congruence|].
  apply IH, Hnin.
Qed.

Lemma group_snoc (l : list Asset) (a : Asset) :
  group_by_section (l ++ [a]) = group_asset (group_by_section l) a.
Proof. unfold group_by_section. apply fold_left_app. Qed.

(** What [grouped] holds once the list has been walked: its keys are the
    sections in order of first occurrence, and under each section sit
    the assets of that section in the order of the list. *)
Lemma group_invariant (l : list Asset) :
  map fst (group_by_section l) = first_occurrences (map section l) /\
  forall s, JsObject.get s (group_by_section l)
            = if bool_decide (s ∈ map section l)
              then Some (in_section s l) else None.
Proof.
  induction l as [|a l [IHk IHg]] using rev_ind.
  - split; [reflexivity|]. intros s. reflexivity.
  - rewrite group_snoc, List.map_app. cbn [map]. split.
    + rewrite keys_group_asset, IHg, first_occurrences_snoc, IHk.
      case_bool_decide; reflexivity.
    + intros s. rewrite get_group_asset, in_section_snoc.
      destruct (String.eqb_spec (section a) s) as [<-|Hne].
      * rewrite bool_decide_eq_true_2
          by (apply elem_of_app; right; apply list_elem_of_here).
        rewrite IHg. case_bool_decide as Hin; cbn [default]; [reflexivity|].
        rewrite (in_section_none _ _ Hin). reflexivity.
      * rewrite IHg, app_nil_r.
        apply (f_equal (fun b : bool => if b then Some (in_section s l) else None)).
        apply bool_decide_ext. rewrite elem_of_app, list_elem_of_singleton.
        intuition congruence.
Qed.

Lemma omap_all_some {A B} (f : A -> option B) (g : A -> B) (l : list A) :
  (forall a, In a l -> f a = Some (g a)) -> omap f l = map g l.
Proof.
  induction l as [|a l IH]; intros H; [reflexivity|].
  cbn [omap list_omap map]. rewrite (H a) by (left; reflexivity).
  f_equal. apply IH. intros b Hb. apply H. right. exact Hb.
Qed.

Lemma filter_all_false {A} (f : A -> bool) (l : list A) :
  (forall a, In a l -> f a = false) -> List.filter f l = [].
Proof.
  induction l as [|a l IH]; intros H; [reflexivity|]. cbn [List.filter].
  rewrite (H a) by (left; reflexivity). apply IH. intros b Hb. apply H. right. exact Hb.
Qed.

Lemma filter_all_true {A} (f : A -> bool) (l : list A) :
  (forall a, In a l -> f a = true) -> List.filter f l = l.
Proof.
  induction l as [|a l IH]; intros H; [reflexivity|]. cbn [List.filter].
  rewrite (H a) by (left; reflexivity). f_equal. apply IH.
  intros b Hb. apply H. right. exact Hb.
Qed.

(** What the rendering loop walks through, for every list of assets.
    Each section holds its assets in the order of the store's list.  The
    sections come in order of first occurrence except for those whose
    name is an array index (a canonical decimal numeral below 2^32 - 1):
    these come first, in ascending numeric order, whatever their place in
    the list.  When no section name is an array index the sections are
    exactly in order of first occurrence. *)
Lemma rendered_sections_order (assets : list Asset) :
  rendered_sections assets
  = map (fun s => (s, in_section s assets))
        (merge_sort JsObject.index_le
           (List.filter JsObject.is_array_index
                        (first_occurrences (map section assets)))
         ++ List.filter (fun s => negb (JsObject.is_array_index s))
                        (first_occurrences (map section assets))) /\
  Sorted JsObject.index_le
         (merge_sort JsObject.index_le
            (List.filter JsObject.is_array_index
                         (first_occurrences (map section assets)))) /\
  ((forall a, In a assets -> JsObject.is_array_index (section a) = false) ->
   rendered_sections assets
   = map (fun s => (s, in_section s assets))
         (first_occurrences (map section assets))).
Proof.
  destruct (group_invariant assets) as [Hk Hg].
  assert (Hmain :
    rendered_sections assets
    = map (fun s => (s, in_section s assets))
          (merge_sort JsObject.index_le
             (List.filter JsObject.is_array_index
                          (first_occurrences (map section assets)))
           ++ List.filter (fun s => negb (JsObject.is_array_index s))
                          (first_occurrences (map section assets)))).
  { unfold rendered_sections, JsObject.entries, JsObject.ownKeys. rewrite Hk.
    apply omap_all_some. intros s Hs. rewrite Hg.
    rewrite bool_decide_eq_true_2; [reflexivity|].
    apply list_elem_of_In, first_occurrences_In.
    apply List.in_app_or in Hs. destruct Hs as [Hs|Hs].
    - apply list_elem_of_In in Hs. rewrite merge_sort_Permutation in Hs.
      apply list_elem_of_In, List.filter_In in Hs. apply Hs.
    - apply List.filter_In in Hs. apply Hs. }
  split; [exact Hmain|]. split; [apply Sorted_merge_sort; apply _|].
  intros Hnone. rewrite Hmain.
  rewrite (filter_all_false JsObject.is_array_index).
  - rewrite (filter_all_true (fun s => negb (JsObject.is_array_index s))).
    + reflexivity.
    + intros s Hs. apply first_occurrences_In, List.in_map_iff in Hs.
      destruct Hs as (a & <- & Ha). rewrite (Hnone a Ha). reflexivity.
  - intros s Hs. apply first_occurrences_In, List.in_map_iff in Hs.
    destruct Hs as (a & <- & Ha). apply (Hnone a Ha).
Qed.

(** ** The theorems at the sample editor *)

(** Saving [footer_text] with the store accepting the write: one
    removal of the cache entry, and the entry cached before is gone. *)
Lemma save_invalidates_cache_witness :
  count_occ Event_eq_dec
            (events (saveUIAsset "footer_text" Samples.accepted) Samples.admin_world)
            (EvRemoveItem "em_ui_config") = 1 /\
  (forall now,
      Spec.get (storage (snd (saveUIAsset "footer_text" Samples.accepted
                                          Samples.admin_world))) now = None) /\
  storage (snd (saveAllUIAssets Samples.rejected Samples.admin_world))
  = Samples.cached_storage.
Proof.
  destruct (save_invalidates_cache Samples.accepted Samples.admin_world)
    as [Hone _].
  destruct (Hone "footer_text"
                 (Samples.editor_element "uia-footer_text" "INPUT" (Some "(c) 2024"))
                 eq_refl) as [Hsaved _].
  destruct (Hsaved eq_refl) as (Hcount & _ & Hget & _).
  destruct (save_invalidates_cache Samples.rejected Samples.admin_world)
    as [_ [_ Hfailed]].
  destruct (Hfailed (Js.mkError "Error" "Unknown key") eq_refl)
    as (_ & _ & _ & Hst).
  exact (conj Hcount (conj Hget Hst)).
Defined.

(** The sample editor shows two assets; the batch holds four updates
    (the two rows and the two inputs, the preview being dropped) and the
    notification says so. *)
Lemma batch_save_key_filtering_witness :
  EvToast "Saved 4 UI assets! Refresh page to see changes." false
  ∈ events (saveAllUIAssets Samples.accepted) Samples.admin_world.
Proof.
  destruct (batch_save_key_filtering Samples.accepted Samples.admin_world)
    as (_ & _ & _ & _ & Htoast).
  exact (Htoast eq_refl).
Defined.

Example batch_of_sample_editor :
  collect_updates Samples.editor
  = [mkUpdate "row-footer_text" None; mkUpdate "footer_text" (Some "(c) 2024");
     mkUpdate "row-logo_url" None; mkUpdate "logo_url" (Some "https://x/img.png")].
Proof. reflexivity. Qed.

(** Sections with ordinary names come out in order of first occurrence,
    each with its assets in the order of the list. *)
Example named_sections_rendered :
  rendered_sections Samples.named_sections
  = [("hero", [Samples.asset "hero_title" "hero";
               Samples.asset "hero_subtitle" "hero"]);
     ("footer", [Samples.asset "footer_text" "footer"])].
Proof.
  destruct (rendered_sections_order Samples.named_sections) as (_ & _ & Hnamed).
  rewrite Hnamed; [reflexivity|].
  intros a [<-|[<-|[<-|[]]]]; reflexivity.
Qed.

(** C8. Grouped-read ordering, at a list the code does not keep in order.
    The store lists an asset of section ["2"] and then one of section
    ["1"]; first occurrence puts ["2"] before ["1"], but the rendering
    loop of [loadAdminUIAssets] walks section ["1"] first and section
    ["2"] second.  Within each section the assets are as listed. *)
Theorem numbered_sections_rendered_ascending :
  map section Samples.numbered_sections = ["2"; "1"] /\
  first_occurrences (map section Samples.numbered_sections) = ["2"; "1"] /\
  rendered_sections Samples.numbered_sections
  = [("1", [Samples.asset "first" "1"]); ("2", [Samples.asset "second" "2"])] /\
  map fst (rendered_sections Samples.numbered_sections)
  <> first_occurrences (map section Samples.numbered_sections).
Proof.
  split; [reflexivity|]. split; [reflexivity|]. split; [reflexivity|].
  vm_compute. discriminate.
Qed.

End AdminProps.

(* ===================================================================== *)
(** * Properties of the escaping                                          *)
(* ===================================================================== *)

Module HtmlProps.
Import Html.

Lemma append_cons (a : Ascii.ascii) (s t : string) :
  String a s +:+ t = String a (s +:+ t).
Proof. reflexivity. Qed.

Lemma append_nil_l (s : string) : EmptyString +:+ s = s.
Proof. reflexivity. Qed.

Lemma append_nil_r (s : string) : s +:+ EmptyString = s.
Proof.
  induction s as [|a s IH]; [reflexivity|]. rewrite append_cons, IH. reflexivity.
Qed.

Lemma append_assoc (a b c : string) : (a +:+ b) +:+ c = a +:+ (b +:+ c).
Proof.
  induction a as [|x a IH]; [reflexivity|]. rewrite !append_cons, IH. reflexivity.
Qed.

Lemma length_append (a b : string) :
  String.length (a +:+ b) = String.length a + String.length b.
Proof.
  induction a as [|x a IH]; [reflexivity|].
  rewrite append_cons. cbn [String.length]. rewrite IH. reflexivity.
Qed.

Lemma replace_all_cons (c a : Ascii.ascii) (rep s : string) :
  replace_all c rep (String a s)
  = (if Ascii.eqb a c then rep else String a EmptyString) +:+ replace_all c rep s.
Proof. reflexivity. Qed.

Lemma replace_all_app (c : Ascii.ascii) (rep a b : string) :
  replace_all c rep (a +:+ b) = replace_all c rep a +:+ replace_all c rep b.
Proof.
  induction a as [|x a IH]; [reflexivity|].
  rewrite append_cons, !replace_all_cons, IH, append_assoc. reflexivity.
Qed.

Lemma escHtml_app (a b : string) : escHtml (a +:+ b) = escHtml a +:+ escHtml b.
Proof. unfold escHtml. rewrite !replace_all_app. reflexivity. Qed.

Lemma escHtml_char (a : Ascii.ascii) : escHtml (String a EmptyString) = esc_char a.
Proof.
  unfold escHtml, esc_char.
  destruct (Ascii.eqb_spec a "&"%char) as [->|H1]; [reflexivity|].
  rewrite replace_all_cons, (proj2 (Ascii.eqb_neq _ _) H1).
  destruct (Ascii.eqb_spec a "<"%char) as [->|H2]; [reflexivity|].
  rewrite append_cons, replace_all_cons, (proj2 (Ascii.eqb_neq _ _) H2).
  destruct (Ascii.eqb_spec a ">"%char) as [->|H3]; [reflexivity|].
  rewrite append_cons, replace_all_cons, (proj2 (Ascii.eqb_neq _ _) H3).
  destruct (Ascii.eqb_spec a dquote_char) as [->|H4]; [reflexivity|].
  rewrite append_cons, replace_all_cons, (proj2 (Ascii.eqb_neq _ _) H4).
  reflexivity.
Qed.

Lemma escHtml_cons (a : Ascii.ascii) (s : string) :
  escHtml (String a s) = esc_char a +:+ escHtml s.
Proof.
  change (String a s) with (String a EmptyString +:+ s).
  rewrite escHtml_app, escHtml_char. reflexivity.
Qed.

Lemma escHtml_nil : escHtml EmptyString = EmptyString.
Proof. reflexivity. Qed.

(** The five forms [esc_char] can take. *)
Lemma esc_char_cases (a : Ascii.ascii) :
  (a = "&"%char /\ esc_char a = "&amp;") \/
  (a = "<"%char /\ esc_char a = "&lt;") \/
  (a = ">"%char /\ esc_char a = "&gt;") \/
  (a = dquote_char /\ esc_char a = "&quot;") \/
  (a <> "&"%char /\ a <> "<"%char /\ a <> ">"%char /\ a <> dquote_char /\
   esc_char a = String a EmptyString).
Proof.
  unfold esc_char.
  destruct (Ascii.eqb_spec a "&"%char) as [->|H1]; [auto|].
  destruct (Ascii.eqb_spec a "<"%char) as [->|H2]; [auto|].
  destruct (Ascii.eqb_spec a ">"%char) as [->|H3]; [auto 6|].
  destruct (Ascii.eqb_spec a dquote_char) as [->|H4]; [auto 6|].
  do 4 right. auto.
Qed.

Lemma occurs_app (c : Ascii.ascii) (a b : string) :
  occurs c (a +:+ b) = occurs c a || occurs c b.
Proof.
  induction a as [|x a IH]; [reflexivity|].
  rewrite append_cons. cbn [occurs]. rewrite IH, orb_assoc. reflexivity.
Qed.

Lemma occurs_esc_char (c a : Ascii.ascii) :
  c = "<"%char \/ c = ">"%char \/ c = dquote_char ->
  occurs c (esc_char a) = false.
Proof.
  intros Hc.
  destruct (esc_char_cases a)
    as [(-> & ->)|[(-> & ->)|[(-> & ->)|[(-> & ->)|(H1 & H2 & H3 & H4 & ->)]]]];
    try (destruct Hc as [-> | [-> | ->]]; reflexivity).
  cbn [occurs]. rewrite orb_false_r. apply Ascii.eqb_neq.
  destruct Hc as [-> | [-> | ->]]; assumption.
Qed.

Lemma occurs_escHtml (c : Ascii.ascii) (s : string) :
  c = "<"%char \/ c = ">"%char \/ c = dquote_char ->
  occurs c (escHtml s) = false.
Proof.
  intros Hc. induction s as [|a s IH]; [reflexivity|].
  rewrite escHtml_cons, occurs_app, IH, (occurs_esc_char _ _ Hc). reflexivity.
Qed.

Lemma esc_char_length (a : Ascii.ascii) : 1 <= String.length (esc_char a).
Proof.
  destruct (esc_char_cases a)
    as [(_ & ->)|[(_ & ->)|[(_ & ->)|[(_ & ->)|(_ & _ & _ & _ & ->)]]]]; cbn; lia.
Qed.

Lemma escHtml_length (s : string) : String.length s <= String.length (escHtml s).
Proof.
  induction s as [|a s IH]; [reflexivity|].
  rewrite escHtml_cons, length_append. cbn [String.length].
  pose proof (esc_char_length a). lia.
Qed.

(** Brings an equation between strings that start with known characters
    to its consequences. *)
Ltac open_strings H :=
  rewrite ?append_cons, ?append_nil_l in H; simplify_eq.

Lemma escHtml_inj (s1 s2 : string) : escHtml s1 = escHtml s2 -> s1 = s2.
Proof.
  revert s2. induction s1 as [|a s1 IH]; intros [|b s2] H.
  - reflexivity.
  - exfalso. rewrite escHtml_cons in H. cbn in H.
    destruct (esc_char_cases b)
      as [(_ & Hb)|[(_ & Hb)|[(_ & Hb)|[(_ & Hb)|(_ & _ & _ & _ & Hb)]]]];
      rewrite Hb in H; open_strings H.
  - exfalso. rewrite escHtml_cons in H. cbn in H.
    destruct (esc_char_cases a)
      as [(_ & Ha)|[(_ & Ha)|[(_ & Ha)|[(_ & Ha)|(_ & _ & _ & _ & Ha)]]]];
      rewrite Ha in H; open_strings H.
  - rewrite !escHtml_cons in H.
    destruct (esc_char_cases a)
      as [(-> & Ha)|[(-> & Ha)|[(-> & Ha)|[(-> & Ha)|(A1 & A2 & A3 & A4 & Ha)]]]];
    destruct (esc_char_cases b)
      as [(-> & Hb)|[(-> & Hb)|[(-> & Hb)|[(-> & Hb)|(B1 & B2 & B3 & B4 & Hb)]]]];
      rewrite ?Ha, ?Hb in H; open_strings H;
      try (f_equal; apply IH; assumption); try congruence.
Qed.

Lemma plain_spec (s : string) :
  plain s = true <->
  occurs "&"%char s = false /\ occurs "<"%char s = false /\
  occurs ">"%char s = false /\ occurs dquote_char s = false.
Proof.
  unfold plain. rewrite !andb_true_iff, !negb_true_iff. tauto.
Qed.

Lemma plain_cons (a : Ascii.ascii) (s : string) :
  plain (String a s) = true <->
  (a <> "&"%char /\ a <> "<"%char /\ a <> ">"%char /\ a <> dquote_char) /\
  plain s = true.
Proof.
  rewrite !plain_spec. cbn [occurs]. rewrite !orb_false_iff, !Ascii.eqb_neq. tauto.
Qed.

Lemma escHtml_plain (s : string) : plain s = true -> escHtml s = s.
Proof.
  induction s as [|a s IH]; [reflexivity|].
  rewrite plain_cons. intros [(H1 & H2 & H3 & H4) Hs].
  rewrite escHtml_cons, (IH Hs).
  destruct (esc_char_cases a)
    as [(-> & _)|[(-> & _)|[(-> & _)|[(-> & _)|(_ & _ & _ & _ & ->)]]]];
    try contradiction.
  reflexivity.
Qed.

Lemma escHtml_fixed (s : string) : escHtml s = s -> plain s = true.
Proof.
  induction s as [|a s IH]; [reflexivity|].
  rewrite escHtml_cons. intros H. pose proof (escHtml_length s) as Hlen.
  destruct (esc_char_cases a)
    as [(-> & Ha)|[(-> & Ha)|[(-> & Ha)|[(-> & Ha)|(A1 & A2 & A3 & A4 & Ha)]]]];
    rewrite Ha in H; open_strings H.
  - exfalso. apply (f_equal String.length) in H. cbn [String.length] in H. lia.
  - apply plain_cons. split; [auto|]. apply IH. assumption.
Qed.

(** X1. Whatever the input, the output of [escHtml] holds no [<], no [>]
    and no double quote: these occur in it only as entities. *)
Theorem escHtml_no_markup_characters (s : string) :
  occurs "<"%char (escHtml s) = false /\
  occurs ">"%char (escHtml s) = false /\
  occurs dquote_char (escHtml s) = false.
Proof. repeat split; apply occurs_escHtml; auto. Qed.

(** X2. [escHtml] loses nothing: two strings with the same escaped form
    are the same string. *)
Theorem escHtml_injective (s1 s2 : string) :
  escHtml s1 = escHtml s2 -> s1 = s2.
Proof. apply escHtml_inj. Qed.

(** X3. Escaping distributes over concatenation: the escaped form of a
    string built from parts is built from the escaped parts, and the
    escaped form is never shorter than the string. *)
Theorem escHtml_distributes (a b : string) :
  escHtml (a +:+ b) = escHtml a +:+ escHtml b /\
  String.length (a +:+ b) <= String.length (escHtml (a +:+ b)).
Proof. split; [apply escHtml_app|apply escHtml_length]. Qed.

(** X4. [escHtml] returns its argument unchanged exactly when the
    argument has none of [&], [<], [>] and the double quote; and escaping
    twice is the same as escaping once only for those strings, so text
    that needed escaping is changed again by a second pass. *)
Theorem escHtml_fixed_points (s : string) :
  (escHtml s = s <-> plain s = true) /\
  (escHtml (escHtml s) = escHtml s <-> plain s = true).
Proof.
  split; split.
  - apply escHtml_fixed.
  - apply escHtml_plain.
  - intros H. apply escHtml_fixed, escHtml_inj, H.
  - intros H. rewrite !(escHtml_plain _ H). reflexivity.
Qed.

Example escHtml_examples :
  escHtml "Fish & <b>Chips</b>" = "Fish &amp; &lt;b&gt;Chips&lt;/b&gt;" /\
  escHtml "it's" = "it's" /\
  escHtml "&amp;" = "&amp;amp;".
Proof. repeat split; reflexivity. Qed.

(** Two strings with one escaped form, at concrete strings. *)
Lemma escHtml_injective_witness :
  escHtml "a<b" = "a&lt;b" /\ "a<b" = "a<b".
Proof.
  split; [reflexivity|]. apply (escHtml_injective "a<b" "a<b"). reflexivity.
Defined.

Lemma escHtml_fixed_points_witness :
  escHtml "Summer sale - 20% off" = "Summer sale - 20% off".
Proof.
  apply (proj2 (proj1 (escHtml_fixed_points "Summer sale - 20% off"))).
  reflexivity.
Defined.

End HtmlProps.

(* ===================================================================== *)
(** * More on the loader: refresh, repeated loads, notification, frame    *)
(* ===================================================================== *)

Module LoaderExtra.
Import Runtime UiConfig Obs.

(** The world after the unguarded [removeItem] of [refreshUIConfig], when
    storage is accessible. *)
Lemma refresh_run (x : Exchange Snapshot) (w : World) :
  accessible (storage w) = true ->
  refreshUIConfig x w
  = Spec.on_miss x
      (mkWorld (clock w)
               (mkStorage true (quota_exceeded (storage w))
                          (delete CACHE_KEY (items (storage w))))
               (document w) (uiConfig w)
               (trace w ++ [EvRemoveItem CACHE_KEY])).
Proof.
  intros Hacc. destruct w as [now [acc quota its] doc cfg tr].
  cbn in Hacc. subst acc.
  unfold refreshUIConfig. unfold bind at 1.
  assert (Hrm : removeItem CACHE_KEY
                  (mkWorld now (mkStorage true quota its) doc cfg tr)
                = (Ok tt,
                   mkWorld now (mkStorage true quota (delete CACHE_KEY its))
                           doc cfg (tr ++ [EvRemoveItem CACHE_KEY])))
    by reflexivity.
  rewrite Hrm. rewrite LoaderProps.loadUIConfig_refines. unfold Spec.load.
  rewrite LoaderProps.get_absent; [reflexivity|].
  cbn [storage items]. apply lookup_delete_eq.
Qed.

(** X5. With storage accessible, [refreshUIConfig] never serves the
    cache: it removes the entry, reads the (now empty) cache and goes to
    the network, whatever was cached and however fresh.  A successful
    response is applied; after a failed one the page is as before and the
    cache is left empty, the old entry being lost. *)
Theorem refresh_always_fetches (x : Exchange Snapshot) (w : World) :
  accessible (storage w) = true ->
  fst (refreshUIConfig x w) = Ok tt /\
  (exists rest,
      events (refreshUIConfig x) w
      = EvRemoveItem CACHE_KEY :: EvGetItem CACHE_KEY :: GET_CONFIG :: rest) /\
  (forall S, reply x = Response true (inr S) ->
             document (snd (refreshUIConfig x w))
             = apply_element S <$> document w /\
             uiConfig (snd (refreshUIConfig x w)) = Some S) /\
  (fetch_failed x = true ->
   document (snd (refreshUIConfig x w)) = document w /\
   items (storage (snd (refreshUIConfig x w))) !! CACHE_KEY = None).
Proof.
  intros Hacc. unfold events. rewrite (refresh_run _ _ Hacc).
  split; [apply LoaderProps.on_miss_ok|].
  destruct (reply x) as [e|ok [e|S]] eqn:Hr; [|destruct ok|destruct ok].
  - rewrite LoaderProps.on_miss_failed by (unfold fetch_failed; rewrite Hr; reflexivity).
    cbn [snd trace document storage items uiConfig].
    rewrite <- app_assoc, drop_app_length.
    split; [eexists; reflexivity|]. split; [discriminate|].
    intros _. split; [reflexivity|apply lookup_delete_eq].
  - rewrite (LoaderProps.on_miss_bad_body _ _ _ Hr).
    cbn [snd trace document storage items uiConfig].
    rewrite <- app_assoc, drop_app_length.
    split; [eexists; reflexivity|]. split; [discriminate|].
    unfold fetch_failed. rewrite Hr. discriminate.
  - rewrite LoaderProps.on_miss_failed by (unfold fetch_failed; rewrite Hr; reflexivity).
    cbn [snd trace document storage items uiConfig].
    rewrite <- app_assoc, drop_app_length.
    split; [eexists; reflexivity|]. split; [discriminate|].
    intros _. split; [reflexivity|apply lookup_delete_eq].
  - rewrite (LoaderProps.on_miss_fetched _ _ _ Hr).
    cbn [snd trace document storage items uiConfig].
    rewrite <- app_assoc, drop_app_length.
    split; [eexists; reflexivity|]. split.
    + intros S' HS'. injection HS' as <-. split; reflexivity.
    + unfold fetch_failed. rewrite Hr. discriminate.
  - rewrite LoaderProps.on_miss_failed by (unfold fetch_failed; rewrite Hr; reflexivity).
    cbn [snd trace document storage items uiConfig].
    rewrite <- app_assoc, drop_app_length.
    split; [eexists; reflexivity|]. split; [discriminate|].
    intros _. split; [reflexivity|apply lookup_delete_eq].
Qed.

(** X6. With storage disabled, [refreshUIConfig] raises the
    [SecurityError] of its unguarded [removeItem] and never reaches the
    load: no fetch is made and nothing else changes. *)
Theorem refresh_raises_without_storage (x : Exchange Snapshot) (w : World) :
  accessible (storage w) = false ->
  refreshUIConfig x w
  = (Throw Js.SecurityError,
     mkWorld (clock w) (storage w) (document w) (uiConfig w)
             (trace w ++ [EvRemoveItem CACHE_KEY])) /\
  events (refreshUIConfig x) w = [EvRemoveItem CACHE_KEY].
Proof.
  intros Hacc.
  assert (Hrun : refreshUIConfig x w
                 = (Throw Js.SecurityError,
                    mkWorld (clock w) (storage w) (document w) (uiConfig w)
                            (trace w ++ [EvRemoveItem CACHE_KEY]))).
  { LoaderProps.run_js. rewrite Hacc. reflexivity. }
  split; [exact Hrun|]. unfold events. rewrite Hrun. cbn [snd trace].
  apply drop_app_length.
Qed.

(** X7. Two loads in a row.  After a load that fetched [S] and stored it
    (working storage), a later load on that storage is served [S] from
    the cache while fewer than 60 000 ms have passed since the moment of
    storing, which is the moment the response arrived, and goes to the
    network again from then on. *)
Theorem second_load_uses_cache
        (x x' : Exchange Snapshot) (w w' : World) (S : Snapshot) :
  accessible (storage w) = true ->
  quota_exceeded (storage w) = false ->
  Spec.get (storage w) (clock w) = None ->
  reply x = Response true (inr S) ->
  storage w' = storage (snd (loadUIConfig x w)) ->
  ((clock w' < clock w + latency x + 60000)%Z ->
   loadUIConfig x' w' = Spec.on_hit S w') /\
  ((clock w + latency x + 60000 <= clock w')%Z ->
   loadUIConfig x' w' = Spec.on_miss x' w').
Proof.
  intros Hacc Hq Hmiss Hr Hst.
  assert (Hst' : storage w'
                 = mkStorage true false
                     (<[CACHE_KEY := mkEntry (clock w + latency x) S]>
                        (items (storage w)))).
  { rewrite Hst, LoaderProps.loadUIConfig_refines. unfold Spec.load.
    rewrite Hmiss, (LoaderProps.on_miss_fetched _ _ _ Hr).
    cbn [snd storage]. rewrite Hacc, Hq. reflexivity. }
  rewrite LoaderProps.loadUIConfig_refines. unfold Spec.load. split; intros Ht.
  - rewrite (LoaderProps.get_fresh _ _ (clock w + latency x) S); try reflexivity.
    + rewrite Hst'. reflexivity.
    + rewrite Hst'. apply lookup_insert_eq.
    + exact Ht.
  - rewrite (LoaderProps.get_stale _ _ (clock w + latency x) S); try reflexivity.
    + rewrite Hst'. apply lookup_insert_eq.
    + exact Ht.
Qed.

(** Runs a load through each of its outcomes: served from the cache,
    rejected, answered with a body that does not parse, refused, fetched. *)
Ltac load_cases x w :=
  rewrite ?LoaderProps.loadUIConfig_refines; unfold Spec.load;
  let s := fresh "s" in
  let e := fresh "e" in
  let S := fresh "S" in
  let Hg := fresh "Hget" in
  let Hr := fresh "Hreply" in
  destruct (Spec.get (storage w) (clock w)) as [s|] eqn:Hg;
  [ rewrite ?LoaderProps.on_hit_run
  | destruct (reply x) as [e|[] [e|S]] eqn:Hr;
    [ rewrite ?LoaderProps.on_miss_failed
        by (unfold fetch_failed; rewrite Hr; reflexivity)
    | rewrite ?(LoaderProps.on_miss_bad_body _ _ _ Hr)
    | rewrite ?(LoaderProps.on_miss_fetched _ _ _ Hr)
    | rewrite ?LoaderProps.on_miss_failed
        by (unfold fetch_failed; rewrite Hr; reflexivity)
    | rewrite ?LoaderProps.on_miss_failed
        by (unfold fetch_failed; rewrite Hr; reflexivity) ];
    rewrite ?Hr ];
  cbn [fst snd clock storage document uiConfig trace items];
  rewrite ?drop_app_length; cbn [app].

(** Takes a membership in an explicit list apart. *)
Ltac member_cases H :=
  repeat (apply elem_of_cons in H; destruct H as [H|H];
          [try discriminate H|]);
  try (apply elem_of_nil in H; destruct H).

(** X8. The notification of a load.  When a load applies a snapshot it
    dispatches [uiConfigLoaded] exactly once, carrying that snapshot, no
    other event is dispatched, and [window.__uiConfig] holds the snapshot
    afterwards.  When it applies none, it dispatches nothing and leaves
    [window.__uiConfig] as it was. *)
Theorem load_notifies_once (x : Exchange Snapshot) (w : World) :
  (forall c,
      EvApply c ∈ events (loadUIConfig x) w ->
      count_occ Event_eq_dec (events (loadUIConfig x) w)
                (EvDispatch "uiConfigLoaded" c) = 1 /\
      (forall t d, EvDispatch t d ∈ events (loadUIConfig x) w ->
                   t = "uiConfigLoaded" /\ d = c) /\
      uiConfig (snd (loadUIConfig x w)) = Some c) /\
  ((forall c, EvApply c ∉ events (loadUIConfig x) w) ->
   (forall t d, EvDispatch t d ∉ events (loadUIConfig x) w) /\
   uiConfig (snd (loadUIConfig x w)) = uiConfig w).
Proof.
  unfold events, GET_CONFIG. load_cases x w.
  - split.
    + intros c Hc. member_cases Hc. injection Hc as ->.
      rewrite !count_occ_cons_neq by discriminate.
      rewrite count_occ_cons_eq by reflexivity.
      split; [reflexivity|]. split; [|reflexivity].
      intros t d Hd. member_cases Hd. injection Hd as -> ->. auto.
    + intros Hno. exfalso. apply (Hno s).
      apply list_elem_of_further, list_elem_of_here.
  - split.
    + intros c Hc. member_cases Hc.
    + intros _. split; [|reflexivity]. intros t d Hd. member_cases Hd.
  - split.
    + intros c Hc. member_cases Hc.
    + intros _. split; [|reflexivity]. intros t d Hd. member_cases Hd.
  - split.
    + intros c Hc. member_cases Hc. injection Hc as ->.
      rewrite !count_occ_cons_neq by discriminate.
      rewrite count_occ_cons_eq by reflexivity.
      split; [reflexivity|]. split; [|reflexivity].
      intros t d Hd. member_cases Hd. injection Hd as -> ->. auto.
    + intros Hno. exfalso. apply (Hno S).
      do 3 apply list_elem_of_further. apply list_elem_of_here.
  - split.
    + intros c Hc. member_cases Hc.
    + intros _. split; [|reflexivity]. intros t d Hd. member_cases Hd.
  - split.
    + intros c Hc. member_cases Hc.
    + intros _. split; [|reflexivity]. intros t d Hd. member_cases Hd.
Qed.

(** X9. A response with a success status whose body is not JSON.  The
    load ends in its handler: it returns normally, logs the parse error,
    applies nothing, writes nothing to the cache and leaves the page as it
    was. *)
Theorem unparsable_body_degrades
        (x : Exchange Snapshot) (w : World) (e : Js.Error) :
  GET_CONFIG ∈ events (loadUIConfig x) w ->
  reply x = Response true (inl e) ->
  fst (loadUIConfig x w) = Ok tt /\
  document (snd (loadUIConfig x w)) = document w /\
  storage (snd (loadUIConfig x w)) = storage w /\
  uiConfig (snd (loadUIConfig x w)) = uiConfig w /\
  events (loadUIConfig x) w
  = [EvGetItem CACHE_KEY; GET_CONFIG;
     EvWarn ("[UI Config] Could not load dynamic config: " +:+ Js.message e)].
Proof.
  intros Hfetch Hr. pose proof (LoaderProps.fetch_only_on_miss _ _ Hfetch) as Hmiss.
  unfold events. rewrite LoaderProps.loadUIConfig_refines. unfold Spec.load.
  rewrite Hmiss, (LoaderProps.on_miss_bad_body _ _ _ Hr).
  cbn [fst snd document storage uiConfig trace]. rewrite drop_app_length.
  repeat split.
Qed.

Lemma apply_element_idem (config : Snapshot) (el : Dom.Element) :
  apply_element config (apply_element config el) = apply_element config el.
Proof.
  unfold apply_element at 2.
  destruct (Dom.uiKey el) as [k|] eqn:Hk.
  2:{ unfold apply_element. rewrite Hk. reflexivity. }
  destruct (config !! k) as [[|v]|] eqn:Hv;
    try (unfold apply_element; rewrite Hk, Hv; reflexivity).
  destruct (String.eqb (Dom.tagName el) "IMG") eqn:Himg.
  { unfold apply_element. cbn. rewrite Hk, Hv, Himg. reflexivity. }
  destruct (String.eqb (Dom.tagName el) "INPUT"
            && negb (String.eqb (Dom.type el) "submit")) eqn:Hinput.
  { unfold apply_element. cbn. rewrite Hk, Hv, Himg, Hinput. reflexivity. }
  destruct (bool_decide (Dom.uiTarget el = Some "html")) eqn:Hhtml.
  { unfold apply_element. cbn. rewrite Hk, Hv, Himg, Hinput, Hhtml. reflexivity. }
  unfold apply_element. cbn. rewrite Hk, Hv, Himg, Hinput, Hhtml. reflexivity.
Qed.

Lemma apply_element_identity (config : Snapshot) (el : Dom.Element) :
  ObsExtra.same_identity el (apply_element config el) /\
  (Dom.uiKey el = None -> apply_element config el = el).
Proof.
  unfold ObsExtra.same_identity, apply_element.
  destruct (Dom.uiKey el) as [k|] eqn:Hk; [|split; [auto 10|reflexivity]].
  destruct (config !! k) as [[|v]|];
    [| destruct (String.eqb (Dom.tagName el) "IMG");
       [| destruct (String.eqb (Dom.tagName el) "INPUT"
                    && negb (String.eqb (Dom.type el) "submit"));
          [| destruct (bool_decide (Dom.uiTarget el = Some "html"))]] |];
    (split; [cbn; auto 10|intros H; discriminate H]).
Qed.

(** X10. What [applyConfig] does to one element is idempotent: done a
    second time with the same snapshot it leaves the element as the first
    time left it, and the mode it infers for the element is the same
    before and after. *)
Theorem application_is_idempotent (config : Snapshot) (el : Dom.Element) :
  apply_element config (apply_element config el) = apply_element config el /\
  application_mode (apply_element config el) = application_mode el.
Proof.
  split; [apply apply_element_idem|].
  destruct (apply_element_identity config el) as [(_ & Htag & Htype & _ & Htarget) _].
  unfold application_mode. rewrite Htag, Htype, Htarget. reflexivity.
Qed.


(** X12. What a load does to session storage.  It writes at most one
    entry, under [em_ui_config], and only the snapshot it has just fetched,
    stamped with the time the response arrived; it never removes an entry
    and never touches another key. *)
Theorem load_writes_only_its_entry (x : Exchange Snapshot) (w : World) :
  (items (storage (snd (loadUIConfig x w))) = items (storage w) \/
   exists S, reply x = Response true (inr S) /\
             items (storage (snd (loadUIConfig x w)))
             = <[CACHE_KEY := mkEntry (clock w + latency x) S]>
                 (items (storage w))) /\
  (forall k, k <> CACHE_KEY ->
             items (storage (snd (loadUIConfig x w))) !! k
             = items (storage w) !! k) /\
  (is_Some (items (storage w) !! CACHE_KEY) ->
   is_Some (items (storage (snd (loadUIConfig x w))) !! CACHE_KEY)).
Proof.
  assert (Hitems :
    items (storage (snd (loadUIConfig x w))) = items (storage w) \/
    exists S, reply x = Response true (inr S) /\
              items (storage (snd (loadUIConfig x w)))
              = <[CACHE_KEY := mkEntry (clock w + latency x) S]>
                  (items (storage w))).
  { load_cases x w; auto.
    destruct (accessible (storage w) && negb (quota_exceeded (storage w)));
      [right; exists S; auto|left; reflexivity]. }
  split; [exact Hitems|]. split.
  - intros k Hk. destruct Hitems as [->|(S & _ & ->)]; [reflexivity|].
    apply lookup_insert_ne. congruence.
  - intros Hsome. destruct Hitems as [->|(S & _ & ->)]; [exact Hsome|].
    rewrite lookup_insert_eq. eauto.
Qed.

(** ** The theorems at the sample page *)

(** A refresh two seconds into a fresh cache entry still fetches. *)
Lemma refresh_always_fetches_witness :
  exists rest,
    events (refreshUIConfig Samples.served)
           (Samples.world 2000 Samples.cached_storage)
    = EvRemoveItem CACHE_KEY :: EvGetItem CACHE_KEY :: GET_CONFIG :: rest.
Proof.
  destruct (refresh_always_fetches Samples.served
              (Samples.world 2000 Samples.cached_storage) eq_refl)
    as (_ & Hev & _).
  exact Hev.
Defined.

Lemma refresh_raises_without_storage_witness :
  events (refreshUIConfig Samples.served)
         (Samples.world 0 Samples.disabled_storage)
  = [EvRemoveItem CACHE_KEY].
Proof.
  exact (proj2 (refresh_raises_without_storage Samples.served
                  (Samples.world 0 Samples.disabled_storage) eq_refl)).
Defined.

(** The response of the first load arrives at time 40; at 60 039 a load
    that could not reach the network is still served from the cache. *)
Lemma second_load_uses_cache_witness :
  loadUIConfig Samples.offline
    (Samples.world 60039
       (storage (snd (loadUIConfig Samples.served
                        (Samples.world 0 Samples.empty_storage)))))
  = Spec.on_hit Samples.snapshot
      (Samples.world 60039
         (storage (snd (loadUIConfig Samples.served
                          (Samples.world 0 Samples.empty_storage))))).
Proof.
  refine (proj1 (second_load_uses_cache Samples.served Samples.offline
                   (Samples.world 0 Samples.empty_storage)
                   (Samples.world 60039
                      (storage (snd (loadUIConfig Samples.served
                                       (Samples.world 0 Samples.empty_storage)))))
                   Samples.snapshot _ _ _ _ _) _).
  - reflexivity.
  - reflexivity.
  - reflexivity.
  - reflexivity.
  - reflexivity.
  - cbn. lia.
Defined.

Lemma load_notifies_once_witness :
  uiConfig (snd (loadUIConfig Samples.served
                   (Samples.world 0 Samples.empty_storage)))
  = Some Samples.snapshot.
Proof.
  destruct (load_notifies_once Samples.served
              (Samples.world 0 Samples.empty_storage)) as [Happlied _].
  destruct (Happlied Samples.snapshot) as (_ & _ & Hcfg).
  - rewrite LoaderProps.first_visit_calls.
    do 3 apply list_elem_of_further. apply list_elem_of_here.
  - exact Hcfg.
Defined.

Lemma unparsable_body_degrades_witness :
  document (snd (loadUIConfig
                   (mkExchange 5 (Response true
                                    (inl (Js.mkError "SyntaxError"
                                            "Unexpected token <"))))
                   (Samples.world 0 Samples.empty_storage)))
  = Samples.page.
Proof.
  destruct (unparsable_body_degrades
              (mkExchange 5 (Response true
                               (inl (Js.mkError "SyntaxError"
                                       "Unexpected token <"))))
              (Samples.world 0 Samples.empty_storage)
              (Js.mkError "SyntaxError" "Unexpected token <"))
    as (_ & Hdoc & _).
  - apply (bool_decide_unpack _). vm_compute. exact I.
  - reflexivity.
  - exact Hdoc.
Defined.

(** A stale entry outlives a load that could not reach the network. *)
Lemma load_writes_only_its_entry_witness :
  is_Some (items (storage (snd (loadUIConfig Samples.offline
                                  (Samples.world 70000 Samples.cached_storage))))
           !! CACHE_KEY).
Proof.
  destruct (load_writes_only_its_entry Samples.offline
              (Samples.world 70000 Samples.cached_storage)) as (_ & _ & Hkeep).
  apply Hkeep. exists (mkEntry 1000 Samples.snapshot). apply lookup_insert_eq.
Defined.

End LoaderExtra.

(* ===================================================================== *)
(** * More on the editor: requests, saves, the batch, the groups          *)
(* ===================================================================== *)

Module AdminExtra.
Import Runtime Admin Obs.

(** X13. What [adminApi.request] makes of an exchange.  It resolves, with
    the parsed body, exactly when the status is a success and the body is
    JSON.  A body that does not parse rejects with the parse error
    whatever the status, a success included; a failure status with a JSON
    body rejects with [data.message], or with ["Request failed"] when the
    message is missing or empty.  One request is made in every case. *)
Theorem request_outcomes (method url : string) (body : Body)
        (x : Exchange AdminData) (w : World) :
  events (adminApi_request method url body x) w = [EvFetch method url body] /\
  (forall d, fst (adminApi_request method url body x w) = Ok d
             <-> reply x = Response true (inr d)) /\
  (forall ok e, reply x = Response ok (inl e) ->
                fst (adminApi_request method url body x w) = Throw e) /\
  (forall d, reply x = Response false (inr d) ->
             fst (adminApi_request method url body x w)
             = Throw (Js.mkError "Error"
                        (match d_message d with
                         | Some EmptyString | None => "Request failed"
                         | Some text => text
                         end))).
Proof.
  assert (Hw : snd (adminApi_request method url body x w)
               = mkWorld (clock w + latency x) (storage w) (document w)
                         (uiConfig w) (trace w ++ [EvFetch method url body])).
  { destruct (request_error x) as [e|] eqn:He.
    - rewrite (AdminProps.request_rejected _ _ _ _ _ _ He). reflexivity.
    - destruct (AdminProps.request_resolved method url body x w He) as [d ->].
      reflexivity. }
  split.
  { unfold events. rewrite Hw. cbn [trace]. apply drop_app_length. }
  unfold adminApi_request. LoaderProps.run_js.
  destruct (reply x) as [e|[] [e|d]]; cbn;
    (split; [intros d'; split; intros H; simplify_eq; reflexivity|]);
    (split; [intros ok' e' H; simplify_eq; reflexivity|]);
    intros d' H; simplify_eq.
  unfold Js.or_else. destruct (d_message d') as [[|c t]|]; reflexivity.
Qed.

(** X14. Neither save ever raises, whatever the network and the storage
    do, and each makes at most one request. *)
Theorem saves_never_raise (key : string) (x : Exchange AdminData) (w : World) :
  fst (saveUIAsset key x w) = Ok tt /\
  fst (saveAllUIAssets x w) = Ok tt /\
  (events (saveUIAsset key x) w = [] \/
   exists b rest,
     events (saveUIAsset key x) w
     = EvFetch "PUT" ("/admin/ui-assets/" +:+ key) b :: rest /\
     forall m u b', EvFetch m u b' ∉ rest) /\
  (exists b rest,
      events (saveAllUIAssets x) w = EvFetch "PUT" "/admin/ui-assets" b :: rest /\
      forall m u b', EvFetch m u b' ∉ rest).
Proof.
  assert (Hblock : forall url text body,
    let m := try_catch
               (do _ <- adminApi_put url body x;
                do _ <- showAdminToast text false;
                removeItem "em_ui_config")
               (fun e => showAdminToast (Js.message e) true) in
    fst (m w) = Ok tt /\
    exists rest, drop (length (trace w)) (trace (snd (m w)))
                 = EvFetch "PUT" url body :: rest /\
                 forall m' u b', EvFetch m' u b' ∉ rest).
  { intros url text body m. subst m.
    destruct (request_error x) as [e|] eqn:He.
    - rewrite (AdminProps.save_block_failed _ _ _ _ _ _ He). cbn [fst snd trace].
      rewrite drop_app_length. split; [reflexivity|]. eexists. split; [reflexivity|].
      intros m' u b' Hin. LoaderExtra.member_cases Hin.
    - rewrite (AdminProps.save_block_saved _ _ _ _ _ He). cbn [fst snd trace].
      rewrite drop_app_length. split; [reflexivity|]. eexists. split; [reflexivity|].
      intros m' u b' Hin. destruct (accessible (storage w)); cbn [app] in Hin;
        LoaderExtra.member_cases Hin. }
  assert (Hone : fst (saveUIAsset key x w) = Ok tt /\
                 (events (saveUIAsset key x) w = [] \/
                  exists b rest,
                    events (saveUIAsset key x) w
                    = EvFetch "PUT" ("/admin/ui-assets/" +:+ key) b :: rest /\
                    forall m u b', EvFetch m u b' ∉ rest)).
  { unfold events.
    destruct (Dom.getElementById ("uia-" +:+ key) (document w)) as [input|] eqn:Hin.
    - assert (Hrun : saveUIAsset key x w
                     = try_catch
                         (do _ <- adminApi_put ("/admin/ui-assets/" +:+ key)
                                    (ValueBody (Dom.value input)) x;
                          do _ <- showAdminToast
                                    "Saved! Refresh page to see changes." false;
                          removeItem "em_ui_config")
                         (fun e => showAdminToast (Js.message e) true) w).
      { unfold saveUIAsset, bind at 1, get_document. rewrite Hin. reflexivity. }
      rewrite Hrun.
      destruct (Hblock ("/admin/ui-assets/" +:+ key)
                       "Saved! Refresh page to see changes."
                       (ValueBody (Dom.value input))) as (Hok & rest & Hev & Hno).
      split; [exact Hok|]. right. exists (ValueBody (Dom.value input)), rest.
      split; [exact Hev|exact Hno].
    - assert (Hrun : saveUIAsset key x w = (Ok tt, w)).
      { unfold saveUIAsset, bind at 1, get_document. rewrite Hin. reflexivity. }
      rewrite Hrun. split; [reflexivity|]. left. cbn [snd]. apply drop_all. }
  destruct Hone as [Hok1 Hev1].
  destruct (Hblock "/admin/ui-assets"
              ("Saved " +:+ pretty (length (collect_updates (document w)))
                        +:+ " UI assets! Refresh page to see changes.")
              (UpdatesBody (collect_updates (document w))))
    as (Hok2 & rest & Hev2 & Hno2).
  split; [exact Hok1|]. split; [exact Hok2|]. split; [exact Hev1|].
  exists (UpdatesBody (collect_updates (document w))), rest.
  split; [exact Hev2|exact Hno2].
Qed.

Lemma getElementById_none (i : string) (doc : Dom.Document) :
  Dom.getElementById i doc = None <->
  forall el, In el doc -> Dom.id el <> Some i.
Proof.
  unfold Dom.getElementById. split.
  - intros Hnone el Hel Hid.
    pose proof (List.find_none _ _ Hnone el Hel) as Hf. cbn beta in Hf.
    rewrite bool_decide_eq_false in Hf. contradiction.
  - intros Hall. destruct (List.find _ doc) as [el|] eqn:Hfind; [|reflexivity].
    apply List.find_some in Hfind. destruct Hfind as [Hel Hid].
    rewrite bool_decide_eq_true in Hid. exfalso. apply (Hall el Hel Hid).
Qed.

Lemma getElementById_some (i : string) (doc : Dom.Document) (el : Dom.Element) :
  Dom.getElementById i doc = Some el -> In el doc /\ Dom.id el = Some i.
Proof.
  unfold Dom.getElementById. intros Hfind. apply List.find_some in Hfind.
  destruct Hfind as [Hel Hid]. rewrite bool_decide_eq_true in Hid. auto.
Qed.

(** X15. [saveUIAsset(key)] does nothing at all, with no request and no
    notification of any kind, exactly when no element of the page has the
    id [uia-] followed by the key. *)
Theorem save_one_needs_its_input (key : string) (x : Exchange AdminData) (w : World) :
  saveUIAsset key x w = (Ok tt, w) <->
  forall el, In el (document w) -> Dom.id el <> Some ("uia-" +:+ key).
Proof.
  rewrite <- getElementById_none. split.
  - intros Hrun.
    destruct (Dom.getElementById ("uia-" +:+ key) (document w)) as [input|] eqn:Hin;
      [exfalso|reflexivity].
    assert (Hev : events (saveUIAsset key x) w = []).
    { unfold events. rewrite Hrun. apply drop_all. }
    revert Hev. unfold events, saveUIAsset, bind at 1, get_document. rewrite Hin.
    destruct (request_error x) as [e|] eqn:He.
    + rewrite (AdminProps.save_block_failed _ _ _ _ _ _ He). cbn [snd trace].
      rewrite drop_app_length. discriminate.
    + rewrite (AdminProps.save_block_saved _ _ _ _ _ He). cbn [snd trace].
      rewrite drop_app_length. discriminate.
  - intros Hnone. unfold saveUIAsset, bind at 1, get_document.
    rewrite Hnone. reflexivity.
Qed.

Lemma collect_updates_nil (doc : Dom.Document) :
  (forall el, In el doc -> Dom.has_id_prefix "uia-" el = true ->
              Js.includes "preview" (derived_key el) = true) ->
  collect_updates doc = [].
Proof.
  intros Hall. rewrite AdminProps.collect_updates_spec.
  rewrite AdminProps.filter_all_false; [reflexivity|].
  intros el Hel. destruct (Dom.has_id_prefix "uia-" el) eqn:Hp; [|reflexivity].
  rewrite (Hall el Hel Hp). reflexivity.
Qed.

(** X16. A batch save with nothing to save.  When the page has no element
    whose id starts with [uia-], or only ones whose derived key contains
    [preview], [saveAllUIAssets] still sends the write, with an empty list
    of updates; when the store accepts it the notification reports 0
    assets and the cache entry is removed. *)
Theorem empty_batch_is_still_sent (x : Exchange AdminData) (w : World) :
  (forall el, In el (document w) -> Dom.has_id_prefix "uia-" el = true ->
              Js.includes "preview" (derived_key el) = true) ->
  (exists rest,
      events (saveAllUIAssets x) w
      = EvFetch "PUT" "/admin/ui-assets" (UpdatesBody []) :: rest) /\
  (request_error x = None ->
   exists rest,
     events (saveAllUIAssets x) w
     = [EvFetch "PUT" "/admin/ui-assets" (UpdatesBody []);
        EvToast "Saved 0 UI assets! Refresh page to see changes." false;
        EvRemoveItem "em_ui_config"] ++ rest).
Proof.
  intros Hall. pose proof (collect_updates_nil _ Hall) as Hnil.
  assert (Hrun : saveAllUIAssets x w
                 = try_catch
                     (do _ <- adminApi_put "/admin/ui-assets" (UpdatesBody []) x;
                      do _ <- showAdminToast
                                "Saved 0 UI assets! Refresh page to see changes."
                                false;
                      removeItem "em_ui_config")
                     (fun e => showAdminToast (Js.message e) true) w).
  { unfold saveAllUIAssets, bind at 1, get_document. rewrite Hnil. reflexivity. }
  unfold events. rewrite Hrun.
  destruct (request_error x) as [e|] eqn:He.
  - rewrite (AdminProps.save_block_failed _ _ _ _ _ _ He). cbn [snd trace].
    rewrite drop_app_length. split; [eexists; reflexivity|discriminate].
  - rewrite (AdminProps.save_block_saved _ _ _ _ _ He). cbn [snd trace].
    rewrite drop_app_length. split; [eexists; reflexivity|].
    intros _. eexists. reflexivity.
Qed.

Lemma prefix_append (p s : string) : String.prefix p (p +:+ s) = true.
Proof.
  induction p as [|a p IH]; [destruct s; reflexivity|].
  rewrite HtmlProps.append_cons. cbn [String.prefix].
  destruct (Ascii.ascii_dec a a) as [_|Hne]; [exact IH|contradiction].
Qed.

(** X17. The single save and the batch save agree.  The id that
    [saveUIAsset(key)] looks up, [uia-] followed by the key, is turned
    back into the key by the batch; so when the element is found and the
    key does not contain [preview], the batch holds an update for that key
    with the very value the single save sends. *)
Theorem single_and_batch_save_agree
        (key : string) (x : Exchange AdminData) (w : World) (input : Dom.Element) :
  Dom.getElementById ("uia-" +:+ key) (document w) = Some input ->
  Js.includes "preview" key = false ->
  Js.replace "uia-" "" ("uia-" +:+ key) = key /\
  In (mkUpdate key (Dom.value input)) (collect_updates (document w)) /\
  exists rest,
    events (saveUIAsset key x) w
    = EvFetch "PUT" ("/admin/ui-assets/" +:+ key) (ValueBody (Dom.value input))
        :: rest.
Proof.
  intros Hin Hkey. destruct (getElementById_some _ _ _ Hin) as [Hel Hid].
  assert (Hd : derived_key input = key).
  { unfold derived_key. rewrite Hid. reflexivity. }
  split; [rewrite AdminProps.replace_prefix by apply prefix_append; reflexivity|].
  split.
  - rewrite AdminProps.collect_updates_spec. apply List.in_map_iff.
    exists input. rewrite Hd. split; [reflexivity|].
    apply List.filter_In. split; [exact Hel|].
    unfold Dom.has_id_prefix. rewrite Hid, Hd, Hkey, prefix_append. reflexivity.
  - unfold events, saveUIAsset, bind at 1, get_document. rewrite Hin.
    destruct (request_error x) as [e|] eqn:He.
    + rewrite (AdminProps.save_block_failed _ _ _ _ _ _ He). cbn [snd trace].
      rewrite drop_app_length. eexists. reflexivity.
    + rewrite (AdminProps.save_block_saved _ _ _ _ _ He). cbn [snd trace].
      rewrite drop_app_length. eexists. reflexivity.
Qed.

Lemma prefix_split (p s : string) :
  String.prefix p s = true -> s = p +:+ Js.drop_chars (String.length p) s.
Proof.
  revert s. induction p as [|a p IH]; intros s Hp; [reflexivity|].
  destruct s as [|b s]; [discriminate|]. cbn [String.prefix] in Hp.
  destruct (Ascii.ascii_dec a b) as [->|_]; [|discriminate].
  rewrite HtmlProps.append_cons. cbn [String.length Js.drop_chars].
  f_equal. apply IH, Hp.
Qed.

Lemma derived_key_inj (el1 el2 : Dom.Element) :
  Dom.has_id_prefix "uia-" el1 = true ->
  Dom.has_id_prefix "uia-" el2 = true ->
  derived_key el1 = derived_key el2 ->
  Dom.id el1 = Dom.id el2.
Proof.
  unfold Dom.has_id_prefix, derived_key.
  destruct (Dom.id el1) as [i1|]; [|discriminate].
  destruct (Dom.id el2) as [i2|]; [|discriminate].
  intros H1 H2 Hk. change (Js.drop_chars 4 i1 = Js.drop_chars 4 i2) in Hk.
  rewrite (prefix_split _ _ H1), (prefix_split _ _ H2).
  change (String.length "uia-") with 4. rewrite Hk. reflexivity.
Qed.

(** X18. A page whose [uia-] elements have distinct ids gives a batch
    with distinct keys: no key is written twice by one batch save. *)
Theorem batch_keys_are_distinct (doc : Dom.Document) :
  NoDup (map Dom.id (List.filter (Dom.has_id_prefix "uia-") doc)) ->
  NoDup (map u_key (collect_updates doc)).
Proof.
  intros Hids. rewrite AdminProps.collect_updates_spec.
  rewrite List.map_map. cbn [u_key].
  rewrite <- AdminProps.filter_filter.
  set (els := List.filter (Dom.has_id_prefix "uia-") doc) in *.
  assert (Hpre : forall el, In el els -> Dom.has_id_prefix "uia-" el = true).
  { intros el Hel. apply List.filter_In in Hel. apply Hel. }
  clearbody els. induction els as [|el els IH]; [constructor|].
  cbn [map] in Hids. apply NoDup_cons in Hids. destruct Hids as [Hnin Hids].
  cbn [List.filter].
  assert (IH' := IH Hids (fun e He => Hpre e (or_intror He))).
  destruct (negb (Js.includes "preview" (derived_key el))); [|exact IH'].
  cbn [map]. apply NoDup_cons. split; [|exact IH'].
  intros Hin. apply Hnin. apply list_elem_of_In in Hin.
  apply List.in_map_iff in Hin. destruct Hin as (b & Hkb & Hb).
  apply List.filter_In in Hb. destruct Hb as [Hb _].
  apply list_elem_of_In, List.in_map_iff. exists b. split; [|exact Hb].
  apply derived_key_inj; [apply Hpre; right; exact Hb|apply Hpre; left; reflexivity|].
  exact Hkb.
Qed.

(** ** The groups of [loadAdminUIAssets] form a partition *)

Lemma first_occurrences_NoDup (l : list string) : NoDup (first_occurrences l).
Proof.
  induction l as [|x l IH]; [constructor|]. cbn [first_occurrences].
  apply NoDup_cons. split.
  - intros Hin. apply list_elem_of_In, List.filter_In in Hin.
    destruct Hin as [_ Hne]. rewrite String.eqb_refl in Hne. discriminate.
  - apply NoDup_ListNoDup, List.NoDup_filter, NoDup_ListNoDup, IH.
Qed.

Lemma filter_split (A : Type) (f : A -> bool) (l : list A) :
  List.filter f l ++ List.filter (fun a => negb (f a)) l ≡ₚ l.
Proof.
  induction l as [|a l IH]; [reflexivity|]. cbn [List.filter].
  destruct (f a); cbn [negb app].
  - constructor. exact IH.
  - rewrite <- Permutation_middle. constructor. exact IH.
Qed.

Lemma in_section_filter (s s' : string) (l : list Asset) :
  s <> s' ->
  in_section s' (List.filter (fun a => negb (String.eqb (section a) s)) l)
  = in_section s' l.
Proof.
  intros Hne. unfold in_section. rewrite AdminProps.filter_filter.
  apply List.filter_ext. intros a.
  destruct (String.eqb_spec (section a) s) as [->|_]; cbn [negb andb]; [|reflexivity].
  destruct (String.eqb_spec s s'); [contradiction|reflexivity].
Qed.

Lemma groups_cover (ks : list string) (l : list Asset) :
  NoDup ks ->
  (forall a, In a l -> In (section a) ks) ->
  flat_map (fun s => in_section s l) ks ≡ₚ l.
Proof.
  revert l. induction ks as [|s ks IH]; intros l Hnd Hcov.
  - destruct l as [|a l]; [reflexivity|]. destruct (Hcov a (or_introl eq_refl)).
  - apply NoDup_cons in Hnd. destruct Hnd as [Hnin Hnd]. cbn [flat_map].
    etransitivity; [|apply (filter_split _ (fun a => String.eqb (section a) s) l)].
    apply Permutation_app; [reflexivity|].
    assert (Heq : flat_map (fun s' => in_section s' l) ks
                  = flat_map (fun s' =>
                      in_section s'
                        (List.filter (fun a => negb (String.eqb (section a) s)) l))
                      ks).
    { rewrite !List.flat_map_concat_map. f_equal. apply List.map_ext_in.
      intros s' Hs'. symmetry. apply in_section_filter.
      intros ->. apply Hnin, list_elem_of_In, Hs'. }
    rewrite Heq. apply IH; [exact Hnd|].
    intros a Ha. apply List.filter_In in Ha. destruct Ha as [Ha Hne].
    destruct (Hcov a Ha) as [Hs|Hin]; [|exact Hin].
    rewrite <- Hs, String.eqb_refl in Hne. discriminate.
Qed.

(** The grouping goes through exactly when no asset names an inherited
    member as its section, and then [grouped] is as without the
    prototype. *)
Lemma group_assets_ok (push_error : Js.Error) (assets : list Asset)
      (grouped : JsObject.Obj (list Asset)) :
  (forall a, In a assets -> AdminView.is_inherited (section a) = false) ->
  AdminView.group_assets push_error grouped assets
  = inr (fold_left group_asset assets grouped).
Proof.
  revert grouped. induction assets as [|a assets IH]; intros grouped Hown.
  - reflexivity.
  - cbn [AdminView.group_assets fold_left].
    rewrite (Hown a (or_introl eq_refl)). apply IH.
    intros b Hb. apply Hown. right. exact Hb.
Qed.

Lemma group_assets_broken (push_error : Js.Error) (assets : list Asset)
      (grouped : JsObject.Obj (list Asset)) (a : Asset) :
  In a assets -> AdminView.is_inherited (section a) = true ->
  AdminView.group_assets push_error grouped assets = inl push_error.
Proof.
  revert grouped. induction assets as [|b assets IH]; intros grouped Ha Hinh.
  - destruct Ha.
  - cbn [AdminView.group_assets].
    destruct (AdminView.is_inherited (section b)) eqn:Hb; [reflexivity|].
    destruct Ha as [->|Ha]; [congruence|]. apply IH; assumption.
Qed.

Lemma group_assets_inr (push_error : Js.Error) (assets : list Asset)
      (grouped : JsObject.Obj (list Asset)) :
  AdminView.group_assets push_error JsObject.empty assets = inr grouped ->
  (forall a, In a assets -> AdminView.is_inherited (section a) = false) /\
  JsObject.entries grouped = rendered_sections assets.
Proof.
  intros Hrun.
  assert (Hown : forall a, In a assets ->
                           AdminView.is_inherited (section a) = false).
  { intros a Ha. destruct (AdminView.is_inherited (section a)) eqn:Hinh;
      [|reflexivity].
    rewrite (group_assets_broken _ _ _ _ Ha Hinh) in Hrun. discriminate. }
  split; [exact Hown|].
  rewrite (group_assets_ok _ _ _ Hown) in Hrun. injection Hrun as <-.
  reflexivity.
Qed.

(** X19. When the grouping of [loadAdminUIAssets] goes through, the
    groups it renders partition the list of the store: no section is
    rendered twice, no rendered section is empty, a section holds exactly
    the assets that name it, and all groups together are the assets of
    the list, none lost and none repeated. *)
Theorem grouping_is_a_partition (push_error : Js.Error) (assets : list Asset)
        (grouped : JsObject.Obj (list Asset)) :
  AdminView.group_assets push_error JsObject.empty assets = inr grouped ->
  NoDup (map fst (JsObject.entries grouped)) /\
  (forall s g, In (s, g) (JsObject.entries grouped) ->
               g <> [] /\
               forall a, In a g <-> In a assets /\ section a = s) /\
  concat (map snd (JsObject.entries grouped)) ≡ₚ assets.
Proof.
  intros Hrun. destruct (group_assets_inr _ _ _ Hrun) as [_ ->]. clear Hrun.
  destruct (AdminProps.rendered_sections_order assets) as (Hrender & _ & _).
  set (fo := first_occurrences (map section assets)) in *.
  set (ks := merge_sort JsObject.index_le (List.filter JsObject.is_array_index fo)
             ++ List.filter (fun s => negb (JsObject.is_array_index s)) fo) in *.
  assert (Hperm : ks ≡ₚ fo).
  { unfold ks. rewrite merge_sort_Permutation. apply filter_split. }
  assert (Hks : forall s, In s ks <-> In s (map section assets)).
  { intros s. split; intros Hs.
    - apply AdminProps.first_occurrences_In.
      apply (Permutation_in _ Hperm), Hs.
    - apply (Permutation_in _ (Permutation_sym Hperm)).
      apply AdminProps.first_occurrences_In, Hs. }
  assert (Hmem : forall s a, In a (in_section s assets)
                             <-> In a assets /\ section a = s).
  { intros s a. unfold in_section. rewrite List.filter_In.
    destruct (String.eqb_spec (section a) s); intuition congruence. }
  rewrite Hrender. split; [|split].
  - rewrite List.map_map. cbn [fst]. rewrite List.map_id.
    rewrite Hperm. apply first_occurrences_NoDup.
  - intros s g Hin. apply List.in_map_iff in Hin.
    destruct Hin as (s' & Heq & Hs'). injection Heq as -> <-.
    split; [|apply Hmem].
    apply Hks, List.in_map_iff in Hs'. destruct Hs' as (a & Hsec & Ha).
    intros Hnil. assert (Hin : In a (in_section s assets)) by (apply Hmem; auto).
    rewrite Hnil in Hin. destruct Hin.
  - rewrite List.map_map. cbn [snd]. rewrite <- List.flat_map_concat_map.
    rewrite Hperm. apply groups_cover; [apply first_occurrences_NoDup|].
    intros a Ha. apply AdminProps.first_occurrences_In, List.in_map. exact Ha.
Qed.

(** ** The theorems at the sample editor *)

Lemma request_outcomes_witness :
  fst (adminApi_request "PUT" "/admin/ui-assets/nope" (ValueBody (Some "x"))
                        Samples.rejected Samples.admin_world)
  = Throw (Js.mkError "Error" "Unknown key").
Proof.
  destruct (request_outcomes "PUT" "/admin/ui-assets/nope" (ValueBody (Some "x"))
                             Samples.rejected Samples.admin_world)
    as (_ & _ & _ & Hfail).
  exact (Hfail (mkAdminData (Some "Unknown key") []) eq_refl).
Defined.

Lemma save_one_needs_its_input_witness :
  saveUIAsset "hero_title" Samples.accepted Samples.admin_world
  = (Ok tt, Samples.admin_world).
Proof.
  apply (proj2 (save_one_needs_its_input "hero_title" Samples.accepted
                  Samples.admin_world)).
  intros el Hel.
  repeat (destruct Hel as [<-|Hel]; [discriminate|]). destruct Hel.
Defined.

(** The sample page of the loader has no [uia-] element. *)
Lemma empty_batch_is_still_sent_witness :
  exists rest,
    events (saveAllUIAssets Samples.accepted)
           (Samples.world 0 Samples.cached_storage)
    = EvFetch "PUT" "/admin/ui-assets" (UpdatesBody []) :: rest.
Proof.
  destruct (empty_batch_is_still_sent Samples.accepted
              (Samples.world 0 Samples.cached_storage)) as [Hsent _].
  - intros el Hel.
    repeat (destruct Hel as [<-|Hel]; [discriminate|]). destruct Hel.
  - exact Hsent.
Defined.

Lemma single_and_batch_save_agree_witness :
  In (mkUpdate "footer_text" (Some "(c) 2024"))
     (collect_updates (document Samples.admin_world)).
Proof.
  destruct (single_and_batch_save_agree "footer_text" Samples.accepted
              Samples.admin_world
              (Samples.editor_element "uia-footer_text" "INPUT" (Some "(c) 2024"))
              eq_refl eq_refl) as (_ & Hin & _).
  exact Hin.
Defined.

Lemma grouping_is_a_partition_witness :
  concat (map snd (JsObject.entries (group_by_section Samples.named_sections)))
  ≡ₚ Samples.named_sections.
Proof.
  destruct (grouping_is_a_partition AdminView.not_a_function
              Samples.named_sections
              (group_by_section Samples.named_sections) eq_refl)
    as (_ & _ & Hall).
  exact Hall.
Defined.

Lemma batch_keys_are_distinct_witness :
  NoDup (map u_key (collect_updates Samples.editor)).
Proof.
  apply (batch_keys_are_distinct Samples.editor).
  apply (bool_decide_unpack _). vm_compute. exact I.
Defined.

End AdminExtra.

(* ===================================================================== *)
(** * Properties of the token fetch and of the rendering                  *)
(* ===================================================================== *)

Module AdminViewProps.
Import Runtime Admin Obs AdminView.

(** X20. [fetchCsrfToken] never raises and makes one request.  When the
    body is a JSON value other than [null] the token becomes its
    [csrf_token] member, whatever the status of the response and even if
    the member is missing; in every other case (no response, a body that
    does not parse, [null]) the token is kept and one warning is logged. *)
Theorem csrf_token_fetch
        (csrfToken : option string) (x : Exchange CsrfData) (w : World) :
  (forall ok token,
      reply x = Response ok (inr (CsrfObject token)) ->
      fetchCsrfToken csrfToken x w
      = (Ok token,
         mkWorld (clock w + latency x) (storage w) (document w) (uiConfig w)
                 (trace w ++ [EvFetch "GET" "/auth/csrf-token" NoBody]))) /\
  ((forall ok token, reply x <> Response ok (inr (CsrfObject token))) ->
   fetchCsrfToken csrfToken x w
   = (Ok csrfToken,
      mkWorld (clock w + latency x) (storage w) (document w) (uiConfig w)
              (trace w ++ [EvFetch "GET" "/auth/csrf-token" NoBody;
                           EvWarn "[Admin] Could not fetch CSRF token"]))).
Proof.
  unfold fetchCsrfToken. LoaderProps.run_js.
  destruct (reply x) as [e|ok [e|[|token]]]; LoaderProps.run_js; split.
  - intros ok token H. discriminate H.
  - intros _. rewrite <- app_assoc. reflexivity.
  - intros ok' token H. discriminate H.
  - intros _. rewrite <- app_assoc. reflexivity.
  - intros ok' token H. discriminate H.
  - intros _. rewrite <- app_assoc. reflexivity.
  - intros ok' token' H. injection H as _ <-. reflexivity.
  - intros Hno. exfalso. apply (Hno ok token). reflexivity.
Qed.

(** ** The container *)

Lemma set_innerHTML_of_lookup (i v : string) (doc : Dom.Document) :
  Dom.getElementById i (set_innerHTML_of i v doc)
  = Dom.set_innerHTML v <$> Dom.getElementById i doc.
Proof.
  unfold Dom.getElementById.
  induction doc as [|el doc IH]; [reflexivity|]. cbn [set_innerHTML_of List.find].
  destruct (bool_decide (Dom.id el = Some i)) eqn:Hid.
  - cbn [List.find Dom.set_innerHTML Dom.id]. rewrite Hid. reflexivity.
  - cbn [List.find]. rewrite Hid. exact IH.
Qed.

Lemma set_innerHTML_of_twice (i v1 v2 : string) (doc : Dom.Document) :
  set_innerHTML_of i v2 (set_innerHTML_of i v1 doc) = set_innerHTML_of i v2 doc.
Proof.
  induction doc as [|el doc IH]; [reflexivity|]. cbn [set_innerHTML_of].
  destruct (bool_decide (Dom.id el = Some i)) eqn:Hid.
  - cbn [set_innerHTML_of Dom.set_innerHTML Dom.id]. rewrite Hid. reflexivity.
  - cbn [set_innerHTML_of]. rewrite Hid, IH. reflexivity.
Qed.

(** ** Substrings of the rendered markup *)

Lemma prefix_nil (s : string) : String.prefix EmptyString s = true.
Proof. destruct s; reflexivity. Qed.

Lemma prefix_app_l (n s t : string) :
  String.prefix n s = true -> String.prefix n (s +:+ t) = true.
Proof.
  revert n. induction s as [|a s IH]; intros n Hn.
  - destruct n; [apply prefix_nil|discriminate].
  - destruct n as [|b n]; [reflexivity|].
    rewrite HtmlProps.append_cons. cbn [String.prefix] in *.
    destruct (Ascii.ascii_dec b a); [apply IH, Hn|discriminate].
Qed.

Lemma includes_cons (n : string) (a : Ascii.ascii) (s : string) :
  Js.includes n (String a s) = String.prefix n (String a s) || Js.includes n s.
Proof. reflexivity. Qed.

Lemma includes_app_r (n p s : string) :
  Js.includes n s = true -> Js.includes n (p +:+ s) = true.
Proof.
  intros Hs. induction p as [|a p IH]; [exact Hs|].
  rewrite HtmlProps.append_cons, includes_cons, IH. apply orb_true_r.
Qed.

Lemma includes_app_l (n s t : string) :
  Js.includes n s = true -> Js.includes n (s +:+ t) = true.
Proof.
  induction s as [|a s IH]; intros Hs.
  - destruct n; [|discriminate]. destruct t; reflexivity.
  - rewrite HtmlProps.append_cons, includes_cons.
    rewrite includes_cons in Hs. apply orb_true_iff in Hs.
    destruct Hs as [Hp|Hs].
    + rewrite <- HtmlProps.append_cons, (prefix_app_l _ _ _ Hp). reflexivity.
    + rewrite (IH Hs). apply orb_true_r.
Qed.

Lemma includes_refl (n : string) : Js.includes n n = true.
Proof.
  destruct n as [|a n]; [reflexivity|]. rewrite includes_cons.
  rewrite <- (HtmlProps.append_nil_r (String a n)) at 2.
  rewrite AdminExtra.prefix_append. reflexivity.
Qed.

Lemma concat_cons (x : string) (l : list string) :
  String.concat "" (x :: l) = x +:+ String.concat "" l.
Proof.
  destruct l; cbn [String.concat]; [rewrite HtmlProps.append_nil_r|]; reflexivity.
Qed.

Lemma includes_concat (n s : string) (l : list string) :
  In s l -> Js.includes n s = true -> Js.includes n (String.concat "" l) = true.
Proof.
  intros Hin Hs. induction l as [|x l IH]; [destruct Hin|].
  rewrite concat_cons. destruct Hin as [->|Hin].
  - apply includes_app_l, Hs.
  - apply includes_app_r, IH, Hin.
Qed.

(** Finds [H : includes n part = true] inside a chain of appends. *)
Ltac find_part H :=
  first [ exact H
        | apply includes_app_l; exact H
        | apply includes_app_r; find_part H ].

Lemma includes_start (a b c d e r : string) :
  Js.includes (a +:+ b +:+ c +:+ d +:+ e) (a +:+ b +:+ c +:+ d +:+ e +:+ r) = true.
Proof.
  replace (a +:+ b +:+ c +:+ d +:+ e +:+ r) with ((a +:+ b +:+ c +:+ d +:+ e) +:+ r)
    by (rewrite !HtmlProps.append_assoc; reflexivity).
  apply includes_app_l, includes_refl.
Qed.

Lemma input_start_in_input (a : Asset) :
  Js.includes (input_start a) (input_markup a) = true.
Proof.
  unfold input_markup, input_start. destruct (String.eqb (asset_type a) "image").
  - unfold image_input.
    change (markup "^ style=^flex:1;^ placeholder=^Image URL^ oninput=^document.getElementById('uia-preview-")
      with (Html.dquote +:+ markup " style=^flex:1;^ placeholder=^Image URL^ oninput=^document.getElementById('uia-preview-").
    do 8 apply includes_app_r.
    rewrite ?HtmlProps.append_assoc. apply includes_start.
  - unfold text_input.
    change (markup "^ style=^width:100%;^>")
      with (Html.dquote +:+ markup " style=^width:100%;^>").
    rewrite ?HtmlProps.append_assoc. apply includes_start.
Qed.

Lemma input_start_in_row (a : Asset) :
  Js.includes (input_start a) (asset_row a) = true.
Proof.
  pose proof (input_start_in_input a) as H. unfold asset_row. find_part H.
Qed.

Section Rendering.
Variable toUpperCase : string -> string.
Variable push_error : Js.Error.

Lemma render_concat (assets : list Asset) :
  render toUpperCase assets
  = String.concat "" (map (section_block toUpperCase) (rendered_sections assets)).
Proof.
  unfold render, render_entries.
  assert (H : forall l acc,
             fold_left (fun html entry => html +:+ section_block toUpperCase entry)
                       l acc
             = acc +:+ String.concat "" (map (section_block toUpperCase) l)).
  { induction l as [|e l IH]; intros acc.
    - cbn. rewrite HtmlProps.append_nil_r. reflexivity.
    - cbn [fold_left map]. rewrite IH, concat_cons, HtmlProps.append_assoc.
      reflexivity. }
  rewrite H. reflexivity.
Qed.

Lemma request_error_none (x : Exchange AdminData) :
  request_error x = None -> exists d, reply x = Response true (inr d).
Proof.
  unfold request_error. destruct (reply x) as [e|[] [e|d]]; try discriminate.
  eauto.
Qed.

Lemma load_assets_failed (x : Exchange AdminData) (w : World)
      (c : Dom.Element) (e : Js.Error) :
  Dom.getElementById CONTAINER (document w) = Some c ->
  request_error x = Some e ->
  loadAdminUIAssets toUpperCase push_error x w
  = (Ok tt,
     mkWorld (clock w + latency x) (storage w)
             (set_innerHTML_of CONTAINER
                (markup "<p style=^color:red;padding:20px;^>"
                   +:+ Js.message e +:+ "</p>")
                (document w))
             (uiConfig w)
             (trace w ++ [EvFetch "GET" "/admin/ui-assets" NoBody])).
Proof.
  intros Hc He. unfold loadAdminUIAssets, bind at 1, get_document. rewrite Hc.
  unfold bind at 1, set_container, bind at 1, get_document, set_document.
  unfold try_catch, bind at 1, adminApi_get.
  rewrite (AdminProps.request_rejected _ _ _ _ _ _ He).
  unfold set_container, bind, get_document, set_document.
  cbn [clock storage document uiConfig trace].
  rewrite set_innerHTML_of_twice. reflexivity.
Qed.

Lemma load_assets_listed (x : Exchange AdminData) (w : World)
      (c : Dom.Element) (d : AdminData) :
  Dom.getElementById CONTAINER (document w) = Some c ->
  reply x = Response true (inr d) ->
  (forall a, In a (d_assets d) -> is_inherited (section a) = false) ->
  loadAdminUIAssets toUpperCase push_error x w
  = (Ok tt,
     mkWorld (clock w + latency x) (storage w)
             (set_innerHTML_of CONTAINER (render toUpperCase (d_assets d))
                               (document w))
             (uiConfig w)
             (trace w ++ [EvFetch "GET" "/admin/ui-assets" NoBody])).
Proof.
  intros Hc Hr Hown. unfold loadAdminUIAssets, bind at 1, get_document. rewrite Hc.
  unfold bind at 1, set_container, bind at 1, get_document, set_document.
  unfold try_catch, bind at 1, adminApi_get, adminApi_request.
  LoaderProps.run_js. rewrite Hr. LoaderProps.run_js.
  rewrite (AdminExtra.group_assets_ok _ _ _ Hown). cbv beta iota.
  cbn [clock storage document uiConfig trace].
  rewrite set_innerHTML_of_twice. reflexivity.
Qed.

Lemma load_assets_broken (x : Exchange AdminData) (w : World)
      (c : Dom.Element) (d : AdminData) (a : Asset) :
  Dom.getElementById CONTAINER (document w) = Some c ->
  reply x = Response true (inr d) ->
  In a (d_assets d) -> is_inherited (section a) = true ->
  loadAdminUIAssets toUpperCase push_error x w
  = (Ok tt,
     mkWorld (clock w + latency x) (storage w)
             (set_innerHTML_of CONTAINER
                (markup "<p style=^color:red;padding:20px;^>"
                   +:+ Js.message push_error +:+ "</p>")
                (document w))
             (uiConfig w)
             (trace w ++ [EvFetch "GET" "/admin/ui-assets" NoBody])).
Proof.
  intros Hc Hr Ha Hinh. unfold loadAdminUIAssets, bind at 1, get_document. rewrite Hc.
  unfold bind at 1, set_container, bind at 1, get_document, set_document.
  unfold try_catch, bind at 1, adminApi_get, adminApi_request.
  LoaderProps.run_js. rewrite Hr. LoaderProps.run_js.
  rewrite (AdminExtra.group_assets_broken _ _ _ _ Ha Hinh). cbv beta iota.
  LoaderProps.run_js.
  rewrite set_innerHTML_of_twice. reflexivity.
Qed.

(** With the container on the page every run has the same shape. *)
Lemma load_assets_run (x : Exchange AdminData) (w : World) (c : Dom.Element) :
  Dom.getElementById CONTAINER (document w) = Some c ->
  exists html,
    loadAdminUIAssets toUpperCase push_error x w
    = (Ok tt,
       mkWorld (clock w + latency x) (storage w)
               (set_innerHTML_of CONTAINER html (document w))
               (uiConfig w)
               (trace w ++ [EvFetch "GET" "/admin/ui-assets" NoBody])).
Proof.
  intros Hc. destruct (request_error x) as [e|] eqn:He.
  { eexists. apply (load_assets_failed _ _ _ _ Hc He). }
  destruct (request_error_none _ He) as [d Hr].
  destruct (forallb (fun a => negb (is_inherited (section a))) (d_assets d))
    eqn:Hall.
  - eexists. apply (load_assets_listed _ _ _ _ Hc Hr).
    intros a Ha. rewrite List.forallb_forall in Hall.
    specialize (Hall a Ha). destruct (is_inherited (section a)); [discriminate|reflexivity].
  - assert (Hex : exists a, In a (d_assets d) /\ is_inherited (section a) = true).
    { clear -Hall. induction (d_assets d) as [|b l IH]; [discriminate|].
      cbn [forallb] in Hall. destruct (is_inherited (section b)) eqn:Hb.
      - exists b. split; [left; reflexivity|exact Hb].
      - cbn in Hall. destruct (IH Hall) as (a & Ha & Hinh).
        exists a. split; [right; exact Ha|exact Hinh]. }
    destruct Hex as (a & Ha & Hinh).
    eexists. apply (load_assets_broken _ _ _ _ _ Hc Hr Ha Hinh).
Qed.

(** The container is there exactly when some element has its id. *)
Lemma container_found (doc : Dom.Document) :
  (exists el, In el doc /\ Dom.id el = Some CONTAINER) ->
  exists c, Dom.getElementById CONTAINER doc = Some c.
Proof.
  intros (el & Hel & Hid).
  destruct (Dom.getElementById CONTAINER doc) as [c|] eqn:Hc; [eauto|].
  exfalso. apply (proj1 (AdminExtra.getElementById_none _ _) Hc el Hel Hid).
Qed.


(** X21. [loadAdminUIAssets] does nothing at all, with no request made,
    exactly when the page has no element with the id of the container. *)
Theorem assets_list_needs_container (x : Exchange AdminData) (w : World) :
  loadAdminUIAssets toUpperCase push_error x w = (Ok tt, w) <->
  forall el, In el (document w) -> Dom.id el <> Some CONTAINER.
Proof.
  rewrite <- AdminExtra.getElementById_none. split.
  - intros Hrun.
    destruct (Dom.getElementById CONTAINER (document w)) as [c|] eqn:Hc;
      [exfalso|reflexivity].
    assert (Htr : trace (snd (loadAdminUIAssets toUpperCase push_error x w)) = trace w)
      by (rewrite Hrun; reflexivity).
    revert Htr. destruct (load_assets_run x w c Hc) as [html ->].
    cbn [snd trace]. intros Htr. apply (f_equal length) in Htr.
    rewrite length_app in Htr. cbn in Htr. lia.
  - intros Hnone. unfold loadAdminUIAssets, bind at 1, get_document.
    rewrite Hnone. reflexivity.
Qed.

(** X22. The list of the editor is read fresh.  With the container on
    the page, [loadAdminUIAssets] makes exactly one call, the request
    [GET /admin/ui-assets]; it never reads or writes session storage,
    shows no notification, leaves [window.__uiConfig] alone and never
    raises, whatever the answer. *)
Theorem assets_list_is_read_fresh (x : Exchange AdminData) (w : World) :
  (exists el, In el (document w) /\ Dom.id el = Some CONTAINER) ->
  fst (loadAdminUIAssets toUpperCase push_error x w) = Ok tt /\
  events (loadAdminUIAssets toUpperCase push_error x) w
  = [EvFetch "GET" "/admin/ui-assets" NoBody] /\
  storage (snd (loadAdminUIAssets toUpperCase push_error x w)) = storage w /\
  uiConfig (snd (loadAdminUIAssets toUpperCase push_error x w)) = uiConfig w.
Proof.
  intros Hex. destruct (container_found _ Hex) as [c Hc]. unfold events.
  destruct (load_assets_run x w c Hc) as [html ->].
  cbn [fst snd trace storage uiConfig].
  rewrite drop_app_length. repeat split.
Qed.

(** X23. What the container shows in the end.  After an answer that
    lists assets, none of them under a section named like an inherited
    member of [grouped], the container holds the rendered sections; after
    a failed request it holds a paragraph with the message of the error.
    The container is otherwise the element it was. *)
Theorem assets_list_outcome (x : Exchange AdminData) (w : World) (c : Dom.Element) :
  Dom.getElementById CONTAINER (document w) = Some c ->
  (forall d, reply x = Response true (inr d) ->
             (forall a, In a (d_assets d) -> is_inherited (section a) = false) ->
             Dom.getElementById CONTAINER
               (document (snd (loadAdminUIAssets toUpperCase push_error x w)))
             = Some (Dom.set_innerHTML (render toUpperCase (d_assets d)) c)) /\
  (forall e, request_error x = Some e ->
             Dom.getElementById CONTAINER
               (document (snd (loadAdminUIAssets toUpperCase push_error x w)))
             = Some (Dom.set_innerHTML
                       (markup "<p style=^color:red;padding:20px;^>"
                          +:+ Js.message e +:+ "</p>") c)).
Proof.
  intros Hc. split.
  - intros d Hr Hown. rewrite (load_assets_listed _ _ _ _ Hc Hr Hown). cbn [snd document].
    rewrite set_innerHTML_of_lookup, Hc. reflexivity.
  - intros e He. rewrite (load_assets_failed _ _ _ _ Hc He). cbn [snd document].
    rewrite set_innerHTML_of_lookup, Hc. reflexivity.
Qed.

Lemma section_rendered (assets : list Asset) (a : Asset) :
  In a assets ->
  In (section a, in_section (section a) assets) (rendered_sections assets).
Proof.
  intros Ha. destruct (AdminProps.rendered_sections_order assets) as (Hr & _ & _).
  rewrite Hr. apply List.in_map_iff. exists (section a). split; [reflexivity|].
  assert (Hfo : In (section a) (first_occurrences (map section assets))).
  { apply AdminProps.first_occurrences_In, List.in_map, Ha. }
  apply List.in_or_app.
  destruct (JsObject.is_array_index (section a)) eqn:Hidx.
  - left. apply (Permutation_in _ (Permutation_sym (merge_sort_Permutation _ _))).
    apply List.filter_In. auto.
  - right. apply List.filter_In. rewrite Hidx. auto.
Qed.

Lemma input_start_in_render (assets : list Asset) (a : Asset) :
  In a assets ->
  Js.includes (input_start a) (render toUpperCase assets) = true.
Proof.
  intros Ha. rewrite render_concat.
  apply (includes_concat _
           (section_block toUpperCase (section a, in_section (section a) assets))).
  - apply List.in_map, section_rendered, Ha.
  - assert (Hrow : Js.includes (input_start a)
                     (String.concat ""
                        (map asset_row (in_section (section a) assets))) = true).
    { apply (includes_concat _ (asset_row a)); [|apply input_start_in_row].
      apply List.in_map. unfold in_section. apply List.filter_In.
      split; [exact Ha|apply String.eqb_refl]. }
    unfold section_block. cbn [fst snd]. find_part Hrow.
Qed.

(** X24. Every asset of the answer gets its input.  After an answer
    that lists assets, none of them under a section named like an
    inherited member, the markup put into the container holds, for each
    listed asset, an [input] whose id is [uia-] followed by the key, the
    id that [saveUIAsset] and [saveAllUIAssets] look for, and whose value
    attribute is the escaped value of the asset, closed by a quote that
    the escaped value cannot contain. *)
Theorem every_asset_gets_its_input
        (x : Exchange AdminData) (w : World) (c : Dom.Element)
        (d : AdminData) (a : Asset) :
  Dom.getElementById CONTAINER (document w) = Some c ->
  reply x = Response true (inr d) ->
  (forall b, In b (d_assets d) -> is_inherited (section b) = false) ->
  In a (d_assets d) ->
  exists html,
    Dom.content <$> Dom.getElementById CONTAINER
                      (document (snd (loadAdminUIAssets toUpperCase push_error x w)))
    = Some (Dom.InnerHTML html) /\
    Js.includes (input_start a) html = true /\
    Html.occurs Html.dquote_char
                (Html.escHtml (Js.or_else (asset_value a) "")) = false.
Proof.
  intros Hc Hr Hown Ha. exists (render toUpperCase (d_assets d)).
  rewrite (load_assets_listed _ _ _ _ Hc Hr Hown). cbn [snd document].
  rewrite set_innerHTML_of_lookup, Hc. split; [reflexivity|].
  split; [apply input_start_in_render, Ha|].
  apply HtmlProps.occurs_escHtml. auto.
Qed.

(** X25. One asset under a section named like a member that [grouped]
    inherits ([constructor], [toString], [__proto__], ...) breaks the
    whole list: the store answered with a success, yet no section is
    rendered, for that asset or any other, and the container holds the
    paragraph with the [TypeError] of the failed [push]. *)
Theorem inherited_section_breaks_listing
        (x : Exchange AdminData) (w : World) (c : Dom.Element)
        (d : AdminData) (a : Asset) :
  Dom.getElementById CONTAINER (document w) = Some c ->
  reply x = Response true (inr d) ->
  In a (d_assets d) ->
  In (section a) inherited ->
  fst (loadAdminUIAssets toUpperCase push_error x w) = Ok tt /\
  Dom.getElementById CONTAINER
    (document (snd (loadAdminUIAssets toUpperCase push_error x w)))
  = Some (Dom.set_innerHTML
            (markup "<p style=^color:red;padding:20px;^>"
               +:+ Js.message push_error +:+ "</p>") c).
Proof.
  intros Hc Hr Ha Hinh.
  assert (Hb : is_inherited (section a) = true).
  { apply bool_decide_eq_true, list_elem_of_In, Hinh. }
  rewrite (load_assets_broken _ _ _ _ _ Hc Hr Ha Hb). cbn [fst snd document].
  rewrite set_innerHTML_of_lookup, Hc. split; reflexivity.
Qed.

End Rendering.

(** ** The theorems at a page with the container *)

Lemma csrf_token_fetch_witness :
  fst (fetchCsrfToken None token_granted (Samples.world 0 Samples.empty_storage))
  = Ok (Some "t0k3n").
Proof.
  destruct (csrf_token_fetch None token_granted
              (Samples.world 0 Samples.empty_storage)) as [Hset _].
  rewrite (Hset true (Some "t0k3n") eq_refl). reflexivity.
Defined.

(** The sample page of the loader has no container. *)
Lemma assets_list_needs_container_witness :
  loadAdminUIAssets (fun s => s) not_a_function listing (Samples.world 0 Samples.empty_storage)
  = (Ok tt, Samples.world 0 Samples.empty_storage).
Proof.
  apply (proj2 (assets_list_needs_container (fun s => s) not_a_function listing
                  (Samples.world 0 Samples.empty_storage))).
  intros el Hel.
  repeat (destruct Hel as [<-|Hel]; [discriminate|]). destruct Hel.
Defined.

Lemma assets_list_is_read_fresh_witness :
  events (loadAdminUIAssets (fun s => s) not_a_function listing)
         (mkWorld 0 Samples.cached_storage container_page None [])
  = [EvFetch "GET" "/admin/ui-assets" NoBody].
Proof.
  destruct (assets_list_is_read_fresh (fun s => s) not_a_function listing
              (mkWorld 0 Samples.cached_storage container_page None []))
    as (_ & Hev & _).
  - exists (Samples.editor_element CONTAINER "DIV" None).
    split; [left; reflexivity|reflexivity].
  - exact Hev.
Defined.

Lemma assets_list_outcome_witness :
  Dom.getElementById CONTAINER
    (document (snd (loadAdminUIAssets (fun s => s) not_a_function listing
                      (mkWorld 0 Samples.cached_storage container_page None []))))
  = Some (Dom.set_innerHTML (render (fun s => s) Samples.named_sections)
            (Samples.editor_element CONTAINER "DIV" None)).
Proof.
  destruct (assets_list_outcome (fun s => s) not_a_function listing
              (mkWorld 0 Samples.cached_storage container_page None [])
              (Samples.editor_element CONTAINER "DIV" None) eq_refl)
    as [Hlisted _].
  apply (Hlisted (mkAdminData None Samples.named_sections) eq_refl).
  intros a Ha. cbn [d_assets] in Ha.
  repeat (destruct Ha as [<-|Ha]; [reflexivity|]). destruct Ha.
Defined.

Lemma every_asset_gets_its_input_witness :
  exists html,
    Dom.content <$> Dom.getElementById CONTAINER
      (document (snd (loadAdminUIAssets (fun s => s) not_a_function listing
                        (mkWorld 0 Samples.cached_storage container_page None []))))
    = Some (Dom.InnerHTML html) /\
    Js.includes (input_start (Samples.asset "footer_text" "footer")) html = true.
Proof.
  destruct (every_asset_gets_its_input (fun s => s) not_a_function listing
              (mkWorld 0 Samples.cached_storage container_page None [])
              (Samples.editor_element CONTAINER "DIV" None)
              (mkAdminData None Samples.named_sections)
              (Samples.asset "footer_text" "footer")
              eq_refl eq_refl)
    as (html & Hc & Hin & _).
  - intros b Hb. cbn [d_assets] in Hb.
    repeat (destruct Hb as [<-|Hb]; [reflexivity|]). destruct Hb.
  - right. left. reflexivity.
  - exists html. exact (conj Hc Hin).
Defined.

(** A store that files one asset under [constructor]. *)
Lemma inherited_section_breaks_listing_witness :
  Dom.content <$> Dom.getElementById CONTAINER
    (document (snd (loadAdminUIAssets (fun s => s) not_a_function
                      (mkExchange 30
                         (Response true
                            (inr (mkAdminData None
                                    [Samples.asset "hero_title" "hero";
                                     Samples.asset "built_by" "constructor"]))))
                      (mkWorld 0 Samples.cached_storage container_page None []))))
  = Some (Dom.InnerHTML
            (markup "<p style=^color:red;padding:20px;^>"
               +:+ "grouped[a.section].push is not a function" +:+ "</p>")).
Proof.
  destruct (inherited_section_breaks_listing (fun s => s) not_a_function
              (mkExchange 30
                 (Response true
                    (inr (mkAdminData None
                            [Samples.asset "hero_title" "hero";
                             Samples.asset "built_by" "constructor"]))))
              (mkWorld 0 Samples.cached_storage container_page None [])
              (Samples.editor_element CONTAINER "DIV" None)
              (mkAdminData None
                 [Samples.asset "hero_title" "hero";
                  Samples.asset "built_by" "constructor"])
              (Samples.asset "built_by" "constructor")
              eq_refl eq_refl)
    as [_ Hshown].
  - right. left. reflexivity.
  - left. reflexivity.
  - rewrite Hshown. reflexivity.
Defined.

End AdminViewProps.

(* ===================================================================== *)
(** * [applyConfig] on the page as a tree                                 *)
(* ===================================================================== *)

Module PageProps.
Import Runtime Page.

(** ** Paths *)

(** The path starts with an index smaller than [i]. *)
Definition starts_before (i : nat) (q : Path) : Prop :=
  match q with
  | [] => False
  | j :: _ => j < i
  end.

Lemma detached_app (g1 g2 : list Path) (p : Path) :
  detached (g1 ++ g2) p = detached g1 p || detached g2 p.
Proof. apply existsb_app. Qed.

Lemma detached_below (i : nat) (g : list Path) (p : Path) :
  detached (map (cons i) g) (i :: p) = detached g p.
Proof.
  unfold detached. induction g as [|q g IH]; [reflexivity|].
  cbn [map existsb below]. rewrite IH, Nat.eqb_refl. reflexivity.
Qed.

Lemma detached_before (i j : nat) (gone : list Path) (p : Path) :
  Forall (starts_before i) gone -> i <= j -> detached gone (j :: p) = false.
Proof.
  unfold detached. intros Hgone Hij.
  induction Hgone as [|q gone Hq _ IH]; [reflexivity|].
  cbn [existsb]. rewrite IH, orb_false_r.
  destruct q as [|k q]; [destruct Hq|]. cbn [below starts_before] in *.
  destruct (Nat.eqb_spec k j); [lia|reflexivity].
Qed.

Lemma detached_inside (g : list Path) (p : Path) :
  In [] g -> p <> [] -> detached g p = true.
Proof.
  intros Hg Hp. apply existsb_exists. exists []. split; [exact Hg|].
  destruct p; [contradiction|reflexivity].
Qed.

Lemma indexed_paths_nonempty (i : nat) (l : list Node) :
  Forall (fun p => p <> []) (indexed_paths selected i l).
Proof.
  revert i. induction l as [|x l IH]; intros i; cbn [indexed_paths].
  - constructor.
  - apply Forall_app. split; [|apply IH].
    apply Forall_forall. intros p Hp. apply list_elem_of_In, List.in_map_iff in Hp.
    destruct Hp as (q & <- & _). discriminate.
Qed.

Section Apply.
Variable member_text : string -> string.
Variable parse : string -> list Node.

Abbreviation cb config := (callback member_text parse config).
Abbreviation settle config := (apply_node member_text parse config).
Abbreviation round config := (visit member_text parse config).

(** ** The loop, node by node *)

(** The node at a path that starts at a node: the empty path is the node
    itself. *)
Definition node_at (p : Path) (n : Node) : option Node :=
  match p, n with
  | [], _ => Some n
  | _ :: _, ElementNode _ children => at_path p children
  | _ :: _, _ => None
  end.

(** A round of the loop on the elements of one node. *)
Definition visit_node (config : Snapshot) (st : Node * list Path) (p : Path)
  : Node * list Path :=
  if detached (snd st) p then st
  else
    match node_at p (fst st) with
    | Some (ElementNode el _) =>
        (update (cb config) p (fst st),
         if replaced member_text config el then p :: snd st else snd st)
    | _ => st
    end.

Lemma at_path_middle (done rest : list Node) (n : Node) (p : Path) :
  at_path (length done :: p) (done ++ n :: rest) = node_at p n.
Proof.
  cbn [at_path]. rewrite list_lookup_middle by reflexivity.
  destruct p, n; reflexivity.
Qed.

Lemma update_page_middle (config : Snapshot) (done rest : list Node)
      (n : Node) (p : Path) :
  update_page (cb config) (length done :: p) (done ++ n :: rest)
  = done ++ update (cb config) p n :: rest.
Proof.
  cbn [update_page]. rewrite alter_app_r_alt by lia.
  rewrite Nat.sub_diag. reflexivity.
Qed.

(** The rounds on the elements of one node of the page are the rounds on
    that node. *)
Lemma visit_below (config : Snapshot) (ps : list Path)
      (done rest : list Node) (gone : list Path) :
  Forall (starts_before (length done)) gone ->
  forall n g,
    fold_left (round config) (map (cons (length done)) ps)
              (done ++ n :: rest, map (cons (length done)) g ++ gone)
    = (done ++ fst (fold_left (visit_node config) ps (n, g)) :: rest,
       map (cons (length done)) (snd (fold_left (visit_node config) ps (n, g)))
         ++ gone).
Proof.
  intros Hgone. induction ps as [|p ps IH]; intros n g; [reflexivity|].
  cbn [map fold_left].
  assert (Hstep : round config (done ++ n :: rest,
                                map (cons (length done)) g ++ gone)
                        (length done :: p)
                  = (done ++ fst (visit_node config (n, g) p) :: rest,
                     map (cons (length done)) (snd (visit_node config (n, g) p))
                       ++ gone)).
  { unfold visit, visit_node. cbn [fst snd].
    rewrite detached_app, detached_below.
    rewrite (detached_before _ _ _ _ Hgone) by lia. rewrite orb_false_r.
    destruct (detached g p); [reflexivity|].
    rewrite at_path_middle.
    destruct (node_at p n) as [[s|el children]|]; try reflexivity.
    rewrite update_page_middle. cbn [fst snd].
    destruct (replaced member_text config el); reflexivity. }
  rewrite Hstep.
  destruct (visit_node config (n, g) p) as [n' g'] eqn:Hv. cbn [fst snd].
  apply IH.
Qed.

(** The rounds on the elements inside an element are the rounds on its
    child nodes. *)
Lemma visit_node_children (config : Snapshot) (el : Element) (ps : list Path) :
  Forall (fun p => p <> []) ps ->
  forall children g,
    fold_left (visit_node config) ps (ElementNode el children, g)
    = (ElementNode el (fst (fold_left (round config) ps (children, g))),
       snd (fold_left (round config) ps (children, g))).
Proof.
  intros Hps. induction Hps as [|p ps Hp _ IH]; intros children g; [reflexivity|].
  cbn [fold_left].
  assert (Hstep : visit_node config (ElementNode el children, g) p
                  = (ElementNode el (fst (round config (children, g) p)),
                     snd (round config (children, g) p))).
  { destruct p as [|i p]; [contradiction|].
    unfold visit, visit_node. cbn [fst snd node_at].
    destruct (detached g (i :: p)); [reflexivity|].
    destruct (at_path (i :: p) children) as [[s|el' children']|]; reflexivity. }
  rewrite Hstep.
  destruct (round config (children, g) p) as [children' g']. cbn [fst snd].
  apply IH.
Qed.

(** Once the content of an element is replaced, the rounds on the
    elements that were inside change nothing. *)
Lemma visit_node_detached (config : Snapshot) (ps : list Path)
      (n : Node) (g : list Path) :
  In [] g -> Forall (fun p => p <> []) ps ->
  fold_left (visit_node config) ps (n, g) = (n, g).
Proof.
  intros Hg Hps. induction Hps as [|p ps Hp _ IH]; [reflexivity|].
  cbn [fold_left]. unfold visit_node at 2. cbn [snd].
  rewrite (detached_inside _ _ Hg Hp). exact IH.
Qed.

(** The paths of a list of nodes, visited in order, do to each node what
    its own paths do to it. *)
Lemma visit_indexed (config : Snapshot) (l : list Node) :
  Forall (fun c => exists g,
              fold_left (visit_node config) (selected c) (c, [])
              = (settle config c, g)) l ->
  forall done gone,
    Forall (starts_before (length done)) gone ->
    exists gone',
      fold_left (round config) (indexed_paths selected (length done) l)
                (done ++ l, gone)
      = (done ++ map (settle config) l, gone').
Proof.
  intros Hl. induction Hl as [|c l [g Hc] _ IH]; intros done gone Hgone.
  - exists gone. reflexivity.
  - cbn [indexed_paths map]. rewrite fold_left_app.
    pose proof (visit_below config (selected c) done l gone Hgone c []) as Hb.
    cbn [map app] in Hb. rewrite Hb, Hc. cbn [fst snd].
    destruct (IH (done ++ [settle config c])
                 (map (cons (length done)) g ++ gone)) as [gone' Hrest].
    { rewrite length_app. cbn [length]. apply Forall_app. split.
      - apply Forall_forall. intros q Hq.
        apply list_elem_of_In, List.in_map_iff in Hq.
        destruct Hq as (q' & <- & _). cbn. lia.
      - eapply Forall_impl; [exact Hgone|].
        intros [|j q] Hq; [destruct Hq|]. cbn in *. lia. }
    rewrite length_app in Hrest. cbn [length] in Hrest.
    replace (length done + 1)%nat with (S (length done)) in Hrest by lia.
    rewrite <- !app_assoc in Hrest. cbn [app] in Hrest.
    exists gone'. exact Hrest.
Qed.

Lemma visit_node_settles (config : Snapshot) (n : Node) :
  exists g,
    fold_left (visit_node config) (selected n) (n, []) = (settle config n, g).
Proof.
  induction n as [s|el children IH] using Node_nested_ind.
  { exists []. reflexivity. }
  destruct (visit_indexed config children IH [] [] (Forall_nil_2 _))
    as [gone Hinside].
  cbn [app length] in Hinside.
  pose proof (indexed_paths_nonempty 0 children) as Hne.
  assert (Hkeep : forall el',
             fold_left (visit_node config) (indexed_paths selected 0 children)
                       (ElementNode el' children, [])
             = (ElementNode el' (map (settle config) children), gone)).
  { intros el'. rewrite (visit_node_children config el' _ Hne), Hinside.
    reflexivity. }
  cbn [selected apply_node].
  destruct (uiKey el) as [key|] eqn:Hkey; cbn [app].
  2:{ exists gone. apply Hkeep. }
  cbn [fold_left]. unfold visit_node at 2. cbn [fst snd detached existsb node_at update].
  unfold replaced, written, callback. rewrite Hkey.
  destruct (assigned member_text config key) as [value|].
  2:{ rewrite bool_decide_eq_false_2 by (intros [v Hv]; discriminate).
      cbn [andb]. exists gone. apply Hkeep. }
  rewrite (bool_decide_eq_true_2 (is_Some (Some value))) by (eexists; reflexivity).
  cbn [andb].
  destruct (String.eqb (tagName el) "IMG").
  { cbn [negb andb]. exists gone. apply Hkeep. }
  destruct (String.eqb (tagName el) "INPUT" && negb (String.eqb (type el) "submit")).
  { cbn [negb andb]. exists gone. apply Hkeep. }
  cbn [negb andb]. exists [[]].
  destruct (bool_decide (uiTarget el = Some "html"));
    apply visit_node_detached; [left; reflexivity|exact Hne|left; reflexivity|exact Hne].
Qed.

(** The loop leaves of every node of the page what [apply_node] says. *)
Lemma applyConfig_nodes (config : Snapshot) (page : list Node) :
  applyConfig member_text parse config page = map (settle config) page.
Proof.
  unfold applyConfig, querySelectorAll.
  destruct (visit_indexed config page) with (done := @nil Node) (gone := @nil Path)
    as [gone Hrun].
  - apply Forall_forall. intros c _. apply visit_node_settles.
  - constructor.
  - cbn [app length] in Hrun. rewrite Hrun. reflexivity.
Qed.

(** ** What the loop does to one element *)


Lemma replaced_written (config : Snapshot) (el : Element) :
  written member_text config el = false -> replaced member_text config el = false.
Proof. intros Hw. unfold replaced. rewrite Hw. reflexivity. Qed.

Lemma settle_unwritten (config : Snapshot) (el : Element) (children : list Node) :
  written member_text config el = false ->
  settle config (ElementNode el children)
  = ElementNode el (map (settle config) children).
Proof.
  unfold written. intros Hw. cbn [apply_node].
  destruct (uiKey el) as [key|]; [|reflexivity].
  destruct (assigned member_text config key) as [v|]; [|reflexivity].
  apply bool_decide_eq_false in Hw. exfalso. apply Hw. eauto.
Qed.

Lemma settle_kept (config : Snapshot) (el : Element) (children : list Node) :
  replaced member_text config el = false ->
  exists el',
    settle config (ElementNode el children)
    = ElementNode el' (map (settle config) children) /\
    same_identity el el' /\
    (uiKey el = None -> el' = el).
Proof.
  unfold replaced, written. intros Hr. cbn [apply_node].
  destruct (uiKey el) as [key|] eqn:Hkey.
  2:{ exists el. repeat split; reflexivity. }
  destruct (assigned member_text config key) as [v|].
  2:{ exists el. repeat split; reflexivity. }
  rewrite (bool_decide_eq_true_2 (is_Some (Some v))) in Hr by (eexists; reflexivity).
  cbn [andb] in Hr.
  destruct (String.eqb (tagName el) "IMG").
  { eexists. split; [reflexivity|]. split; [repeat split|discriminate]. }
  destruct (String.eqb (tagName el) "INPUT" && negb (String.eqb (type el) "submit")).
  { eexists. split; [reflexivity|]. split; [repeat split|discriminate]. }
  discriminate Hr.
Qed.

Lemma settle_is_kept (config : Snapshot) (n : Node) : kept n (settle config n).
Proof.
  destruct n as [s|el children]; [reflexivity..|]. unfold kept. cbn [apply_node].
  destruct (uiKey el) as [key|] eqn:Hkey.
  2:{ eexists _, _. split; [reflexivity|]. split; [repeat split; congruence|auto]. }
  destruct (assigned member_text config key) as [v|].
  2:{ eexists _, _. split; [reflexivity|].
      split; [repeat split; congruence|auto]. }
  destruct (String.eqb (tagName el) "IMG").
  { eexists _, _. split; [reflexivity|].
    split; [repeat split; cbn; congruence|discriminate]. }
  destruct (String.eqb (tagName el) "INPUT" && negb (String.eqb (type el) "submit")).
  { eexists _, _. split; [reflexivity|].
    split; [repeat split; cbn; congruence|discriminate]. }
  destruct (bool_decide (uiTarget el = Some "html")).
  - eexists _, _. split; [reflexivity|].
    split; [repeat split; congruence|discriminate].
  - eexists _, _. split; [reflexivity|].
    split; [repeat split; congruence|discriminate].
Qed.

(** A node none of whose elements is assigned to comes out as it was. *)
Lemma settle_untouched (config : Snapshot) (n : Node) :
  touched_node member_text config n = false -> settle config n = n.
Proof.
  induction n as [s|el children IH] using Node_nested_ind; [reflexivity..|].
  cbn [touched_node]. intros Ht. apply orb_false_elim in Ht.
  destruct Ht as [Hw Hbelow]. rewrite (settle_unwritten _ _ _ Hw). f_equal.
  clear Hw. induction IH as [|c l Hc _ IHl]; [reflexivity|].
  cbn [existsb] in Hbelow. apply orb_false_elim in Hbelow.
  destruct Hbelow as [Hc' Hl]. cbn [map]. rewrite (Hc Hc'), (IHl Hl). reflexivity.
Qed.

Lemma settle_all_untouched (config : Snapshot) (nodes : list Node) :
  touched member_text config nodes = false -> map (settle config) nodes = nodes.
Proof.
  unfold touched. induction nodes as [|c l IH]; [reflexivity|].
  cbn [existsb map]. intros Ht. apply orb_false_elim in Ht.
  destruct Ht as [Hc Hl]. rewrite (settle_untouched _ _ Hc), (IH Hl). reflexivity.
Qed.

(** A node with no replaced element above it stays where it is. *)
Lemma at_path_settle (config : Snapshot) (p : Path) (nodes : list Node) (n : Node) :
  at_path p nodes = Some n ->
  replaced_above member_text config p nodes = false ->
  at_path p (map (settle config) nodes) = Some (settle config n).
Proof.
  revert nodes. induction p as [|i rest IH]; intros nodes Hn Hr; [discriminate|].
  cbn [at_path replaced_above] in *.
  change (map (settle config) nodes) with (settle config <$> nodes).
  rewrite list_lookup_fmap.
  destruct (nodes !! i) as [m|]; [|discriminate]. cbn [fmap option_fmap option_map].
  destruct rest as [|j rest].
  - injection Hn as ->. destruct (settle config n); reflexivity.
  - destruct m as [s|el children]; try discriminate.
    apply orb_false_elim in Hr. destruct Hr as [Hel Hr].
    destruct (settle_kept config el children Hel) as (el' & -> & _).
    apply IH; assumption.
Qed.



(** X11. What [applyConfig] keeps of the page.  The nodes of the page
    are as many as before; every node that does not lie inside a target
    whose content is replaced is still in its place, a text node as it
    was, an element with the id, tag, type, key and target it had, and
    with every attribute it had when it carries no [data-ui-key]; and a
    page on which the snapshot gives no target a value comes out as it
    was. *)
Theorem apply_keeps_page_structure (config : Snapshot) (page : list Node) :
  length (applyConfig member_text parse config page) = length page /\
  (forall p n,
      at_path p page = Some n ->
      replaced_above member_text config p page = false ->
      exists n',
        at_path p (applyConfig member_text parse config page) = Some n' /\
        kept n n') /\
  (touched member_text config page = false ->
   applyConfig member_text parse config page = page).
Proof.
  rewrite applyConfig_nodes. split; [apply length_map|]. split.
  - intros p n Hp Habove. exists (settle config n).
    split; [apply at_path_settle; assumption|apply settle_is_kept].
  - apply settle_all_untouched.
Qed.


End Apply.

(** ** The theorems at the sample page *)



(** The footer is no target and lies in none. *)
Lemma apply_keeps_page_structure_witness :
  exists n',
    at_path [2%nat] (applyConfig (fun _ => "") sample_parse Samples.snapshot page)
    = Some n' /\
    kept footer n'.
Proof.
  destruct (apply_keeps_page_structure (fun _ => "") sample_parse
              Samples.snapshot page) as (_ & Hkept & _).
  apply (Hkept [2%nat] footer); reflexivity.
Defined.


End PageProps.
